(** * Household budget application: the local persistence layer

    A shallow embedding of [src/lib/database.ts] (class [Database]), of the
    query hooks of [hooks/useDatabase] ([useTransactions], [useCategories],
    [useRecentCategories], [useMonthlyStats], [useCategoryStats]), of the
    writing functions of [useDatabase], of the validation and submission of
    [components/categories/CategoryForm.tsx], of the deletion and the
    reordering of [CategoryList] and of the filter count of
    [components/transactions/TransactionFilters.tsx].

    Conventions of the embedding:
    - a JavaScript string is a [string] (a sequence of code units below 256),
      compared code unit by code unit as [<] and [>=] do on strings;
    - a JavaScript number that holds an amount, an order or a time in
      milliseconds is a [Z];
    - an optional field [f?: T] is an [option T]; [undefined] is [None];
    - a Dexie table with the inbound primary key [id] is a finite map from
      the key to the stored object, read back in key order;
    - [async] code is run to completion one call after the other; a call
      whose promise is not awaited is run at the point where it is started
      and its rejection is dropped. *)

From Stdlib Require Import ZArith String Ascii List Lia Permutation Sorted.
From stdpp Require Import base gmap strings list fin_maps sorting.

Local Open Scope Z_scope.

(** ** The JavaScript runtime functions the sources call *)

Module Js.

(** *** Relational operators on strings *)

Definition lt (a b : string) : bool := String.ltb a b.
Definition le (a b : string) : bool := String.leb a b.

(** *** [String.prototype.toLowerCase], [trim], [includes], [length] *)

(** Case mapping of the code units below 256: [A]-[Z] and the accented
    capitals U+00C0-U+00DE (the sign U+00D7 apart) move 32 places up. *)
Definition lowerChar (c : ascii) : ascii :=
  let n := N_of_ascii c in
  if (((65 <=? n) && (n <=? 90)) ||
      ((192 <=? n) && (n <=? 222) && negb (n =? 215)))%N
  then ascii_of_N (n + 32) else c.

Fixpoint toLowerCase (s : string) : string :=
  match s with
  | EmptyString => EmptyString
  | String c r => String (lowerChar c) (toLowerCase r)
  end.

(** White space and line terminators below 256: TAB, LF, VT, FF, CR, SP
    and NBSP. *)
Definition isWhiteSpace (c : ascii) : bool :=
  let n := N_of_ascii c in
  (((9 <=? n) && (n <=? 13)) || (n =? 32) || (n =? 160))%N.

Fixpoint trimStart (s : string) : string :=
  match s with
  | EmptyString => EmptyString
  | String c r => if isWhiteSpace c then trimStart r else s
  end.

Fixpoint trimEnd (s : string) : string :=
  match s with
  | EmptyString => EmptyString
  | String c r =>
      match trimEnd r with
      | EmptyString => if isWhiteSpace c then EmptyString else String c EmptyString
      | r' => String c r'
      end
  end.

Definition trim (s : string) : string := trimEnd (trimStart s).

Fixpoint startsWith (s k : string) {struct k} : bool :=
  match k, s with
  | EmptyString, _ => true
  | String _ _, EmptyString => false
  | String a k', String b s' => if Ascii.eqb a b then startsWith s' k' else false
  end.

Fixpoint includes (s k : string) : bool :=
  startsWith s k ||
  match s with
  | EmptyString => false
  | String _ s' => includes s' k
  end.

(** *** Truthiness and the [||] defaults *)

Definition truthyStr (x : option string) : bool :=
  match x with
  | Some EmptyString | None => false
  | Some _ => true
  end.

(** [x || d] for an optional string: [undefined] and the empty string
    give [d]. *)
Definition orStr (x : option string) (d : string) : string :=
  match x with
  | Some EmptyString | None => d
  | Some s => s
  end.

(** [x || d] for an optional number: [undefined] and [0] give [d]. *)
Definition orNum (x : option Z) (d : Z) : Z :=
  match x with
  | Some v => if v =? 0 then d else v
  | None => d
  end.

Definition MAX_SAFE_INTEGER : Z := 9007199254740991.

(** *** [Array.prototype.sort], stable

    [le a b] says that the comparator puts [a] before [b] or ties them. *)
Section Sort.
Context {A : Type} (le : A -> A -> bool).

Fixpoint insertSorted (x : A) (l : list A) : list A :=
  match l with
  | [] => [x]
  | y :: r => if le x y then x :: l else y :: insertSorted x r
  end.

Fixpoint sortBy (l : list A) : list A :=
  match l with
  | [] => []
  | x :: r => insertSorted x (sortBy r)
  end.

End Sort.

(** [a.sort(cmp)] for a comparator that returns a number: [a] goes before
    [b] unless [cmp(a, b) > 0]. *)
Definition sortCmp {A : Type} (cmp : A -> A -> Z) : list A -> list A :=
  sortBy (fun a b => cmp a b <=? 0).




(** *** [a.findIndex(p)]: the index of the first element that satisfies
    [p], or -1 *)
Fixpoint findIndex {A : Type} (p : A -> bool) (l : list A) : Z :=
  match l with
  | [] => -1
  | x :: r =>
      if p x then 0
      else let i := findIndex p r in if i <? 0 then -1 else i + 1
  end.

(** *** [a.splice(start, deleteCount, ...items)]: the array [a] afterwards.
    A negative [start] counts from the end, and both numbers are clamped
    to the array. *)
Definition splice {A : Type} (start deleteCount : Z) (items l : list A) : list A :=
  let len := Z.of_nat (length l) in
  let actualStart := if start <? 0 then Z.max (len + start) 0 else Z.min start len in
  let actualDeleteCount := Z.min (Z.max deleteCount 0) (len - actualStart) in
  take (Z.to_nat actualStart) l ++ items ++
  drop (Z.to_nat (actualStart + actualDeleteCount)) l.

(** *** [Date]: time values are milliseconds since the epoch *)

Definition msPerDay : Z := 86400000.

Definition digitChar (n : Z) : ascii := ascii_of_N (48 + Z.to_N n).

(** [n] in decimal on [w] digits, zero-padded. *)
Fixpoint pad (w : nat) (n : Z) : string :=
  match w with
  | O => EmptyString
  | S w' => String.append (pad w' (n / 10))
                          (String (digitChar (n mod 10)) EmptyString)
  end.

(** Year, month and day of a day number counted from 1970-01-01
    (proleptic Gregorian calendar, as [YearFromTime], [MonthFromTime] and
    [DateFromTime] give them). *)
Definition civilFromDays (days : Z) : Z * Z * Z :=
  let z := days + 719468 in
  let era := z / 146097 in
  let doe := z - era * 146097 in
  let yoe := (doe - doe / 1460 + doe / 36524 - doe / 146096) / 365 in
  let doy := doe - (365 * yoe + yoe / 4 - yoe / 100) in
  let mp := (5 * doy + 2) / 153 in
  let d := doy - (153 * mp + 2) / 5 + 1 in
  let m := if mp <? 10 then mp + 3 else mp - 9 in
  let y := yoe + era * 400 + (if m <=? 2 then 1 else 0) in
  (y, m, d).

(** [new Date(t).toISOString()]: [YYYY-MM-DDTHH:mm:ss.sssZ], the year on
    six signed digits outside 0000..9999. *)
Definition isoDate (y m d : Z) : string :=
  let year :=
    if (0 <=? y) && (y <=? 9999) then pad 4 y
    else String (if y <? 0 then "-"%char else "+"%char) (pad 6 (Z.abs y)) in
  year +:+ "-" +:+ pad 2 m +:+ "-" +:+ pad 2 d.

Definition isoTime (ms : Z) : string :=
  "T" +:+ pad 2 (ms / 3600000) +:+ ":" +:+ pad 2 (ms / 60000 mod 60) +:+ ":" +:+
  pad 2 (ms / 1000 mod 60) +:+ "." +:+ pad 3 (ms mod 1000) +:+ "Z".

Definition toISOString (t : Z) : string :=
  let '(y, m, d) := civilFromDays (t / msPerDay) in
  isoDate y m d +:+ isoTime (t mod msPerDay).

(** [d.setDate(d.getDate() - n)] on the time value of [d]: [n] calendar
    days back at the same wall-clock time, in a zone whose offset from UTC
    is the same on both days. *)
Definition setDateBack (t n : Z) : Z := t - n * msPerDay.

End Js.

(** ** The data model of [types/index.ts] *)

Inductive TransactionType := Expense | Income.
Inductive CategoryType := CategoryExpense | CategoryIncome | CategoryBoth.

Global Instance TransactionType_eq_dec : EqDecision TransactionType.
Proof. solve_decision. Defined.

Global Instance CategoryType_eq_dec : EqDecision CategoryType.
Proof. solve_decision. Defined.

Module Transaction.
Record t := mk {
  id : string;
  amount : Z;
  date : string;
  categoryId : string;
  memo : option string;
  type : TransactionType;
  receiptImage : option string;
  createdAt : string;
  updatedAt : string;
  deletedAt : option string
}.

(** A [Partial<Transaction>] handed to [Table.update]. A field that is
    absent is [None]; an optional field that is present with the value
    [undefined] is [Some None], and [update] removes it from the object.
    No source patches the primary key. *)
Record patch := mkPatch {
  p_amount : option Z;
  p_date : option string;
  p_categoryId : option string;
  p_memo : option (option string);
  p_type : option TransactionType;
  p_receiptImage : option (option string);
  p_createdAt : option string;
  p_updatedAt : option string;
  p_deletedAt : option (option string)
}.

Definition noPatch : patch :=
  mkPatch None None None None None None None None None.

Definition apply (p : patch) (o : t) : t :=
  {| id := id o;
     amount := default (amount o) (p_amount p);
     date := default (date o) (p_date p);
     categoryId := default (categoryId o) (p_categoryId p);
     memo := default (memo o) (p_memo p);
     type := default (type o) (p_type p);
     receiptImage := default (receiptImage o) (p_receiptImage p);
     createdAt := default (createdAt o) (p_createdAt p);
     updatedAt := default (updatedAt o) (p_updatedAt p);
     deletedAt := default (deletedAt o) (p_deletedAt p) |}.
End Transaction.
Abbreviation Transaction := Transaction.t.

Module Category.
Record t := mk {
  id : string;
  name : string;
  icon : string;
  color : string;
  type : CategoryType;
  budget : option Z;
  order : Z;
  createdAt : string;
  updatedAt : string
}.

Record patch := mkPatch {
  p_name : option string;
  p_icon : option string;
  p_color : option string;
  p_type : option CategoryType;
  p_budget : option (option Z);
  p_order : option Z;
  p_updatedAt : option string
}.

Definition apply (p : patch) (o : t) : t :=
  {| id := id o;
     name := default (name o) (p_name p);
     icon := default (icon o) (p_icon p);
     color := default (color o) (p_color p);
     type := default (type o) (p_type p);
     budget := default (budget o) (p_budget p);
     order := default (order o) (p_order p);
     createdAt := createdAt o;
     updatedAt := default (updatedAt o) (p_updatedAt p) |}.
End Category.
Abbreviation Category := Category.t.

Inductive Currency := JPY | USD | EUR.
Inductive Theme := ThemeLight | ThemeDark | ThemeSystem.
Inductive Language := Ja | En.

Module Settings.
Record t := mk {
  id : string;
  currency : Currency;
  weekStartsOn : Z;
  theme : Theme;
  passcodeEnabled : bool;
  passcodeHash : option string;
  totalBudget : option Z;
  language : Language;
  createdAt : string;
  updatedAt : string
}.

(** [update(key, s)] with a whole settings object [s] as the changes:
    every property [s] has is written over the stored one; an optional
    property that [s] lacks keeps its stored value. *)
Definition overwrite (s o : t) : t :=
  {| id := id s;
     currency := currency s;
     weekStartsOn := weekStartsOn s;
     theme := theme s;
     passcodeEnabled := passcodeEnabled s;
     passcodeHash := match passcodeHash s with Some h => Some h | None => passcodeHash o end;
     totalBudget := match totalBudget s with Some b => Some b | None => totalBudget o end;
     language := language s;
     createdAt := createdAt s;
     updatedAt := updatedAt s |}.
End Settings.
Abbreviation Settings := Settings.t.
Arguments Settings.overwrite : simpl never.

Module Budget.
Record t := mk {
  id : string;
  categoryId : string;
  month : string;
  amount : Z;
  createdAt : string;
  updatedAt : string
}.
End Budget.
Abbreviation Budget := Budget.t.

Inductive Action := Create | Update | Delete | Restore.
Inductive EntityType :=
  EntityTransaction | EntityCategory | EntitySettings | EntityBudget.

(** The [data: any] of a log entry, one constructor per object the sources
    pass to [logAction]. *)
Inductive LogData :=
| DataTransaction (obj : Transaction)
| DataTransactionUpdate (modifications : Transaction.patch) (original : Transaction)
| DataCategory (obj : Category)
| DataCategoryUpdate (modifications : Category.patch) (original : Category)
| DataRestored.

Module ActionLog.
Record t := mk {
  id : string;
  action : Action;
  entityType : EntityType;
  entityId : string;
  data : LogData;
  timestamp : string
}.
End ActionLog.
Abbreviation ActionLog := ActionLog.t.

Record FilterOptions := mkFilterOptions {
  dateFrom : option string;
  dateTo : option string;
  categoryIds : option (list string);
  amountMin : option Z;
  amountMax : option Z;
  keyword : option string;
  filterType : option TransactionType
}.

Inductive SortField := ByDate | ByAmount | ByCategory | ByCreatedAt.
Inductive SortDirection := Asc | Desc.

Record SortOptions := mkSortOptions {
  field : SortField;
  direction : SortDirection
}.

(** ** The database and the asynchronous operations on it *)

(** The five tables of [Database], each a map from the primary key [id]. *)
Record Store := mkStore {
  transactions : gmap string Transaction;
  categories : gmap string Category;
  settings : gmap string Settings;
  budgets : gmap string Budget;
  actionLogs : gmap string ActionLog
}.

(** What a run depends on besides the tables: the values the coming calls of
    [crypto.randomUUID()] return and the time values of the coming
    [new Date()], in the order of the calls. *)
Record World := mkWorld {
  db : Store;
  uuids : nat -> string;
  clock : nat -> Z
}.

Inductive DexieError := ConstraintError | BulkError | ModifyError.

Inductive Outcome (A : Type) :=
| Resolved (a : A)
| Rejected (e : DexieError).
Arguments Resolved {A} a.
Arguments Rejected {A} e.

(** An [async] function: it ends with a resolved or a rejected promise, and
    what it wrote before a rejection stays written (no operation of the
    sources opens a transaction over several calls). *)
Definition Async (A : Type) : Type := World -> Outcome A * World.

Definition ret {A : Type} (a : A) : Async A := fun w => (Resolved a, w).

Definition bind {A B : Type} (m : Async A) (k : A -> Async B) : Async B :=
  fun w =>
    match m w with
    | (Resolved a, w') => k a w'
    | (Rejected e, w') => (Rejected e, w')
    end.

Definition throw {A : Type} (e : DexieError) : Async A :=
  fun w => (Rejected e, w).

(** A call whose promise is neither awaited nor returned: its writes are
    made, its result and its rejection are dropped. *)
Definition detached {A : Type} (m : Async A) : Async unit :=
  fun w => (Resolved tt, snd (m w)).

Notation "'await' x ':=' m 'in' k" := (bind m (fun x => k))
  (at level 10, x name, m at level 100, k at level 200,
   format "'[v' 'await'  x  ':='  m  'in' '/' k ']'").

Definition exec {A : Type} (m : Async A) (w : World) : World := snd (m w).
Definition outcome {A : Type} (m : Async A) (w : World) : Outcome A := fst (m w).

Definition getStore : Async Store := fun w => (Resolved (db w), w).

Definition putStore (s : Store) : Async unit :=
  fun w => (Resolved tt, mkWorld s (uuids w) (clock w)).

(** [crypto.randomUUID()] *)
Definition randomUUID : Async string :=
  fun w => (Resolved (uuids w 0%nat),
            mkWorld (db w) (fun n => uuids w (S n)) (clock w)).

(** [new Date()], as a time value *)
Definition newDate : Async Z :=
  fun w => (Resolved (clock w 0%nat),
            mkWorld (db w) (uuids w) (fun n => clock w (S n))).

Fixpoint forEach {A : Type} (l : list A) (body : A -> Async unit) : Async unit :=
  match l with
  | [] => ret tt
  | x :: r => await _ := body x in forEach r body
  end.

(** ** Dexie tables *)

Module Dexie.

(** A table of objects [T] that [update] changes by values of [P]: where
    its rows live in the database, its inbound primary key, the effect of
    an [update], and the functions subscribed to its [creating], [updating]
    and [deleting] hooks. *)
Record Table (T P : Type) := mkTable {
  rows : Store -> gmap string T;
  setRows : gmap string T -> Store -> Store;
  primaryKey : T -> string;
  applyChanges : P -> T -> T;
  creating : T -> Async unit;
  updating : P -> T -> Async unit;
  deleting : T -> Async unit
}.
Arguments mkTable {T P} _ _ _ _ _ _ _.
Arguments rows {T P} _ _.
Arguments setRows {T P} _ _ _.
Arguments primaryKey {T P} _ _.
Arguments applyChanges {T P} _ _ _.
Arguments creating {T P} _ _.
Arguments updating {T P} _ _ _.
Arguments deleting {T P} _ _.

Definition noHook {A : Type} (_ : A) : Async unit := ret tt.

Section Methods.
Context {T P : Type} (tb : Table T P).

(** The rows in the order of the primary key. *)
Definition sorted (m : gmap string T) : list T :=
  snd <$> Js.sortBy (fun a b => Js.le (fst a) (fst b)) (map_to_list m).

(** The rows in the order of an index, rows of one index value in the
    order of the primary key. *)
Definition orderedBy {I : Type} (leI : I -> I -> bool) (index : T -> I)
    (m : gmap string T) : list T :=
  Js.sortBy (fun a b => leI (index a) (index b)) (sorted m).

Definition readRows : Async (gmap string T) :=
  await s := getStore in ret (rows tb s).

Definition writeRows (m : gmap string T) : Async unit :=
  await s := getStore in putStore (setRows tb m s).

Definition get (key : string) : Async (option T) :=
  await m := readRows in ret (m !! key).

Definition toArray : Async (list T) :=
  await m := readRows in ret (sorted m).

Definition count : Async Z :=
  await m := readRows in ret (Z.of_nat (size m)).

(** [table.add(obj)]: rejected when the key is taken. *)
Definition add (obj : T) : Async string :=
  await _ := creating tb obj in
  await m := readRows in
  match m !! primaryKey tb obj with
  | Some _ => throw ConstraintError
  | None =>
      await _ := writeRows (<[primaryKey tb obj := obj]> m) in
      ret (primaryKey tb obj)
  end.

(** [table.bulkAdd(objs)] outside a transaction: the objects whose key is
    free are added, and the promise is rejected when one was not. *)
Fixpoint bulkAddFrom (objs : list T) (failed : bool) : Async bool :=
  match objs with
  | [] => ret failed
  | obj :: r =>
      await _ := creating tb obj in
      await m := readRows in
      match m !! primaryKey tb obj with
      | Some _ => bulkAddFrom r true
      | None =>
          await _ := writeRows (<[primaryKey tb obj := obj]> m) in
          bulkAddFrom r failed
      end
  end.

Definition bulkAdd (objs : list T) : Async unit :=
  await failed := bulkAddFrom objs false in
  if failed then throw BulkError else ret tt.

(** [table.update(key, changes)]: resolves to the number of rows updated.
    When the changes move the object to another key, it is added there and
    removed here, unless that key is taken. *)
Definition update (key : string) (changes : P) : Async Z :=
  await m := readRows in
  match m !! key with
  | None => ret 0
  | Some obj =>
      await _ := updating tb changes obj in
      await m := readRows in
      let obj' := applyChanges tb changes obj in
      if decide (primaryKey tb obj' = key) then
        await _ := writeRows (<[key := obj']> m) in ret 1
      else
        match m !! primaryKey tb obj' with
        | Some _ => throw ModifyError
        | None =>
            await _ := writeRows (<[primaryKey tb obj' := obj']> (delete key m)) in
            ret 1
        end
  end.

Definition deleteRow (obj : T) : Async unit :=
  await _ := deleting tb obj in
  await m := readRows in
  writeRows (delete (primaryKey tb obj) m).

(** [collection.delete()] for the rows a query selects. *)
Definition deleteAll (query : gmap string T -> list T) : Async Z :=
  await m := readRows in
  await _ := forEach (query m) deleteRow in
  ret (Z.of_nat (length (query m))).

(** [table.clear()] *)
Definition clear : Async unit :=
  await _ := deleteAll sorted in ret tt.

(** [table.bulkDelete(keys)] *)
Definition bulkDelete (keys : list string) : Async unit :=
  forEach keys (fun key =>
    await m := readRows in
    match m !! key with
    | Some obj => deleteRow obj
    | None => ret tt
    end).


(** [collection.modify(changes)] for the rows a query selects: each is
    updated as [update] does, its [updating] hook called; resolves to the
    number of rows. No source changes a primary key by [modify]. *)
Definition modify (query : gmap string T -> list T) (changes : P) : Async Z :=
  await m := readRows in
  await _ := forEach (query m)
               (fun obj => await _ := update (primaryKey tb obj) changes in ret tt) in
  ret (Z.of_nat (length (query m))).

(** [table.delete(key)]: the row of the key, when there is one, is
    deleted, its [deleting] hook called. *)
Definition delete (key : string) : Async unit :=
  await m := readRows in
  match m !! key with
  | Some obj => deleteRow obj
  | None => ret tt
  end.

End Methods.
End Dexie.

(** ** [class Database] of [lib/database.ts] *)

Definition setTransactions (m : gmap string Transaction) (s : Store) : Store :=
  mkStore m (categories s) (settings s) (budgets s) (actionLogs s).
Definition setCategories (m : gmap string Category) (s : Store) : Store :=
  mkStore (transactions s) m (settings s) (budgets s) (actionLogs s).
Definition setSettings (m : gmap string Settings) (s : Store) : Store :=
  mkStore (transactions s) (categories s) m (budgets s) (actionLogs s).
Definition setBudgets (m : gmap string Budget) (s : Store) : Store :=
  mkStore (transactions s) (categories s) (settings s) m (actionLogs s).
Definition setActionLogs (m : gmap string ActionLog) (s : Store) : Store :=
  mkStore (transactions s) (categories s) (settings s) (budgets s) m.

(** [actionLogs]: no hook is subscribed, no source updates a log. *)
Definition actionLogsTable : Dexie.Table ActionLog unit :=
  Dexie.mkTable actionLogs setActionLogs ActionLog.id (fun _ log => log)
    Dexie.noHook (fun _ => Dexie.noHook) Dexie.noHook.

(** The block of [logAction] under [// Keep only last 500 logs]. *)
Definition keepLast500 : Async unit :=
  await count := Dexie.count actionLogsTable in
  if 500 <? count then
    await logs := Dexie.readRows actionLogsTable in
    let oldestLogs :=
      take (Z.to_nat (count - 500)) (Dexie.orderedBy Js.le ActionLog.timestamp logs) in
    let idsToDelete := ActionLog.id <$> oldestLogs in
    Dexie.bulkDelete actionLogsTable idsToDelete
  else ret tt.

Definition logAction (action : Action) (entityType : EntityType)
    (entityId : string) (data : LogData) : Async unit :=
  await id := randomUUID in
  await now := newDate in
  let log := ActionLog.mk id action entityType entityId data (Js.toISOString now) in
  await _ := Dexie.add actionLogsTable log in
  keepLast500.

(** The hooks the constructor subscribes; none of them awaits [logAction]. *)
Definition transactionsTable : Dexie.Table Transaction Transaction.patch :=
  Dexie.mkTable transactions setTransactions Transaction.id Transaction.apply
    (fun obj =>
       detached (logAction Create EntityTransaction (Transaction.id obj)
                   (DataTransaction obj)))
    (fun modifications obj =>
       detached (logAction Update EntityTransaction (Transaction.id obj)
                   (DataTransactionUpdate modifications obj)))
    (fun obj =>
       detached (logAction Delete EntityTransaction (Transaction.id obj)
                   (DataTransaction obj))).

Definition categoriesTable : Dexie.Table Category Category.patch :=
  Dexie.mkTable categories setCategories Category.id Category.apply
    (fun obj =>
       detached (logAction Create EntityCategory (Category.id obj)
                   (DataCategory obj)))
    (fun modifications obj =>
       detached (logAction Update EntityCategory (Category.id obj)
                   (DataCategoryUpdate modifications obj)))
    (fun obj =>
       detached (logAction Delete EntityCategory (Category.id obj)
                   (DataCategory obj))).

Definition settingsTable : Dexie.Table Settings Settings :=
  Dexie.mkTable settings setSettings Settings.id Settings.overwrite
    Dexie.noHook (fun _ => Dexie.noHook) Dexie.noHook.

Definition budgetsTable : Dexie.Table Budget unit :=
  Dexie.mkTable budgets setBudgets Budget.id (fun _ b => b)
    Dexie.noHook (fun _ => Dexie.noHook) Dexie.noHook.

Definition softDeleteTransaction (id : string) : Async unit :=
  await transaction := Dexie.get transactionsTable id in
  match transaction with
  | Some _ =>
      await deletedAt := newDate in
      await updatedAt := newDate in
      await _ := Dexie.update transactionsTable id
        {| Transaction.p_amount := None; Transaction.p_date := None;
           Transaction.p_categoryId := None; Transaction.p_memo := None;
           Transaction.p_type := None; Transaction.p_receiptImage := None;
           Transaction.p_createdAt := None;
           Transaction.p_updatedAt := Some (Js.toISOString updatedAt);
           Transaction.p_deletedAt := Some (Some (Js.toISOString deletedAt)) |} in
      ret tt
  | None => ret tt
  end.

Definition restoreTransaction (id : string) : Async unit :=
  await updatedAt := newDate in
  await _ := Dexie.update transactionsTable id
    {| Transaction.p_amount := None; Transaction.p_date := None;
       Transaction.p_categoryId := None; Transaction.p_memo := None;
       Transaction.p_type := None; Transaction.p_receiptImage := None;
       Transaction.p_createdAt := None;
       Transaction.p_updatedAt := Some (Js.toISOString updatedAt);
       Transaction.p_deletedAt := Some None |} in
  detached (logAction Restore EntityTransaction id DataRestored).

(** [where('deletedAt').below(cutoffDate)]: the rows that have a
    [deletedAt] below the bound, in the order of that index. *)
Definition deletedBelow (cutoffDate : string) (m : gmap string Transaction)
    : list Transaction :=
  List.filter
    (fun t => match Transaction.deletedAt t with
              | Some d => Js.lt d cutoffDate
              | None => false
              end)
    (Dexie.orderedBy Js.le
       (fun t => default EmptyString (Transaction.deletedAt t)) m).

Definition permanentlyDeleteOldTrash : Async unit :=
  await now := newDate in
  let thirtyDaysAgo := Js.setDateBack now 30 in
  let cutoffDate := Js.toISOString thirtyDaysAgo in
  await _ := Dexie.deleteAll transactionsTable (deletedBelow cutoffDate) in
  ret tt.

(** The object [exportData] returns and [importData] reads. [importData]
    takes [any]: a list that its argument lacks is [None]. *)
Record ExportData := mkExportData {
  data_transactions : option (list Transaction);
  data_categories : option (list Category);
  data_settings : option (list Settings);
  data_budgets : option (list Budget)
}.

Record ExportFile := mkExportFile {
  version : Z;
  exportDate : string;
  data : ExportData
}.

Inductive ImportMode := Overwrite | Merge.

Definition exportData : Async ExportFile :=
  await transactions := Dexie.toArray transactionsTable in
  await categories := Dexie.toArray categoriesTable in
  await settings := Dexie.toArray settingsTable in
  await budgets := Dexie.toArray budgetsTable in
  await now := newDate in
  ret {| version := 1;
         exportDate := Js.toISOString now;
         data := {| data_transactions := Some transactions;
                    data_categories := Some categories;
                    data_settings := Some settings;
                    data_budgets := Some budgets |} |}.

Definition importData (file : ExportFile) (mode : ImportMode) : Async unit :=
  await _ :=
    match mode with
    | Overwrite =>
        await _ := Dexie.clear transactionsTable in
        await _ := Dexie.clear categoriesTable in
        Dexie.clear budgetsTable
    | Merge => ret tt
    end in
  await _ :=
    match data_categories (data file) with
    | Some categories => Dexie.bulkAdd categoriesTable categories
    | None => ret tt
    end in
  await _ :=
    match data_transactions (data file) with
    | Some transactions => Dexie.bulkAdd transactionsTable transactions
    | None => ret tt
    end in
  await _ :=
    match data_budgets (data file) with
    | Some budgets => Dexie.bulkAdd budgetsTable budgets
    | None => ret tt
    end in
  match data_settings (data file) with
  | Some (settings :: _) =>
      await existing := Dexie.get settingsTable "main" in
      match existing with
      | Some _ =>
          await _ := Dexie.update settingsTable "main" settings in ret tt
      | None =>
          await _ := Dexie.add settingsTable settings in ret tt
      end
  | _ => ret tt
  end.

(** ** The live queries of [hooks/useDatabase]

    Each is the function its [useLiveQuery] evaluates on the current
    tables. *)

(** [db.transactions.where('deletedAt').equals(undefined)]: the rows that
    have no [deletedAt], in the order of the primary key. *)
Definition activeTransactions (s : Store) : list Transaction :=
  List.filter (fun t => bool_decide (Transaction.deletedAt t = None))
              (Dexie.sorted (transactions s)).

Definition leZ (a b : Z) : bool := a <=? b.

Definition dateRangeFilter (filters : FilterOptions) (t : Transaction) : bool :=
  if Js.truthyStr (dateFrom filters) || Js.truthyStr (dateTo filters) then
    let from := Js.orStr (dateFrom filters) "0000-01-01" in
    let to := Js.orStr (dateTo filters) "9999-12-31" in
    Js.le from (Transaction.date t) && Js.le (Transaction.date t) to
  else true.

Definition categoryFilter (filters : FilterOptions) (t : Transaction) : bool :=
  match categoryIds filters with
  | Some (c :: ids) => bool_decide (Transaction.categoryId t ∈ c :: ids)
  | _ => true
  end.

Definition amountFilter (filters : FilterOptions) (t : Transaction) : bool :=
  if bool_decide (amountMin filters <> None) || bool_decide (amountMax filters <> None) then
    let min := Js.orNum (amountMin filters) 0 in
    let max := Js.orNum (amountMax filters) Js.MAX_SAFE_INTEGER in
    (min <=? Transaction.amount t) && (Transaction.amount t <=? max)
  else true.

Definition keywordFilter (filters : FilterOptions) (t : Transaction) : bool :=
  if Js.truthyStr (keyword filters) then
    let keyword := Js.toLowerCase (default EmptyString (keyword filters)) in
    match Transaction.memo t with
    | Some memo => Js.includes (Js.toLowerCase memo) keyword
    | None => false
    end
  else true.

Definition typeFilter (filters : FilterOptions) (t : Transaction) : bool :=
  match filterType filters with
  | Some ty => bool_decide (Transaction.type t = ty)
  | None => true
  end.

Definition applyFilters (filters : option FilterOptions) (query : list Transaction)
    : list Transaction :=
  match filters with
  | Some f =>
      List.filter (typeFilter f)
        (List.filter (keywordFilter f)
          (List.filter (amountFilter f)
            (List.filter (categoryFilter f)
              (List.filter (dateRangeFilter f) query))))
  | None => query
  end.

(** The comparator of [results.sort] for a string key and for a number key. *)
Definition compareStr (d : SortDirection) (aValue bValue : string) : Z :=
  if Js.lt aValue bValue then (match d with Asc => -1 | Desc => 1 end)
  else if Js.lt bValue aValue then (match d with Asc => 1 | Desc => -1 end)
  else 0.

Definition compareNum (d : SortDirection) (aValue bValue : Z) : Z :=
  if aValue <? bValue then (match d with Asc => -1 | Desc => 1 end)
  else if bValue <? aValue then (match d with Asc => 1 | Desc => -1 end)
  else 0.

Definition sortComparator (sort : SortOptions) (a b : Transaction) : Z :=
  match field sort with
  | ByDate => compareStr (direction sort) (Transaction.date a) (Transaction.date b)
  | ByAmount => compareNum (direction sort) (Transaction.amount a) (Transaction.amount b)
  | ByCreatedAt =>
      compareStr (direction sort) (Transaction.createdAt a) (Transaction.createdAt b)
  | ByCategory =>
      compareStr (direction sort) (Transaction.categoryId a) (Transaction.categoryId b)
  end.

Section Queries.

(** [new Date(s).getTime()] for a date string [s]; [None] is [NaN]. How a
    string that is no ISO date is read is left to the engine. *)
Variable dateGetTime : string -> option Z.

(** [(a, b) => new Date(b.date).getTime() - new Date(a.date).getTime()];
    [sort] reads a [NaN] as 0. *)
Definition defaultComparator (a b : Transaction) : Z :=
  match dateGetTime (Transaction.date b), dateGetTime (Transaction.date a) with
  | Some tb, Some ta => tb - ta
  | _, _ => 0
  end.

Definition useTransactions (filters : option FilterOptions)
    (sort : option SortOptions) (s : Store) : list Transaction :=
  let results := applyFilters filters (activeTransactions s) in
  match sort with
  | Some so => Js.sortCmp (sortComparator so) results
  | None => Js.sortCmp defaultComparator results
  end.

End Queries.

Definition useCategories (type : option TransactionType) (s : Store) : list Category :=
  let query := Dexie.orderedBy leZ Category.order (categories s) in
  match type with
  | Some ty =>
      List.filter
        (fun cat =>
           match Category.type cat, ty with
           | CategoryExpense, Expense | CategoryIncome, Income | CategoryBoth, _ => true
           | _, _ => false
           end) query
  | None => query
  end.

Definition useSettings (s : Store) : option Settings := settings s !! "main".












(** ** The writes of [useDatabase] that the category form calls *)

(** [Omit<Category, 'id' | 'createdAt' | 'updatedAt'>] *)
Record CategoryData := mkCategoryData {
  cd_name : string;
  cd_icon : string;
  cd_color : string;
  cd_type : CategoryType;
  cd_budget : option Z;
  cd_order : Z
}.

Definition createCategory (category : CategoryData) : Async Category :=
  await id := randomUUID in
  await createdAt := newDate in
  await updatedAt := newDate in
  let newCategory :=
    {| Category.id := id;
       Category.name := cd_name category;
       Category.icon := cd_icon category;
       Category.color := cd_color category;
       Category.type := cd_type category;
       Category.budget := cd_budget category;
       Category.order := cd_order category;
       Category.createdAt := Js.toISOString createdAt;
       Category.updatedAt := Js.toISOString updatedAt |} in
  await _ := Dexie.add categoriesTable newCategory in
  ret newCategory.

Definition updateCategory (id : string) (updates : CategoryData) : Async unit :=
  await updatedAt := newDate in
  await _ := Dexie.update categoriesTable id
    {| Category.p_name := Some (cd_name updates);
       Category.p_icon := Some (cd_icon updates);
       Category.p_color := Some (cd_color updates);
       Category.p_type := Some (cd_type updates);
       Category.p_budget := Some (cd_budget updates);
       Category.p_order := Some (cd_order updates);
       Category.p_updatedAt := Some (Js.toISOString updatedAt) |} in
  ret tt.

(** ** [CategoryForm]: validation and submission *)

Module CategoryForm.

Record FormData := mkFormData {
  name : string;
  icon : string;
  color : string;
  type : CategoryType;
  budget : string
}.

Inductive NameError := NameRequired | NameTooLong | NameDuplicate.
Inductive BudgetError := BudgetNotNumber | BudgetNegative | BudgetTooLarge.

(** The object [newErrors]: the message under [name] and under [budget]. *)
Record Errors := mkErrors {
  nameError : option NameError;
  budgetError : option BudgetError
}.

Definition digitValue (c : ascii) : option Z :=
  let n := Z.of_N (N_of_ascii c) in
  if (48 <=? n) && (n <=? 57) then Some (n - 48)
  else if (97 <=? n) && (n <=? 122) then Some (n - 87)
  else if (65 <=? n) && (n <=? 90) then Some (n - 55)
  else None.

Fixpoint parseDigits (radix : Z) (s : string) (acc : option Z) : option Z :=
  match s with
  | EmptyString => acc
  | String c r =>
      match digitValue c with
      | Some d =>
          if d <? radix then parseDigits radix r (Some (default 0 acc * radix + d))
          else acc
      | None => acc
      end
  end.

(** [parseInt(s)] without a radix; [None] is [NaN]. *)
Definition parseInt (s : string) : option Z :=
  let s1 := Js.trimStart s in
  let '(sign, s2) :=
    match s1 with
    | String "-" r => (-1, r)
    | String "+" r => (1, r)
    | _ => (1, s1)
    end in
  let '(radix, s3) :=
    match s2 with
    | String "0" (String "x" r) | String "0" (String "X" r) => (16, r)
    | _ => (10, s2)
    end in
  (fun n => sign * n) <$> parseDigits radix s3 None.

(** [validateForm]: [categories] is what [useCategories()] has delivered
    ([None] before its first result), [category] the category under edit. *)
Definition validateForm (categories : option (list Category))
    (category : option Category) (formData : FormData) : Errors :=
  let trimmed := Js.trim (name formData) in
  {| nameError :=
       if bool_decide (trimmed = EmptyString) then Some NameRequired
       else if (20 <? Z.of_nat (String.length trimmed)) then Some NameTooLong
       else
         let existingCategory :=
           List.find
             (fun cat =>
                negb (bool_decide (Some (Category.id cat) = Category.id <$> category)) &&
                bool_decide (Js.toLowerCase (Category.name cat) = Js.toLowerCase trimmed))
             (default [] categories) in
         match existingCategory with
         | Some _ => Some NameDuplicate
         | None => None
         end;
     budgetError :=
       if bool_decide (budget formData = EmptyString) then None
       else
         match parseInt (budget formData) with
         | None => Some BudgetNotNumber
         | Some b =>
             if b <? 0 then Some BudgetNegative
             else if 9999999 <? b then Some BudgetTooLarge
             else None
         end |}.

Definition isValid (errors : Errors) : bool :=
  match nameError errors, budgetError errors with
  | None, None => true
  | _, _ => false
  end.

(** [try { ... } catch (error) { ... }]: a rejection ends in a toast. *)
Definition catching (m : Async unit) : Async unit :=
  fun w => (Resolved tt, snd (m w)).

(** [handleSubmit]; it resolves to the errors [validateForm] has set. *)
Definition handleSubmit (categories : option (list Category))
    (category : option Category) (formData : FormData) : Async Errors :=
  let errors := validateForm categories category formData in
  if negb (isValid errors) then ret errors
  else
    let categoryData :=
      {| cd_name := Js.trim (name formData);
         cd_icon := icon formData;
         cd_color := color formData;
         cd_type := type formData;
         cd_budget :=
           if bool_decide (budget formData = EmptyString) then None
           else parseInt (budget formData);
         cd_order :=
           Js.orNum (Category.order <$> category)
                    (Js.orNum (Z.of_nat <$> (length <$> categories)) 0 + 1) |} in
    await _ :=
      catching
        match category with
        | Some c => updateCategory (Category.id c) categoryData
        | None => await _ := createCategory categoryData in ret tt
        end in
    ret errors.

End CategoryForm.

(** ** The rest of [class Database] *)

Definition initializeDefaultData : Async unit :=
  await settingsCount := Dexie.count settingsTable in
  if settingsCount =? 0 then
    await createdAt := newDate in
    await updatedAt := newDate in
    let defaultSettings :=
      {| Settings.id := "main";
         Settings.currency := JPY;
         Settings.weekStartsOn := 1;
         Settings.theme := ThemeSystem;
         Settings.passcodeEnabled := false;
         Settings.passcodeHash := None;
         Settings.totalBudget := None;
         Settings.language := Ja;
         Settings.createdAt := Js.toISOString createdAt;
         Settings.updatedAt := Js.toISOString updatedAt |} in
    await _ := Dexie.add settingsTable defaultSettings in
    ret tt
  else ret tt.

(** [{ ...category, id, createdAt, updatedAt }] *)
Definition newCategoryOf (category : CategoryData) (id createdAt updatedAt : string)
    : Category :=
  {| Category.id := id;
     Category.name := cd_name category;
     Category.icon := cd_icon category;
     Category.color := cd_color category;
     Category.type := cd_type category;
     Category.budget := cd_budget category;
     Category.order := cd_order category;
     Category.createdAt := createdAt;
     Category.updatedAt := updatedAt |}.

(** The literal [sampleCategories]. Its names and icons lie outside the
    code units below 256; they are written here by their UTF-8 bytes. The
    function stores them and never inspects them. *)
Definition sampleCategories : list CategoryData :=
  [ mkCategoryData "食費" "🍽️" "#ef4444" CategoryExpense None 1;
    mkCategoryData "交通費" "🚌" "#3b82f6" CategoryExpense None 2;
    mkCategoryData "住居費" "🏠" "#8b5cf6" CategoryExpense None 3;
    mkCategoryData "光熱費" "💡" "#f59e0b" CategoryExpense None 4;
    mkCategoryData "娯楽" "🎮" "#10b981" CategoryExpense None 5;
    mkCategoryData "給与" "💰" "#059669" CategoryIncome None 6;
    mkCategoryData "副業" "💼" "#0d9488" CategoryIncome None 7 ].

(** The body of the loop of [createSampleData]. *)
Definition createSample (category : CategoryData) : Async unit :=
  await id := randomUUID in
  await createdAt := newDate in
  await updatedAt := newDate in
  let newCategory :=
    newCategoryOf category id (Js.toISOString createdAt) (Js.toISOString updatedAt) in
  await _ := Dexie.add categoriesTable newCategory in
  ret tt.

Definition createSampleData : Async unit :=
  forEach sampleCategories createSample.




(** ** The other writes of [useDatabase] *)

(** [Omit<Transaction, 'id' | 'createdAt' | 'updatedAt'>] *)
Record TransactionData := mkTransactionData {
  td_amount : Z;
  td_date : string;
  td_categoryId : string;
  td_memo : option string;
  td_type : TransactionType;
  td_receiptImage : option string;
  td_deletedAt : option string
}.

Definition createTransaction (transaction : TransactionData) : Async Transaction :=
  await id := randomUUID in
  await createdAt := newDate in
  await updatedAt := newDate in
  let newTransaction :=
    {| Transaction.id := id;
       Transaction.amount := td_amount transaction;
       Transaction.date := td_date transaction;
       Transaction.categoryId := td_categoryId transaction;
       Transaction.memo := td_memo transaction;
       Transaction.type := td_type transaction;
       Transaction.receiptImage := td_receiptImage transaction;
       Transaction.createdAt := Js.toISOString createdAt;
       Transaction.updatedAt := Js.toISOString updatedAt;
       Transaction.deletedAt := td_deletedAt transaction |} in
  await _ := Dexie.add transactionsTable newTransaction in
  ret newTransaction.

(** [{ ...updates, updatedAt: new Date().toISOString() }] *)
Definition stampTransaction (updates : Transaction.patch) (updatedAt : string)
    : Transaction.patch :=
  {| Transaction.p_amount := Transaction.p_amount updates;
     Transaction.p_date := Transaction.p_date updates;
     Transaction.p_categoryId := Transaction.p_categoryId updates;
     Transaction.p_memo := Transaction.p_memo updates;
     Transaction.p_type := Transaction.p_type updates;
     Transaction.p_receiptImage := Transaction.p_receiptImage updates;
     Transaction.p_createdAt := Transaction.p_createdAt updates;
     Transaction.p_updatedAt := Some updatedAt;
     Transaction.p_deletedAt := Transaction.p_deletedAt updates |}.

Definition updateTransaction (id : string) (updates : Transaction.patch) : Async unit :=
  await updatedAt := newDate in
  await _ := Dexie.update transactionsTable id
               (stampTransaction updates (Js.toISOString updatedAt)) in
  ret tt.

Definition deleteTransaction (id : string) : Async unit :=
  softDeleteTransaction id.

(** [updateCategory] with any [Partial<Category>], as [CategoryList] calls
    it. *)
Definition stampCategory (updates : Category.patch) (updatedAt : string)
    : Category.patch :=
  {| Category.p_name := Category.p_name updates;
     Category.p_icon := Category.p_icon updates;
     Category.p_color := Category.p_color updates;
     Category.p_type := Category.p_type updates;
     Category.p_budget := Category.p_budget updates;
     Category.p_order := Category.p_order updates;
     Category.p_updatedAt := Some updatedAt |}.

Definition updateCategoryPartial (id : string) (updates : Category.patch) : Async unit :=
  await updatedAt := newDate in
  await _ := Dexie.update categoriesTable id
               (stampCategory updates (Js.toISOString updatedAt)) in
  ret tt.

(** [db.transactions.where('categoryId').equals(id)]: the rows of that
    category, in the order of the primary key. *)
Definition whereCategoryId (id : string) (m : gmap string Transaction)
    : list Transaction :=
  List.filter (fun t => bool_decide (Transaction.categoryId t = id)) (Dexie.sorted m).

(** The changes [{ categoryId: mergeToId }]. *)
Definition setCategoryId (mergeToId : string) : Transaction.patch :=
  {| Transaction.p_amount := None; Transaction.p_date := None;
     Transaction.p_categoryId := Some mergeToId; Transaction.p_memo := None;
     Transaction.p_type := None; Transaction.p_receiptImage := None;
     Transaction.p_createdAt := None; Transaction.p_updatedAt := None;
     Transaction.p_deletedAt := None |}.

Definition deleteCategory (id : string) (mergeToId : option string) : Async unit :=
  await _ :=
    if Js.truthyStr mergeToId then
      await _ := Dexie.modify transactionsTable (whereCategoryId id)
                   (setCategoryId (default EmptyString mergeToId)) in
      ret tt
    else ret tt in
  Dexie.delete categoriesTable id.

(** ** [TransactionFilters] *)

Module TransactionFilters.



End TransactionFilters.

(** ** [CategoryList]: deletion and reordering *)

Module CategoryList.

(** [confirmDelete], for the [selectedCategory] and the [mergeToId] of the
    dialog. *)
Definition confirmDelete (selectedCategory : option Category) (mergeToId : string)
    : Async unit :=
  match selectedCategory with
  | None => ret tt
  | Some selected =>
      CategoryForm.catching
        (deleteCategory (Category.id selected)
           (if bool_decide (mergeToId = EmptyString) then None else Some mergeToId))
  end.

(** The changes [{ order }]. *)
Definition setOrder (order : Z) : Category.patch :=
  {| Category.p_name := None; Category.p_icon := None; Category.p_color := None;
     Category.p_type := None; Category.p_budget := None;
     Category.p_order := Some order; Category.p_updatedAt := None |}.

(** The loop of [handleDrop] from the index [i] on. *)
Fixpoint reorderFrom (i : Z) (newCategories : list Category) : Async unit :=
  match newCategories with
  | [] => ret tt
  | category :: rest =>
      await _ :=
        if negb (Category.order category =? i + 1) then
          updateCategoryPartial (Category.id category) (setOrder (i + 1))
        else ret tt in
      reorderFrom (i + 1) rest
  end.

(** The list [newCategories] of [handleDrop]. *)
Definition moved (categories : list Category) (draggedCategory : Category)
    (targetIndex : Z) : list Category :=
  let sourceIndex :=
    Js.findIndex
      (fun cat => bool_decide (Category.id cat = Category.id draggedCategory))
      categories in
  Js.splice targetIndex 0 [draggedCategory] (Js.splice sourceIndex 1 [] categories).

Definition handleDrop (categories : option (list Category))
    (draggedCategory : option Category) (targetIndex : Z) : Async unit :=
  match draggedCategory, categories with
  | Some dragged, Some categories =>
      let sourceIndex :=
        Js.findIndex
          (fun cat => bool_decide (Category.id cat = Category.id dragged))
          categories in
      if sourceIndex =? targetIndex then ret tt
      else CategoryForm.catching (reorderFrom 0 (moved categories dragged targetIndex))
  | _, _ => ret tt
  end.

End CategoryList.

(** ** The vocabulary of the statements *)

(** Every row is stored under its own [id]: the tables have an inbound
    primary key. *)
Definition keyed {T : Type} (key : T -> string) (m : gmap string T) : Prop :=
  forall k r, m !! k = Some r -> key r = k.

Record wfStore (s : Store) : Prop := mkWfStore {
  wf_transactions : keyed Transaction.id (transactions s);
  wf_categories : keyed Category.id (categories s);
  wf_settings : keyed Settings.id (settings s);
  wf_budgets : keyed Budget.id (budgets s);
  wf_actionLogs : keyed ActionLog.id (actionLogs s)
}.

Global Instance keyed_dec {T : Type} (key : T -> string) (m : gmap string T) :
  Decision (keyed key m).
Proof. exact (decide (map_Forall (fun k r => key r = k) m)). Defined.

(** The sum of a list of numbers, and [reduce] as that sum. *)
Definition sumZ (l : list Z) : Z := foldr Z.add 0 l.








(** The example of a filter whose upper bound is 0. *)
Definition lunch : Transaction :=
  Transaction.mk "t1" 1000 "2024-03-15" "c-food" (Some "Lunch") Expense None
    "2024-03-15T03:00:00.000Z" "2024-03-15T03:00:00.000Z" None.


(** Removing the rows of a list of keys, one after the other. *)
Definition removeKeys {T : Type} (keys : list string) (m : gmap string T) : gmap string T :=
  fold_left (fun m k => delete k m) keys m.

(** What [keepLast500] leaves of a log table. *)
Definition lastLogs (logs : gmap string ActionLog) : gmap string ActionLog :=
  if 500 <? Z.of_nat (size logs) then
    removeKeys
      (ActionLog.id <$> take (Z.to_nat (Z.of_nat (size logs) - 500))
                             (Dexie.orderedBy Js.le ActionLog.timestamp logs))
      logs
  else logs.

(** The entry [logAction] builds in the world [w]. *)
Definition nextLog (w : World) (action : Action) (entityType : EntityType)
    (entityId : string) (data : LogData) : ActionLog :=
  ActionLog.mk (uuids w 0%nat) action entityType entityId data
               (Js.toISOString (clock w 0%nat)).

(** A hook function that resolves and leaves every table but [actionLogs]
    as it was. *)
Definition quiet (h : Async unit) : Prop :=
  forall w, exists logs u c,
    h w = (Resolved tt, mkWorld (setActionLogs logs (db w)) u c).

(** A table of the database other than [actionLogs], with quiet hooks. *)
Class DataTable {T P : Type} (tb : Dexie.Table T P) : Prop := {
  rows_setRows : forall m s, Dexie.rows tb (Dexie.setRows tb m s) = m;
  setRows_rows : forall s, Dexie.setRows tb (Dexie.rows tb s) s = s;
  setRows_twice :
    forall m1 m2 s, Dexie.setRows tb m2 (Dexie.setRows tb m1 s) = Dexie.setRows tb m2 s;
  rows_setActionLogs :
    forall logs s, Dexie.rows tb (setActionLogs logs s) = Dexie.rows tb s;
  setRows_setActionLogs :
    forall m logs s,
      Dexie.setRows tb m (setActionLogs logs s) = setActionLogs logs (Dexie.setRows tb m s);
  creating_quiet : forall obj, quiet (Dexie.creating tb obj);
  updating_quiet : forall changes obj, quiet (Dexie.updating tb changes obj);
  deleting_quiet : forall obj, quiet (Dexie.deleting tb obj)
}.

(** [bulkAdd] on the rows: an object whose key is taken is skipped. *)
Definition addAll {T : Type} (key : T -> string) (objs : list T) (m : gmap string T)
    : gmap string T :=
  fold_left (fun m obj => match m !! key obj with
                          | Some _ => m
                          | None => <[key obj := obj]> m
                          end) objs m.

(** The world after a method: the rows [m] in the table, some log table,
    the other tables as in [w]. *)
Definition wrote {T P : Type} (tb : Dexie.Table T P) (m : gmap string T)
    (w w' : World) : Prop :=
  exists logs, db w' = setActionLogs logs (Dexie.setRows tb m (db w)).








(** The last step of [importData], on the settings that were exported from
    the table it writes to: the table stays as it is. It resolves when the
    table holds no row but the one of key [main]. *)
Definition importSettings (exported : list Settings) : Async unit :=
  match exported with
  | settings :: _ =>
      await existing := Dexie.get settingsTable "main" in
      match existing with
      | Some _ =>
          await _ := Dexie.update settingsTable "main" settings in ret tt
      | None =>
          await _ := Dexie.add settingsTable settings in ret tt
      end
  | [] => ret tt
  end.



(** [m] leaves a well-formed database well-formed. *)
Definition keepsWf {A : Type} (m : Async A) : Prop :=
  forall w, wfStore (db w) -> wfStore (db (exec m w)).

(** A table whose rows are one of the five keyed maps of the database. *)
Class KeyedTable {T P : Type} (tb : Dexie.Table T P) : Prop := {
  rows_keyed : forall s, wfStore s -> keyed (Dexie.primaryKey tb) (Dexie.rows tb s);
  setRows_wf : forall m s,
    wfStore s -> keyed (Dexie.primaryKey tb) m -> wfStore (Dexie.setRows tb m s);
  creating_keepsWf : forall obj, keepsWf (Dexie.creating tb obj);
  updating_keepsWf : forall changes obj, keepsWf (Dexie.updating tb changes obj);
  deleting_keepsWf : forall obj, keepsWf (Dexie.deleting tb obj)
}.

(** A sample database: 2024-03-31T12:00:00.000Z is [sampleNow]. *)
Definition sampleNow : Z := 1711886400000.

Definition salary : Transaction :=
  Transaction.mk "t2" 5000 "2024-03-01" "c-pay" None Income None
    "2024-03-01T09:00:00.000Z" "2024-03-01T09:00:00.000Z" None.

Definition oldTrash : Transaction :=
  Transaction.mk "t3" 300 "2024-02-10" "c-food" None Expense None
    "2024-02-10T09:00:00.000Z" "2024-02-29T12:00:00.000Z"
    (Some (Js.toISOString (sampleNow - 31 * Js.msPerDay))).

Definition newTrash : Transaction :=
  Transaction.mk "t4" 200 "2024-02-20" "c-food" None Expense None
    "2024-02-20T09:00:00.000Z" "2024-03-02T12:00:00.000Z"
    (Some (Js.toISOString (sampleNow - 29 * Js.msPerDay))).

Definition food : Category :=
  Category.mk "c-food" "food" "plate" "#ef4444" CategoryExpense None 1
    "2024-01-01T00:00:00.000Z" "2024-01-01T00:00:00.000Z".

Definition mainSettings : Settings :=
  Settings.mk "main" JPY 1 ThemeSystem false None None Ja
    "2024-01-01T00:00:00.000Z" "2024-01-01T00:00:00.000Z".

Definition sampleStore : Store :=
  mkStore
    (<["t1" := lunch]> (<["t2" := salary]> (<["t3" := oldTrash]> {["t4" := newTrash]})))
    {["c-food" := food]}
    {["main" := mainSettings]}
    ∅ ∅.

Definition sampleWorld : World :=
  mkWorld sampleStore
    (fun n => "uuid-" +:+ Js.pad 3 (Z.of_nat n))
    (fun n => sampleNow + Z.of_nat n).

(** A log table of 500 entries, the entry [n] logged [n] seconds before
    [sampleNow]. *)
Definition sampleLog (n : nat) : ActionLog :=
  ActionLog.mk ("log-" +:+ Js.pad 3 (Z.of_nat n)) Create EntityTransaction "t1"
    (DataTransaction lunch) (Js.toISOString (sampleNow - 1000 * Z.of_nat n)).

Definition fullLogs : gmap string ActionLog :=
  foldr (fun n m => <[ActionLog.id (sampleLog n) := sampleLog n]> m) ∅ (seq 0 500).

Definition fullWorld : World :=
  mkWorld (setActionLogs fullLogs sampleStore) (uuids sampleWorld) (clock sampleWorld).

Definition sampleFile : ExportFile :=
  match outcome exportData sampleWorld with
  | Resolved file => file
  | Rejected _ => mkExportFile 0 "" (mkExportData None None None None)
  end.

Definition newFood : CategoryForm.FormData :=
  CategoryForm.mkFormData "  Food " "plate" "#3b82f6" CategoryExpense "".

(** ** The vocabulary of the further statements *)

(** The world after a call that has drawn [nu] ids and [nc] times and has
    left the database [s]. *)
Definition advance (nu nc : nat) (s : Store) (w : World) : World :=
  mkWorld s (fun k => uuids w (nu + k)%nat) (fun k => clock w (nc + k)%nat).

(** A hook that resolves, writes to the log table only, and draws one id
    and one time. *)
Definition logsOne (h : Async unit) : Prop :=
  forall w, exists logs,
    h w = (Resolved tt, advance 1 1 (setActionLogs logs (db w)) w).

(** The settings [initializeDefaultData] builds in the world [w]. *)
Definition defaultSettingsAt (w : World) : Settings :=
  Settings.mk "main" JPY 1 ThemeSystem false None None Ja
    (Js.toISOString (clock w 0%nat)) (Js.toISOString (clock w 1%nat)).

(** [t] is a row of the transaction table. *)
Definition storedTransaction (s : Store) (t : Transaction) : Prop :=
  exists k, transactions s !! k = Some t.

(** The category [createSampleData] stores for the sample of index [i]:
    its id is the id of index [2 * i] and its times are those of index
    [3 * i] and [3 * i + 1] (the [creating] hook draws the ones between). *)
Definition sampleRow (w : World) (i : nat) (category : CategoryData) : Category :=
  newCategoryOf category (uuids w (2 * i)%nat)
    (Js.toISOString (clock w (3 * i)%nat))
    (Js.toISOString (clock w (3 * i + 1)%nat)).


(** The data tables other than the transactions are the same in two
    databases. *)
Definition sameOtherTables (s s' : Store) : Prop :=
  categories s' = categories s /\ settings s' = settings s /\ budgets s' = budgets s.





(** [a] goes before [b] in a stable sort by [le] of rows that were in the
    order [before]: by [le], and by the earlier order when [le] ties them. *)
Definition stablyBefore {A : Type} (le : A -> A -> bool) (before : A -> A -> Prop)
    (a b : A) : Prop :=
  le a b = true /\ (le b a = true -> before a b).


(** A category is offered for transactions of the type [ty]. *)
Definition offeredFor (type : option TransactionType) (c : Category) : Prop :=
  match type with
  | None => True
  | Some Expense => Category.type c = CategoryExpense \/ Category.type c = CategoryBoth
  | Some Income => Category.type c = CategoryIncome \/ Category.type c = CategoryBoth
  end.


(** The category [c] with another [order] and [updatedAt]. *)
Definition renumbered (c : Category) (order : Z) (updatedAt : string) : Category :=
  Category.mk (Category.id c) (Category.name c) (Category.icon c) (Category.color c)
    (Category.type c) (Category.budget c) order (Category.createdAt c) updatedAt.

(** [m] keeps the property [Inv] of the database. *)
Definition keeps (Inv : Store -> Prop) {A : Type} (m : Async A) : Prop :=
  forall w, Inv (db w) -> Inv (db (exec m w)).

(** A table whose rows are keyed where [Inv] holds, whose writes of keyed
    rows keep [Inv], and whose hooks keep [Inv]. *)
Class InvTable (Inv : Store -> Prop) {T P : Type} (tb : Dexie.Table T P) : Prop := {
  inv_rows_keyed : forall s, Inv s -> keyed (Dexie.primaryKey tb) (Dexie.rows tb s);
  inv_setRows : forall m s,
    Inv s -> keyed (Dexie.primaryKey tb) m -> Inv (Dexie.setRows tb m s);
  inv_creating : forall obj, keeps Inv (Dexie.creating tb obj);
  inv_updating : forall changes obj, keeps Inv (Dexie.updating tb changes obj);
  inv_deleting : forall obj, keeps Inv (Dexie.deleting tb obj)
}.

(** The rows are stored under their ids and the log holds at most 500
    entries. *)
Definition capped (s : Store) : Prop :=
  wfStore s /\ (size (actionLogs s) <= 500)%nat.

(** The writes of [Database], of [useDatabase] and of the category
    components, as the application calls them. *)
Inductive Operation :=
| CallInitializeDefaultData
| CallCreateSampleData
| CallSoftDeleteTransaction (id : string)
| CallRestoreTransaction (id : string)
| CallPermanentlyDeleteOldTrash
| CallExportData
| CallImportData (file : ExportFile) (mode : ImportMode)
| CallCreateTransaction (transaction : TransactionData)
| CallUpdateTransaction (id : string) (updates : Transaction.patch)
| CallDeleteTransaction (id : string)
| CallCreateCategory (category : CategoryData)
| CallUpdateCategory (id : string) (updates : Category.patch)
| CallDeleteCategory (id : string) (mergeToId : option string)
| CallSubmitCategoryForm (categories : option (list Category)) (category : option Category)
    (formData : CategoryForm.FormData)
| CallDropCategory (categories : option (list Category)) (draggedCategory : option Category)
    (targetIndex : Z)
| CallConfirmDeleteCategory (selectedCategory : option Category) (mergeToId : string).

Definition perform (op : Operation) : Async unit :=
  match op with
  | CallInitializeDefaultData => initializeDefaultData
  | CallCreateSampleData => createSampleData
  | CallSoftDeleteTransaction id => softDeleteTransaction id
  | CallRestoreTransaction id => restoreTransaction id
  | CallPermanentlyDeleteOldTrash => permanentlyDeleteOldTrash
  | CallExportData => await _ := exportData in ret tt
  | CallImportData file mode => importData file mode
  | CallCreateTransaction transaction => await _ := createTransaction transaction in ret tt
  | CallUpdateTransaction id updates => updateTransaction id updates
  | CallDeleteTransaction id => deleteTransaction id
  | CallCreateCategory category => await _ := createCategory category in ret tt
  | CallUpdateCategory id updates => updateCategoryPartial id updates
  | CallDeleteCategory id mergeToId => deleteCategory id mergeToId
  | CallSubmitCategoryForm categories category formData =>
      await _ := CategoryForm.handleSubmit categories category formData in ret tt
  | CallDropCategory categories draggedCategory targetIndex =>
      CategoryList.handleDrop categories draggedCategory targetIndex
  | CallConfirmDeleteCategory selectedCategory mergeToId =>
      CategoryList.confirmDelete selectedCategory mergeToId
  end.

(** The world after a sequence of operations, each started when the one
    before has ended, resolved or rejected. *)
Definition performAll (ops : list Operation) (w : World) : World :=
  fold_left (fun w op => exec (perform op) w) ops w.

(** The category [handleSubmit] creates from a valid form in the world
    [w], when the listing holds [n] categories. *)
Definition submittedCategory (w : World) (n : nat) (formData : CategoryForm.FormData)
    : Category :=
  {| Category.id := uuids w 0%nat;
     Category.name := Js.trim (CategoryForm.name formData);
     Category.icon := CategoryForm.icon formData;
     Category.color := CategoryForm.color formData;
     Category.type := CategoryForm.type formData;
     Category.budget :=
       if bool_decide (CategoryForm.budget formData = EmptyString) then None
       else CategoryForm.parseInt (CategoryForm.budget formData);
     Category.order := Z.of_nat n + 1;
     Category.createdAt := Js.toISOString (clock w 0%nat);
     Category.updatedAt := Js.toISOString (clock w 1%nat) |}.

(** A sample database with three categories, a form and two files. *)
Definition rent : Category :=
  Category.mk "c-rent" "rent" "house" "#8b5cf6" CategoryExpense (Some 80000) 2
    "2024-01-02T00:00:00.000Z" "2024-01-02T00:00:00.000Z".

Definition pay : Category :=
  Category.mk "c-pay" "salary" "coin" "#059669" CategoryIncome None 3
    "2024-01-03T00:00:00.000Z" "2024-01-03T00:00:00.000Z".

Definition shopStore : Store :=
  mkStore (transactions sampleStore)
    (<["c-food" := food]> (<["c-rent" := rent]> {["c-pay" := pay]}))
    (settings sampleStore) ∅ ∅.

Definition shopWorld : World :=
  mkWorld shopStore (uuids sampleWorld) (clock sampleWorld).

Definition newBooks : CategoryForm.FormData :=
  CategoryForm.mkFormData " Books " "book" "#3b82f6" CategoryExpense "3000".

Definition duplicateFile : ExportFile :=
  mkExportFile 1 "2024-03-31T12:00:00.000Z"
    (mkExportData (Some [salary]) (Some [food; food]) None None).

Definition sampleOperations : list Operation :=
  [ CallInitializeDefaultData; CallCreateSampleData; CallDeleteTransaction "t1";
    CallRestoreTransaction "t1"; CallPermanentlyDeleteOldTrash;
    CallDeleteCategory "c-food" (Some "c-rent"); CallImportData duplicateFile Merge ].

(** * Properties *)

(** *** The order of strings, and the runtime functions *)

Module JsFacts.
Import Js.

Lemma ascii_compare_refl (a : ascii) : Ascii.compare a a = Eq.
Proof. unfold Ascii.compare. apply N.compare_refl. Qed.

Lemma compare_refl (s : string) : String.compare s s = Eq.
Proof.
  induction s as [|a s IH]; simpl; [reflexivity|].
  now rewrite ascii_compare_refl.
Qed.

Lemma ascii_compare_trans (c : comparison) (x y z : ascii) :
  Ascii.compare x y = c -> Ascii.compare y z = c -> Ascii.compare x z = c.
Proof.
  unfold Ascii.compare. destruct c; intros H1 H2.
  - apply N.compare_eq_iff in H1, H2. apply N.compare_eq_iff. congruence.
  - rewrite N.compare_lt_iff in *. lia.
  - rewrite N.compare_gt_iff in *. lia.
Qed.

Lemma compare_lt_trans (a b c : string) :
  String.compare a b = Lt -> String.compare b c = Lt ->
  String.compare a c = Lt.
Proof.
  revert b c. induction a as [|x a IH]; intros [|y b] [|z c]; simpl;
    try congruence.
  destruct (Ascii.compare x y) eqn:Hxy; try discriminate;
    destruct (Ascii.compare y z) eqn:Hyz; try discriminate; intros H1 H2.
  - rewrite (ascii_compare_trans Eq x y z Hxy Hyz). eauto.
  - apply Ascii.compare_eq_iff in Hxy. subst y. now rewrite Hyz.
  - apply Ascii.compare_eq_iff in Hyz. subst z. now rewrite Hxy.
  - now rewrite (ascii_compare_trans Lt x y z Hxy Hyz).
Qed.

Lemma le_refl (a : string) : le a a = true.
Proof. unfold le, String.leb. now rewrite compare_refl. Qed.

Lemma le_total (a b : string) : le a b = true \/ le b a = true.
Proof. apply String.leb_total. Qed.



Lemma lt_not_le (a b : string) : lt a b = negb (le b a).
Proof.
  unfold lt, le, String.ltb, String.leb. rewrite (String.compare_antisym b a).
  destruct (String.compare a b); reflexivity.
Qed.

Lemma le_trans (a b c : string) :
  le a b = true -> le b c = true -> le a c = true.
Proof.
  unfold le, String.leb. intros H1 H2.
  destruct (String.compare a b) eqn:Hab; try discriminate;
    destruct (String.compare b c) eqn:Hbc; try discriminate.
  - apply String.compare_eq_iff in Hab. subst b. now rewrite Hbc.
  - apply String.compare_eq_iff in Hab. subst b. now rewrite Hbc.
  - apply String.compare_eq_iff in Hbc. subst c. now rewrite Hab.
  - now rewrite (compare_lt_trans a b c Hab Hbc).
Qed.


Lemma lt_irrefl (a : string) : lt a a = false.
Proof. rewrite lt_not_le, le_refl. reflexivity. Qed.


Lemma append_nil (p : string) : String.append EmptyString p = p.
Proof. reflexivity. Qed.



Section SortFacts.
Context {A : Type} (le : A -> A -> bool).

Lemma insertSorted_perm (x : A) (l : list A) : insertSorted le x l ≡ₚ x :: l.
Proof.
  induction l as [|y r IH]; simpl; [reflexivity|].
  destruct (le x y); [reflexivity|].
  rewrite IH. apply Permutation_swap.
Qed.

Lemma sortBy_perm (l : list A) : sortBy le l ≡ₚ l.
Proof.
  induction l as [|x r IH]; simpl; [reflexivity|].
  now rewrite insertSorted_perm, IH.
Qed.

Lemma sortBy_elem_of (x : A) (l : list A) : x ∈ sortBy le l <-> x ∈ l.
Proof. now rewrite sortBy_perm. Qed.


Hypothesis le_total : forall a b, le a b = true \/ le b a = true.
Hypothesis le_trans :
  forall a b c, le a b = true -> le b c = true -> le a c = true.

Lemma insertSorted_sorted (x : A) (l : list A) :
  StronglySorted (fun a b => le a b = true) l ->
  StronglySorted (fun a b => le a b = true) (insertSorted le x l).
Proof.
  induction 1 as [|y r Hr IH Hy]; simpl.
  - repeat constructor.
  - destruct (le x y) eqn:Hxy.
    + constructor; [now constructor|].
      constructor; [exact Hxy|].
      eapply Forall_impl; [exact Hy|]. intros z Hz. simpl in Hz. eauto.
    + constructor; [exact IH|].
      rewrite insertSorted_perm. constructor; [|exact Hy].
      destruct (le_total x y) as [H|H]; [congruence | exact H].
Qed.

Lemma sortBy_sorted (l : list A) :
  StronglySorted (fun a b => le a b = true) (sortBy le l).
Proof.
  induction l as [|x r IH]; simpl; [constructor|].
  now apply insertSorted_sorted.
Qed.

End SortFacts.

End JsFacts.

Example toISOString_epoch :
  Js.toISOString 0 = "1970-01-01T00:00:00.000Z"%string.
Proof. reflexivity. Qed.

Example toISOString_leap_day :
  Js.toISOString 1709208000123 = "2024-02-29T12:00:00.123Z"%string.
Proof. reflexivity. Qed.

Example toISOString_before_epoch :
  Js.toISOString (-1) = "1969-12-31T23:59:59.999Z"%string.
Proof. reflexivity. Qed.

(** ** Properties of the table model *)

Lemma keyed_empty {T : Type} (key : T -> string) : keyed key ∅.
Proof. intros k r H. rewrite lookup_empty in H. discriminate. Qed.

Lemma keyed_insert {T : Type} (key : T -> string) (m : gmap string T) (r : T) :
  keyed key m -> keyed key (<[key r := r]> m).
Proof.
  intros Hm k r' H. destruct (decide (key r = k)) as [<-|Hne].
  - rewrite lookup_insert_eq in H. congruence.
  - rewrite lookup_insert_ne in H by done. eauto.
Qed.

Lemma keyed_delete {T : Type} (key : T -> string) (m : gmap string T) (k : string) :
  keyed key m -> keyed key (delete k m).
Proof.
  intros Hm k' r H. apply lookup_delete_Some in H as [_ H]. eauto.
Qed.

Section SortedRows.
Context {T : Type}.
Implicit Types (m : gmap string T) (r : T).

Lemma sorted_perm m : Dexie.sorted m ≡ₚ (map_to_list m).*2.
Proof. unfold Dexie.sorted. now rewrite JsFacts.sortBy_perm. Qed.

Lemma elem_of_sorted m r : r ∈ Dexie.sorted m <-> exists k, m !! k = Some r.
Proof.
  rewrite sorted_perm, list_elem_of_fmap. split.
  - intros [[k r'] [-> H]]. exists k. now apply elem_of_map_to_list.
  - intros [k H]. exists (k, r). split; [reflexivity|]. now apply elem_of_map_to_list.
Qed.

Lemma sorted_length m : length (Dexie.sorted m) = size m.
Proof. now rewrite sorted_perm, length_fmap, length_map_to_list. Qed.

Lemma sorted_empty : Dexie.sorted (∅ : gmap string T) = [].
Proof. unfold Dexie.sorted. now rewrite map_to_list_empty. Qed.

Lemma sorted_keys (key : T -> string) m :
  keyed key m -> key <$> Dexie.sorted m ≡ₚ (map_to_list m).*1.
Proof.
  intros Hm. rewrite sorted_perm, <- list_fmap_compose.
  erewrite list_fmap_ext; [reflexivity|].
  intros i [k r] H. simpl. apply Hm. apply elem_of_map_to_list.
  eapply list_elem_of_lookup_2; eauto.
Qed.

Lemma sorted_keys_NoDup (key : T -> string) m :
  keyed key m -> NoDup (key <$> Dexie.sorted m).
Proof. intros Hm. rewrite sorted_keys by done. apply NoDup_fst_map_to_list. Qed.

Lemma sorted_NoDup m : NoDup (Js.sortBy (fun a b => Js.le (fst a) (fst b)) (map_to_list m)).
Proof. rewrite JsFacts.sortBy_perm. apply NoDup_map_to_list. Qed.

Context {I : Type} (leI : I -> I -> bool) (index : T -> I).

Lemma orderedBy_perm m : Dexie.orderedBy leI index m ≡ₚ Dexie.sorted m.
Proof. unfold Dexie.orderedBy. apply JsFacts.sortBy_perm. Qed.

Lemma elem_of_orderedBy m r :
  r ∈ Dexie.orderedBy leI index m <-> exists k, m !! k = Some r.
Proof. now rewrite orderedBy_perm, elem_of_sorted. Qed.

Lemma orderedBy_length m : length (Dexie.orderedBy leI index m) = size m.
Proof. now rewrite orderedBy_perm, sorted_length. Qed.

Lemma orderedBy_keys_NoDup (key : T -> string) m :
  keyed key m -> NoDup (key <$> Dexie.orderedBy leI index m).
Proof. intros Hm. rewrite orderedBy_perm. now apply sorted_keys_NoDup. Qed.

Lemma orderedBy_sorted m :
  (forall a b, leI a b = true \/ leI b a = true) ->
  (forall a b c, leI a b = true -> leI b c = true -> leI a c = true) ->
  StronglySorted (fun a b => leI (index a) (index b) = true)
                 (Dexie.orderedBy leI index m).
Proof.
  intros Htot Htrans. unfold Dexie.orderedBy.
  apply (JsFacts.sortBy_sorted (fun a b => leI (index a) (index b))); eauto.
Qed.

End SortedRows.

(** ** Properties of the queries *)

Lemma elem_of_List_filter {A : Type} (f : A -> bool) (l : list A) (x : A) :
  x ∈ List.filter f l <-> x ∈ l /\ f x = true.
Proof. rewrite !list_elem_of_In. apply filter_In. Qed.




Lemma sumZ_perm (l1 l2 : list Z) : l1 ≡ₚ l2 -> sumZ l1 = sumZ l2.
Proof.
  unfold sumZ. induction 1; simpl; lia.
Qed.

Global Instance sumZ_proper : Proper (Permutation ==> eq) sumZ.
Proof. exact sumZ_perm. Qed.





(** *** [useTransactions]: which rows are listed *)










(** ** Properties of the asynchronous operations *)

Lemma world_eta (w : World) : mkWorld (db w) (uuids w) (clock w) = w.
Proof. now destruct w. Qed.

Lemma setActionLogs_id (s : Store) : setActionLogs (actionLogs s) s = s.
Proof. now destruct s. Qed.

Ltac unfold_async :=
  unfold exec, outcome, detached, bind, ret, throw, getStore, putStore,
    Dexie.get, Dexie.count, Dexie.toArray, Dexie.readRows, Dexie.writeRows,
    Dexie.noHook in *.

Lemma lookup_removeKeys {T : Type} (keys : list string) (m : gmap string T) (k : string) :
  removeKeys keys m !! k = if decide (k ∈ keys) then None else m !! k.
Proof.
  revert m. induction keys as [|k' keys IH]; intros m; simpl.
  - destruct (decide (k ∈ [])) as [H|_]; [inversion H | reflexivity].
  - rewrite IH. destruct (decide (k ∈ keys)) as [H|H].
    + rewrite decide_True by now right. reflexivity.
    + destruct (decide (k = k')) as [->|Hne].
      * rewrite decide_True by now left. apply lookup_delete_eq.
      * rewrite decide_False by (intros [?|?]%elem_of_cons; tauto).
        now rewrite lookup_delete_ne.
Qed.

Lemma removeKeys_subseteq {T : Type} (keys : list string) (m : gmap string T) :
  removeKeys keys m ⊆ m.
Proof.
  apply map_subseteq_spec. intros k r. rewrite lookup_removeKeys.
  now destruct (decide (k ∈ keys)).
Qed.

Lemma size_removeKeys {T : Type} (keys : list string) (m : gmap string T) :
  NoDup keys -> (forall k, k ∈ keys -> is_Some (m !! k)) ->
  size (removeKeys keys m) = (size m - length keys)%nat.
Proof.
  revert m. induction keys as [|k keys IH]; intros m Hnd Hin; simpl.
  - lia.
  - apply NoDup_cons in Hnd as [Hk Hnd].
    destruct (Hin k) as [r Hr]; [now left|].
    rewrite IH; [|exact Hnd|].
    + rewrite map_size_delete_Some by eauto. simpl. lia.
    + intros k' Hk'. rewrite lookup_delete_ne by (intros ->; contradiction).
      apply Hin. now right.
Qed.

Lemma keyed_removeKeys {T : Type} (key : T -> string) (keys : list string)
    (m : gmap string T) :
  keyed key m -> keyed key (removeKeys keys m).
Proof.
  intros Hm k r H. rewrite lookup_removeKeys in H.
  destruct (decide (k ∈ keys)); [discriminate | eauto].
Qed.

(** [actionLogs.bulkDelete(keys)] removes the rows of these keys. *)
Lemma bulkDelete_actionLogs (keys : list string) (w : World) :
  keyed ActionLog.id (actionLogs (db w)) ->
  Dexie.bulkDelete actionLogsTable keys w =
  (Resolved tt,
   mkWorld (setActionLogs (removeKeys keys (actionLogs (db w))) (db w))
           (uuids w) (clock w)).
Proof.
  revert w. induction keys as [|k keys IH]; intros w Hw.
  - simpl. unfold ret. now rewrite setActionLogs_id, world_eta.
  - unfold Dexie.bulkDelete in *. simpl. unfold_async. simpl.
    destruct (actionLogs (db w) !! k) as [obj|] eqn:Hk.
    + unfold Dexie.deleteRow. unfold_async. simpl.
      rewrite IH; simpl.
      * rewrite (Hw k obj Hk). reflexivity.
      * now apply keyed_delete.
    + rewrite IH by exact Hw. now rewrite (delete_id _ _ Hk).
Qed.

Lemma keepLast500_run (w : World) :
  keyed ActionLog.id (actionLogs (db w)) ->
  keepLast500 w =
  (Resolved tt,
   mkWorld (setActionLogs (lastLogs (actionLogs (db w))) (db w)) (uuids w) (clock w)).
Proof.
  intros Hw. unfold keepLast500, lastLogs. unfold_async. simpl.
  destruct (500 <? Z.of_nat (size (actionLogs (db w)))).
  - now rewrite bulkDelete_actionLogs.
  - now rewrite setActionLogs_id, world_eta.
Qed.

Lemma logAction_run (w : World) (action : Action) (entityType : EntityType)
    (entityId : string) (data : LogData) :
  keyed ActionLog.id (actionLogs (db w)) ->
  actionLogs (db w) !! uuids w 0%nat = None ->
  logAction action entityType entityId data w =
  (Resolved tt,
   mkWorld
     (setActionLogs
        (lastLogs (<[uuids w 0%nat := nextLog w action entityType entityId data]>
                     (actionLogs (db w))))
        (db w))
     (fun n => uuids w (S n)) (fun n => clock w (S n))).
Proof.
  intros Hw Hfresh. unfold logAction, randomUUID, newDate, Dexie.add.
  unfold_async. simpl. rewrite Hfresh. simpl.
  rewrite keepLast500_run; simpl; [reflexivity|].
  apply (keyed_insert ActionLog.id _ (nextLog w action entityType entityId data)), Hw.
Qed.

Lemma logAction_taken (w : World) (action : Action) (entityType : EntityType)
    (entityId : string) (data : LogData) :
  is_Some (actionLogs (db w) !! uuids w 0%nat) ->
  logAction action entityType entityId data w =
  (Rejected ConstraintError,
   mkWorld (db w) (fun n => uuids w (S n)) (fun n => clock w (S n))).
Proof.
  intros [old Hold]. unfold logAction, randomUUID, newDate, Dexie.add.
  unfold_async. simpl. now rewrite Hold.
Qed.

Lemma lastLogs_subseteq (logs : gmap string ActionLog) : lastLogs logs ⊆ logs.
Proof.
  unfold lastLogs. destruct (500 <? Z.of_nat (size logs)); [|reflexivity].
  apply removeKeys_subseteq.
Qed.

Lemma keyed_lastLogs (logs : gmap string ActionLog) :
  keyed ActionLog.id logs -> keyed ActionLog.id (lastLogs logs).
Proof.
  intros H. unfold lastLogs. destruct (500 <? Z.of_nat (size logs)); [|exact H].
  now apply keyed_removeKeys.
Qed.

Section LastLogs.
Variable logs : gmap string ActionLog.
Hypothesis logs_keyed : keyed ActionLog.id logs.

Let byAge : list ActionLog := Dexie.orderedBy Js.le ActionLog.timestamp logs.
Let excess : nat := Z.to_nat (Z.of_nat (size logs) - 500).

Lemma oldest_ids_NoDup : NoDup (ActionLog.id <$> take excess byAge).
Proof.
  rewrite fmap_take. eapply sublist_NoDup; [|apply sublist_take].
  now apply orderedBy_keys_NoDup.
Qed.

Lemma oldest_ids_stored (k : string) :
  k ∈ ActionLog.id <$> take excess byAge -> is_Some (logs !! k).
Proof.
  intros (r & -> & Hr)%list_elem_of_fmap.
  apply subseteq_take, elem_of_orderedBy in Hr as [k Hk].
  rewrite (logs_keyed k r Hk). eauto.
Qed.

Lemma size_lastLogs : size (lastLogs logs) = Nat.min (size logs) 500.
Proof.
  unfold lastLogs. destruct (Z.ltb_spec 500 (Z.of_nat (size logs))) as [H|H]; [|lia].
  rewrite size_removeKeys.
  - rewrite length_fmap, length_take, orderedBy_length. lia.
  - apply oldest_ids_NoDup.
  - apply oldest_ids_stored.
Qed.

(** A row that [keepLast500] removes is among the first [excess] rows in
    the order of the timestamps, a row that it keeps is among the others. *)
Lemma lastLogs_removed (r : ActionLog) :
  logs !! ActionLog.id r = Some r -> lastLogs logs !! ActionLog.id r = None ->
  r ∈ take excess byAge.
Proof.
  unfold lastLogs. intros Hr Hgone.
  destruct (500 <? Z.of_nat (size logs)); [|congruence].
  rewrite lookup_removeKeys in Hgone. fold byAge excess in Hgone.
  destruct (decide (ActionLog.id r ∈ ActionLog.id <$> take excess byAge)) as [Hin|];
    [|congruence].
  apply list_elem_of_fmap in Hin as (r' & Hid & Hr').
  assert (Hst : r' ∈ byAge) by now apply (subseteq_take excess).
  apply elem_of_orderedBy in Hst as [k Hk].
  pose proof (logs_keyed k r' Hk) as Hkey. rewrite <- Hid in Hkey. subst k.
  now replace r with r' by congruence.
Qed.

Lemma lastLogs_kept (k : string) (r : ActionLog) :
  (500 < Z.of_nat (size logs)) -> lastLogs logs !! k = Some r -> r ∈ drop excess byAge.
Proof.
  unfold lastLogs. intros Hbig Hr.
  destruct (Z.ltb_spec 500 (Z.of_nat (size logs))) as [_|?]; [|lia].
  rewrite lookup_removeKeys in Hr. fold byAge excess in Hr.
  destruct (decide (k ∈ ActionLog.id <$> take excess byAge)) as [|Hout];
    [discriminate|].
  assert (Hin : r ∈ take excess byAge ++ drop excess byAge).
  { rewrite take_drop. apply elem_of_orderedBy. eauto. }
  apply elem_of_app in Hin as [Hin|Hin]; [|exact Hin].
  exfalso. apply Hout. rewrite <- (logs_keyed k r Hr).
  apply list_elem_of_fmap. eauto.
Qed.

Lemma byAge_sorted :
  StronglySorted
    (fun a b => Js.le (ActionLog.timestamp a) (ActionLog.timestamp b) = true) byAge.
Proof. apply orderedBy_sorted; [apply JsFacts.le_total | apply JsFacts.le_trans]. Qed.

(** The rows removed are the oldest: none is younger than a row kept. *)
Lemma lastLogs_oldest (r : ActionLog) (k : string) (e : ActionLog) :
  logs !! ActionLog.id r = Some r -> lastLogs logs !! ActionLog.id r = None ->
  lastLogs logs !! k = Some e ->
  Js.le (ActionLog.timestamp r) (ActionLog.timestamp e) = true.
Proof.
  intros Hr Hgone He.
  assert (Hbig : 500 < Z.of_nat (size logs)).
  { unfold lastLogs in Hgone.
    destruct (Z.ltb_spec 500 (Z.of_nat (size logs))); [assumption | congruence]. }
  pose proof byAge_sorted as Hs. rewrite <- (take_drop excess byAge) in Hs.
  eapply (StronglySorted_app_1_elem_of _ _ _ _ _ Hs).
  - now apply lastLogs_removed.
  - now apply (lastLogs_kept k).
Qed.

(** With 501 rows, one row goes: the first in the order of the timestamps. *)
Lemma lastLogs_501 :
  size logs = 501%nat ->
  exists oldest,
    logs !! ActionLog.id oldest = Some oldest /\
    lastLogs logs = delete (ActionLog.id oldest) logs /\
    forall k e, logs !! k = Some e ->
      Js.le (ActionLog.timestamp oldest) (ActionLog.timestamp e) = true.
Proof.
  intros Hsize. pose proof byAge_sorted as Hs.
  assert (Hlen : length byAge = 501%nat) by (unfold byAge; now rewrite orderedBy_length).
  destruct byAge as [|oldest rest] eqn:Hby; [discriminate|].
  assert (Hin : oldest ∈ byAge) by (rewrite Hby; now left).
  apply elem_of_orderedBy in Hin as [k0 Hk0].
  pose proof (logs_keyed k0 oldest Hk0) as Hkey. subst k0.
  exists oldest. split; [exact Hk0|]. split.
  - unfold lastLogs. rewrite Hsize. simpl. fold byAge. now rewrite Hby.
  - intros k e He.
    assert (He' : e ∈ byAge) by (apply elem_of_orderedBy; eauto).
    rewrite Hby in He'. apply elem_of_cons in He' as [->|He'].
    + apply JsFacts.le_refl.
    + apply StronglySorted_inv in Hs as [_ Hall].
      rewrite Forall_forall in Hall. now apply Hall.
Qed.

End LastLogs.

(** C2. When [logAction] has inserted its entry (its fresh id is not a key
    of the log table), it resolves and the table holds at most 500 rows:
    all rows of the table with the new entry when these are at most 500,
    and else exactly 500 of them, the rows removed being the oldest (none
    has a timestamp above that of a row kept). The 501st entry leaves 500
    rows: one row, of the least timestamp, is removed. *)
Theorem logAction_keeps_500 (w : World) (action : Action)
    (entityType : EntityType) (entityId : string) (data : LogData) :
  let logs := actionLogs (db w) in
  let inserted :=
    <[uuids w 0%nat := nextLog w action entityType entityId data]> logs in
  let logs' := actionLogs (db (exec (logAction action entityType entityId data) w)) in
  keyed ActionLog.id logs ->
  logs !! uuids w 0%nat = None ->
  outcome (logAction action entityType entityId data) w = Resolved tt /\
  (size logs' <= 500)%nat /\
  logs' ⊆ inserted /\
  size logs' = Nat.min (size inserted) 500 /\
  ((size inserted <= 500)%nat -> logs' = inserted) /\
  (forall r k e,
      inserted !! ActionLog.id r = Some r -> logs' !! ActionLog.id r = None ->
      logs' !! k = Some e ->
      Js.le (ActionLog.timestamp r) (ActionLog.timestamp e) = true) /\
  (size logs = 500%nat ->
   size logs' = 500%nat /\
   exists oldest,
     inserted !! ActionLog.id oldest = Some oldest /\
     logs' = delete (ActionLog.id oldest) inserted /\
     forall k e, inserted !! k = Some e ->
       Js.le (ActionLog.timestamp oldest) (ActionLog.timestamp e) = true).
Proof.
  intros logs inserted logs' Hkeyed Hfresh. subst logs'.
  unfold exec, outcome. rewrite logAction_run by assumption. simpl.
  fold logs inserted.
  assert (Hins : keyed ActionLog.id inserted).
  { apply (keyed_insert ActionLog.id _ (nextLog w action entityType entityId data)).
    exact Hkeyed. }
  pose proof (size_lastLogs inserted Hins) as Hsize.
  split; [reflexivity|]. split; [lia|]. split; [apply lastLogs_subseteq|].
  split; [exact Hsize|]. split; [|split].
  - intros Hle. unfold lastLogs.
    destruct (Z.ltb_spec 500 (Z.of_nat (size inserted))); [lia | reflexivity].
  - intros r k e. now apply lastLogs_oldest.
  - intros H500.
    assert (H501 : size inserted = 501%nat).
    { unfold inserted. rewrite map_size_insert_None by exact Hfresh. now rewrite H500. }
    split; [lia|]. now apply lastLogs_501.
Qed.

(** *** The hooks write to the log table only *)

Lemma setActionLogs_twice (l1 l2 : gmap string ActionLog) (s : Store) :
  setActionLogs l2 (setActionLogs l1 s) = setActionLogs l2 s.
Proof. reflexivity. Qed.

Lemma bulkDelete_actionLogs_any (keys : list string) (w : World) :
  exists logs,
    Dexie.bulkDelete actionLogsTable keys w =
    (Resolved tt, mkWorld (setActionLogs logs (db w)) (uuids w) (clock w)).
Proof.
  revert w. induction keys as [|k keys IH]; intros w.
  - exists (actionLogs (db w)). simpl. unfold ret.
    now rewrite setActionLogs_id, world_eta.
  - unfold Dexie.bulkDelete in *. simpl. unfold_async. simpl.
    destruct (actionLogs (db w) !! k) as [obj|].
    + unfold Dexie.deleteRow. unfold_async. simpl.
      match goal with |- context [forEach keys ?f ?w'] =>
        destruct (IH w') as [logs Hl] end.
      exists logs. exact Hl.
    + apply IH.
Qed.

Lemma logAction_writes_logs (action : Action) (entityType : EntityType)
    (entityId : string) (data : LogData) (w : World) :
  exists logs u c,
    snd (logAction action entityType entityId data w) =
    mkWorld (setActionLogs logs (db w)) u c.
Proof.
  unfold logAction, randomUUID, newDate, Dexie.add. unfold_async. simpl.
  destruct (actionLogs (db w) !! uuids w 0%nat).
  - exists (actionLogs (db w)). rewrite setActionLogs_id. simpl. eauto.
  - simpl. unfold keepLast500. unfold_async. simpl.
    match goal with |- context [if ?b then _ else _] => destruct b end.
    + match goal with |- context [Dexie.bulkDelete _ ?ks ?w'] =>
        destruct (bulkDelete_actionLogs_any ks w') as [logs Hl] end.
      rewrite Hl. simpl. eauto.
    + simpl. eauto.
Qed.

Lemma quiet_logAction (action : Action) (entityType : EntityType)
    (entityId : string) (data : LogData) :
  quiet (detached (logAction action entityType entityId data)).
Proof.
  intros w. unfold detached.
  destruct (logAction_writes_logs action entityType entityId data w)
    as (logs & u & c & ->). eauto.
Qed.

Lemma quiet_noHook {A : Type} (x : A) : quiet (Dexie.noHook x).
Proof.
  intros w. exists (actionLogs (db w)), (uuids w), (clock w).
  unfold Dexie.noHook, ret. now rewrite setActionLogs_id, world_eta.
Qed.

Global Instance transactionsTable_data : DataTable transactionsTable.
Proof.
  split; try reflexivity; try (now intros []);
    simpl; intros; apply quiet_logAction.
Qed.

Global Instance categoriesTable_data : DataTable categoriesTable.
Proof.
  split; try reflexivity; try (now intros []);
    simpl; intros; apply quiet_logAction.
Qed.

Global Instance settingsTable_data : DataTable settingsTable.
Proof.
  split; try reflexivity; try (now intros []);
    simpl; intros; apply quiet_noHook.
Qed.

Global Instance budgetsTable_data : DataTable budgetsTable.
Proof.
  split; try reflexivity; try (now intros []);
    simpl; intros; apply quiet_noHook.
Qed.

(** *** What the table methods write *)

Lemma lookup_addAll {T : Type} (key : T -> string) (objs : list T)
    (m : gmap string T) (k : string) (r : T) :
  NoDup (key <$> objs) -> (forall o, o ∈ objs -> m !! key o = None) ->
  addAll key objs m !! k = Some r <-> m !! k = Some r \/ (r ∈ objs /\ key r = k).
Proof.
  revert m. induction objs as [|o objs IH]; intros m Hnd Hfree; simpl.
  - split; [tauto | intros [H|[H _]]; [exact H | inversion H]].
  - rewrite fmap_cons in Hnd. apply NoDup_cons in Hnd as [Ho Hnd].
    rewrite (Hfree o) by now left. rewrite IH; [|exact Hnd|].
    + rewrite lookup_insert_Some, elem_of_cons. split.
      * intros [[[<- <-]|[Hne H]]|[Hr Hk]]; eauto.
      * intros [H|[[->|Hr] Hk]]; eauto.
        destruct (decide (key o = k)) as [<-|Hne]; [|eauto].
        rewrite (Hfree o) in H by now left. discriminate.
    + intros o' Ho'. rewrite lookup_insert_ne; [apply Hfree; now right|].
      intros Heq. apply Ho. rewrite Heq. apply list_elem_of_fmap. eauto.
Qed.

Lemma addAll_sorted {T : Type} (key : T -> string) (m : gmap string T) :
  keyed key m -> addAll key (Dexie.sorted m) ∅ = m.
Proof.
  intros Hm. apply map_eq. intros k. apply option_eq. intros r.
  rewrite lookup_addAll.
  - rewrite lookup_empty, elem_of_sorted. split.
    + intros [H|[[k' H] Hk]]; [discriminate|]. now rewrite <- Hk, (Hm k' r H).
    + intros H. right. split; [eauto | now apply Hm].
  - now apply sorted_keys_NoDup.
  - intros o _. apply lookup_empty.
Qed.

Lemma removeKeys_sorted {T : Type} (key : T -> string) (m : gmap string T) :
  keyed key m -> removeKeys (key <$> Dexie.sorted m) m = ∅.
Proof.
  intros Hm. apply map_eq. intros k. rewrite lookup_removeKeys, lookup_empty.
  destruct (decide (k ∈ key <$> Dexie.sorted m)) as [|Hout]; [reflexivity|].
  destruct (m !! k) as [r|] eqn:Hr; [|reflexivity].
  exfalso. apply Hout. apply list_elem_of_fmap. exists r.
  split; [symmetry; now apply Hm | apply elem_of_sorted; eauto].
Qed.

Section Effects.
Context {T P : Type} (tb : Dexie.Table T P) `{!DataTable tb}.

Local Abbreviation key := (Dexie.primaryKey tb).
Local Abbreviation rowsOf w := (Dexie.rows tb (db w)).

Lemma wrote_rows m w w' : wrote tb m w w' -> rowsOf w' = m.
Proof. intros [logs ->]. now rewrite rows_setActionLogs, rows_setRows. Qed.

Lemma wrote_trans m1 m2 w w1 w2 : wrote tb m1 w w1 -> wrote tb m2 w1 w2 -> wrote tb m2 w w2.
Proof.
  intros [l1 H1] [l2 H2]. exists l2.
  now rewrite H2, H1, setRows_setActionLogs, setRows_twice, setActionLogs_twice.
Qed.

Lemma wrote_refl w : wrote tb (rowsOf w) w w.
Proof. exists (actionLogs (db w)). now rewrite setRows_rows, setActionLogs_id. Qed.

Lemma wrote_hook (h : Async unit) w :
  quiet h -> exists w', h w = (Resolved tt, w') /\ wrote tb (rowsOf w) w w'.
Proof.
  intros Hq. destruct (Hq w) as (logs & u & c & ->). eexists. split; [reflexivity|].
  exists logs. simpl. now rewrite setRows_rows.
Qed.

Lemma wrote_writeRows m w :
  exists w', Dexie.writeRows tb m w = (Resolved tt, w') /\ wrote tb m w w'.
Proof.
  unfold_async. simpl. eexists. split; [reflexivity|].
  exists (actionLogs (Dexie.setRows tb m (db w))). simpl. now rewrite setActionLogs_id.
Qed.

Lemma deleteRow_wrote obj w :
  exists w', Dexie.deleteRow tb obj w = (Resolved tt, w') /\
             wrote tb (delete (key obj) (rowsOf w)) w w'.
Proof.
  unfold Dexie.deleteRow, bind.
  destruct (wrote_hook (Dexie.deleting tb obj) w) as (w1 & -> & Hh);
    [apply deleting_quiet|].
  unfold Dexie.readRows, getStore, bind, ret.
  destruct (wrote_writeRows (delete (key obj) (rowsOf w1)) w1) as (w2 & -> & Hw).
  exists w2. split; [reflexivity|].
  rewrite (wrote_rows _ _ _ Hh) in Hw. eapply wrote_trans; eauto.
Qed.

Lemma forEach_deleteRow_wrote objs w :
  exists w', forEach objs (Dexie.deleteRow tb) w = (Resolved tt, w') /\
             wrote tb (removeKeys (key <$> objs) (rowsOf w)) w w'.
Proof.
  revert w. induction objs as [|obj objs IH]; intros w; simpl.
  - exists w. split; [reflexivity | apply wrote_refl].
  - unfold bind. destruct (deleteRow_wrote obj w) as (w1 & -> & Hd).
    destruct (IH w1) as (w2 & IH1 & IH2). exists w2. split; [exact IH1|].
    rewrite (wrote_rows _ _ _ Hd) in IH2. eapply wrote_trans; eauto.
Qed.

Lemma deleteAll_wrote query w :
  exists w', Dexie.deleteAll tb query w =
               (Resolved (Z.of_nat (length (query (rowsOf w)))), w') /\
             wrote tb (removeKeys (key <$> query (rowsOf w)) (rowsOf w)) w w'.
Proof.
  unfold Dexie.deleteAll, Dexie.readRows, getStore, bind, ret.
  destruct (forEach_deleteRow_wrote (query (rowsOf w)) w) as (w' & -> & H).
  exists w'. split; [reflexivity | exact H].
Qed.

Lemma clear_wrote w :
  keyed key (rowsOf w) ->
  exists w', Dexie.clear tb w = (Resolved tt, w') /\ wrote tb ∅ w w'.
Proof.
  intros Hk. unfold Dexie.clear, bind, ret.
  destruct (deleteAll_wrote Dexie.sorted w) as (w' & -> & H).
  rewrite removeKeys_sorted in H by exact Hk.
  exists w'. split; [reflexivity | exact H].
Qed.

Lemma bulkAddFrom_wrote objs failed w :
  exists failed' w',
    Dexie.bulkAddFrom tb objs failed w = (Resolved failed', w') /\
    wrote tb (addAll key objs (rowsOf w)) w w' /\
    (NoDup (key <$> objs) -> (forall o, o ∈ objs -> rowsOf w !! key o = None) ->
     failed' = failed).
Proof.
  revert failed w. induction objs as [|obj objs IH]; intros failed w; simpl.
  - exists failed, w. split; [reflexivity|]. split; [apply wrote_refl | reflexivity].
  - unfold bind at 1.
    destruct (wrote_hook (Dexie.creating tb obj) w) as (w1 & -> & Hh);
      [apply creating_quiet|].
    unfold Dexie.readRows, getStore, bind at 1 2, ret.
    pose proof (wrote_rows _ _ _ Hh) as Hrows. rewrite Hrows.
    destruct (rowsOf w !! key obj) as [old|] eqn:Hold.
    + destruct (IH true w1) as (f' & w2 & E & Hw & _). exists f', w2.
      split; [exact E|]. split.
      * rewrite Hrows in Hw. eapply wrote_trans; eauto.
      * intros _ Hfree. rewrite Hfree in Hold by now left. discriminate.
    + unfold bind at 1.
      destruct (wrote_writeRows (<[key obj := obj]> (rowsOf w)) w1) as (w2 & -> & Hw1).
      destruct (IH failed w2) as (f' & w3 & E & Hw & Hf). exists f', w3.
      split; [exact E|].
      assert (Hw2 : wrote tb (<[key obj := obj]> (rowsOf w)) w w2)
        by (eapply wrote_trans; eauto).
      split.
      * rewrite (wrote_rows _ _ _ Hw2) in Hw. eapply wrote_trans; eauto.
      * intros Hnd Hfree. rewrite ?fmap_cons in Hnd. apply NoDup_cons in Hnd as [Ho Hnd].
        apply Hf; [exact Hnd|]. intros o Hin.
        rewrite (wrote_rows _ _ _ Hw2), lookup_insert_ne; [apply Hfree; now right|].
        intros Heq. apply Ho. rewrite Heq. apply list_elem_of_fmap. eauto.
Qed.

(** [bulkAdd] of rows with distinct keys that the table has not: all are
    added and the promise resolves. *)
Lemma bulkAdd_wrote objs w :
  NoDup (key <$> objs) -> (forall o, o ∈ objs -> rowsOf w !! key o = None) ->
  exists w', Dexie.bulkAdd tb objs w = (Resolved tt, w') /\
             wrote tb (addAll key objs (rowsOf w)) w w'.
Proof.
  intros Hnd Hfree. unfold Dexie.bulkAdd, bind.
  destruct (bulkAddFrom_wrote objs false w) as (f' & w' & -> & Hw & Hf).
  rewrite (Hf Hnd Hfree). exists w'. split; [reflexivity | exact Hw].
Qed.

(** [update] of a row that exists, by changes that keep its key. *)
Lemma update_wrote k changes obj w :
  rowsOf w !! k = Some obj ->
  key (Dexie.applyChanges tb changes obj) = k ->
  exists w', Dexie.update tb k changes w = (Resolved 1, w') /\
             wrote tb (<[k := Dexie.applyChanges tb changes obj]> (rowsOf w)) w w'.
Proof.
  intros Hobj Hkey. unfold Dexie.update.
  unfold Dexie.readRows, getStore, bind at 1 2, ret. rewrite Hobj.
  unfold bind at 1.
  destruct (wrote_hook (Dexie.updating tb changes obj) w) as (w1 & -> & Hh);
    [apply updating_quiet|].
  unfold bind at 1 2. rewrite (wrote_rows _ _ _ Hh).
  rewrite decide_True by exact Hkey. unfold bind, ret.
  destruct (wrote_writeRows (<[k := Dexie.applyChanges tb changes obj]> (rowsOf w)) w1)
    as (w2 & -> & Hw).
  exists w2. split; [reflexivity|]. eapply wrote_trans; eauto.
Qed.

(** [update] of a key that has no row changes nothing and resolves to 0. *)
Lemma update_missing k changes w :
  rowsOf w !! k = None -> Dexie.update tb k changes w = (Resolved 0, w).
Proof.
  intros Hk. unfold Dexie.update, Dexie.readRows, getStore, bind, ret.
  now rewrite Hk.
Qed.

End Effects.

(** *** Soft delete and restore *)








(** *** ISO strings of instants one day apart *)











(** *** The purge of the trash *)






(** *** Export and import *)

Lemma exportData_run (w : World) :
  exportData w =
  (Resolved
     {| version := 1;
        exportDate := Js.toISOString (clock w 0%nat);
        data := {| data_transactions := Some (Dexie.sorted (transactions (db w)));
                   data_categories := Some (Dexie.sorted (categories (db w)));
                   data_settings := Some (Dexie.sorted (settings (db w)));
                   data_budgets := Some (Dexie.sorted (budgets (db w))) |} |},
   mkWorld (db w) (uuids w) (fun n => clock w (S n))).
Proof. reflexivity. Qed.

Lemma overwrite_self (s : Settings) : Settings.overwrite s s = s.
Proof.
  destruct s as [i c wk th pe ph tb l ca ua]. unfold Settings.overwrite. simpl.
  now destruct ph, tb.
Qed.

Lemma importSettings_same (w : World) :
  keyed Settings.id (settings (db w)) ->
  db (exec (importSettings (Dexie.sorted (settings (db w)))) w) = db w /\
  ((forall k, is_Some (settings (db w) !! k) -> k = "main"%string) ->
   outcome (importSettings (Dexie.sorted (settings (db w)))) w = Resolved tt).
Proof.
  intros Hkeyed. unfold importSettings.
  destruct (Dexie.sorted (settings (db w))) as [|st rest] eqn:Hsorted.
  - split; reflexivity.
  - assert (Hst : settings (db w) !! Settings.id st = Some st).
    { assert (Hin : st ∈ Dexie.sorted (settings (db w))) by (rewrite Hsorted; now left).
      apply elem_of_sorted in Hin as [k Hk]. now rewrite (Hkeyed k st Hk). }
    unfold exec, outcome, Dexie.get, Dexie.update, Dexie.add, Dexie.readRows,
      Dexie.writeRows, Dexie.noHook, getStore, putStore, bind, ret, throw.
    simpl.
    destruct (settings (db w) !! "main"%string) as [ex|] eqn:Hmain;
      rewrite ?Hmain; simpl.
    + destruct (decide (Settings.id st = "main"%string)) as [Heq|Hne]; simpl.
      * rewrite Heq in Hst. assert (ex = st) as -> by congruence.
        rewrite overwrite_self, (insert_id _ _ _ Hmain).
        split; [now destruct (db w) | reflexivity].
      * rewrite Hst. simpl. split; [reflexivity|].
        intros Honly. destruct Hne. apply Honly. eauto.
    + rewrite Hst. simpl. split; [reflexivity|].
      intros Honly. rewrite (Honly (Settings.id st)) in Hst by eauto. congruence.
Qed.

Lemma importData_settings_step (file : ExportFile) (w : World) (exported : list Settings) :
  data_settings (data file) = Some exported ->
  match data_settings (data file) with
  | Some (settings :: _) =>
      await existing := Dexie.get settingsTable "main" in
      match existing with
      | Some _ =>
          await _ := Dexie.update settingsTable "main" settings in ret tt
      | None =>
          await _ := Dexie.add settingsTable settings in ret tt
      end
  | _ => ret tt
  end w = importSettings exported w.
Proof. intros ->. now destruct exported. Qed.

(** C3. From a database whose rows are stored under their ids, the file
    of [exportData] imported with [importData file Overwrite] leaves the
    transaction, category, settings and budget tables equal to what they
    were, so every query on them answers as before; the import resolves when
    the settings table holds no row but [main]. *)
Theorem export_import_overwrite (w : World) (file : ExportFile) :
  wfStore (db w) ->
  outcome exportData w = Resolved file ->
  let w' := exec (importData file Overwrite) (exec exportData w) in
  transactions (db w') = transactions (db w) /\
  categories (db w') = categories (db w) /\
  settings (db w') = settings (db w) /\
  budgets (db w') = budgets (db w) /\
  (forall dateGetTime filters sort,
      useTransactions dateGetTime filters sort (db w') =
      useTransactions dateGetTime filters sort (db w)) /\
  (forall type, useCategories type (db w') = useCategories type (db w)) /\
  useSettings (db w') = useSettings (db w) /\
  ((forall k, is_Some (settings (db w) !! k) -> k = "main"%string) ->
   outcome (importData file Overwrite) (exec exportData w) = Resolved tt).
Proof.
  intros [Hkt Hkc Hks Hkb _] Hfile w'.
  unfold outcome in Hfile. rewrite exportData_run in Hfile. simpl in Hfile.
  injection Hfile as <-.
  set (w0 := exec exportData w) in *.
  assert (Hdb0 : db w0 = db w) by reflexivity. clearbody w0.
  match goal with w' := exec ?m w0 |- _ => set (import := m) in * end.
  assert (Hmain :
    transactions (db w') = transactions (db w) /\
    categories (db w') = categories (db w) /\
    settings (db w') = settings (db w) /\
    budgets (db w') = budgets (db w) /\
    ((forall k, is_Some (settings (db w) !! k) -> k = "main"%string) ->
     outcome import w0 = Resolved tt)).
  { subst w' import. unfold exec, outcome, importData.
    simpl data_categories. simpl data_transactions.
    simpl data_budgets. simpl data_settings. unfold bind.
    destruct (clear_wrote transactionsTable w0) as (w1 & -> & [l1 H1]);
      [simpl; now rewrite Hdb0|].
    destruct (clear_wrote categoriesTable w1) as (w2 & -> & [l2 H2]);
      [rewrite H1; simpl; now rewrite Hdb0|].
    destruct (clear_wrote budgetsTable w2) as (w3 & -> & [l3 H3]);
      [rewrite H2, H1; simpl; now rewrite Hdb0|].
    destruct (bulkAdd_wrote categoriesTable (Dexie.sorted (categories (db w))) w3)
      as (w4 & -> & [l4 H4]).
    { now apply sorted_keys_NoDup. }
    { intros o _. rewrite H3, H2. simpl. apply lookup_empty. }
    destruct (bulkAdd_wrote transactionsTable (Dexie.sorted (transactions (db w))) w4)
      as (w5 & -> & [l5 H5]).
    { now apply sorted_keys_NoDup. }
    { intros o _. rewrite H4, H3, H2, H1. simpl. apply lookup_empty. }
    destruct (bulkAdd_wrote budgetsTable (Dexie.sorted (budgets (db w))) w5)
      as (w6 & -> & [l6 H6]).
    { now apply sorted_keys_NoDup. }
    { intros o _. rewrite H5, H4, H3. simpl. apply lookup_empty. }
    assert (Hdb6 : db w6 =
              setActionLogs l6 (mkStore (transactions (db w)) (categories (db w))
                                        (settings (db w)) (budgets (db w))
                                        (actionLogs (db w)))).
    { rewrite H6, H5, H4, H3, H2, H1. simpl.
      rewrite !addAll_sorted by assumption. now rewrite Hdb0. }
    assert (Hs6 : settings (db w6) = settings (db w)) by now rewrite Hdb6.
    destruct (importSettings_same w6) as [Hsame Hres]; [now rewrite Hs6|].
    rewrite Hs6 in Hsame, Hres. unfold importSettings, exec, outcome in Hsame, Hres.
    unfold bind in Hsame, Hres. rewrite Hsame, Hdb6. simpl.
    repeat split; try reflexivity. exact Hres. }
  destruct Hmain as (Ht & Hc & Hs & Hb & Hres).
  repeat split; try assumption.
  - intros g filters sort. unfold useTransactions, activeTransactions. now rewrite Ht.
  - intros type. unfold useCategories. now rewrite Hc.
  - unfold useSettings. now rewrite Hs.
Qed.

(** *** The category form *)

Lemma elem_of_useCategories (s : Store) (c : Category) :
  c ∈ useCategories None s <-> exists k, categories s !! k = Some c.
Proof. unfold useCategories. apply elem_of_orderedBy. Qed.

(** C7. When the category table holds a category whose name, in lower
    case, is the trimmed name of the form in lower case, the validation of
    a new category against the categories [useCategories] lists sets an
    error under [name] (the duplicate-name error when the trimmed name is
    neither empty nor longer than 20), the form is not valid, and
    [handleSubmit] resolves without any write: the world is as it was. *)
Theorem duplicate_category_name_rejected (w : World) (k : string)
    (existing : Category) (formData : CategoryForm.FormData) :
  categories (db w) !! k = Some existing ->
  Js.toLowerCase (Category.name existing) =
    Js.toLowerCase (Js.trim (CategoryForm.name formData)) ->
  let listed := Some (useCategories None (db w)) in
  let errors := CategoryForm.validateForm listed None formData in
  CategoryForm.nameError errors <> None /\
  (Js.trim (CategoryForm.name formData) <> EmptyString ->
   (String.length (Js.trim (CategoryForm.name formData)) <= 20)%nat ->
   CategoryForm.nameError errors = Some CategoryForm.NameDuplicate) /\
  CategoryForm.isValid errors = false /\
  CategoryForm.handleSubmit listed None formData w = (Resolved errors, w).
Proof.
  intros Hk Hname listed errors.
  assert (Hin : existing ∈ useCategories None (db w))
    by (apply elem_of_useCategories; eauto).
  assert (Hfind : forall l, existing ∈ l ->
    List.find
      (fun cat =>
         negb (bool_decide (Some (Category.id cat) = Category.id <$> None)) &&
         bool_decide (Js.toLowerCase (Category.name cat)
                      = Js.toLowerCase (Js.trim (CategoryForm.name formData)))) l
    <> None).
  { intros l Hl Hnone. apply list_elem_of_In in Hl.
    pose proof (find_none _ _ Hnone existing Hl) as Hf. simpl in Hf.
    rewrite bool_decide_eq_false in Hf. contradiction. }
  assert (Hdup :
    CategoryForm.nameError errors <> None /\
    (Js.trim (CategoryForm.name formData) <> EmptyString ->
     (String.length (Js.trim (CategoryForm.name formData)) <= 20)%nat ->
     CategoryForm.nameError errors = Some CategoryForm.NameDuplicate)).
  { unfold errors, CategoryForm.validateForm. simpl CategoryForm.nameError.
    destruct (bool_decide_reflect (Js.trim (CategoryForm.name formData) = EmptyString))
      as [He|He]; [split; [discriminate | contradiction]|].
    destruct (Z.ltb_spec 20 (Z.of_nat (String.length (Js.trim (CategoryForm.name formData)))))
      as [Hl|Hl]; [split; [discriminate | lia]|].
    simpl default. specialize (Hfind _ Hin).
    destruct (List.find _ _); [split; [discriminate | reflexivity] | contradiction]. }
  destruct Hdup as [Hsome Hdup].
  assert (Hinvalid : CategoryForm.isValid errors = false).
  { unfold CategoryForm.isValid. now destruct (CategoryForm.nameError errors). }
  repeat split; try assumption.
  unfold CategoryForm.handleSubmit. fold listed. fold errors. now rewrite Hinvalid.
Qed.

(** *** The statistics by category *)











Lemma StronglySorted_weaken {A : Type} (R R' : A -> A -> Prop) (l : list A) :
  (forall a b, R a b -> R' a b) -> StronglySorted R l -> StronglySorted R' l.
Proof.
  intros HR. induction 1 as [|x l Hl IH Hx]; constructor; [exact IH|].
  eapply Forall_impl; [exact Hx|]. intros y. apply HR.
Qed.



(** *** The recent categories *)








(** ** The tables keep their rows under their ids *)

Lemma keepsWf_ret {A : Type} (a : A) : keepsWf (ret a).
Proof. intros w H. exact H. Qed.

Lemma keepsWf_throw {A : Type} (e : DexieError) : keepsWf (@throw A e).
Proof. intros w H. exact H. Qed.

Lemma keepsWf_bind {A B : Type} (m : Async A) (k : A -> Async B) :
  keepsWf m -> (forall a, keepsWf (k a)) -> keepsWf (bind m k).
Proof.
  intros Hm Hk w Hw. unfold exec, bind. specialize (Hm w Hw). unfold exec in Hm.
  destruct (m w) as [[a|e] w']; simpl in *; [now apply Hk | exact Hm].
Qed.

(** A read: the world stays, and what is read of a well-formed database
    satisfies [P]. *)
Lemma keepsWf_read {A B : Type} (m : Async A) (k : A -> Async B) (P : A -> Prop) :
  (forall w, wfStore (db w) -> exists a, m w = (Resolved a, w) /\ P a) ->
  (forall a, P a -> keepsWf (k a)) -> keepsWf (bind m k).
Proof.
  intros Hm Hk w Hw. unfold exec, bind. destruct (Hm w Hw) as (a & -> & Ha).
  now apply Hk.
Qed.

Lemma keepsWf_detached {A : Type} (m : Async A) : keepsWf m -> keepsWf (detached m).
Proof. intros Hm w Hw. exact (Hm w Hw). Qed.

Lemma keepsWf_forEach {A : Type} (l : list A) (body : A -> Async unit) :
  (forall x, keepsWf (body x)) -> keepsWf (forEach l body).
Proof.
  intros Hb. induction l as [|x l IH]; simpl; [apply keepsWf_ret|].
  apply keepsWf_bind; [apply Hb | intros _; exact IH].
Qed.

Lemma keepsWf_randomUUID : keepsWf randomUUID.
Proof. intros w H. exact H. Qed.

Lemma keepsWf_newDate : keepsWf newDate.
Proof. intros w H. exact H. Qed.

Section KeyedMethods.
Context {T P : Type} (tb : Dexie.Table T P) `{!KeyedTable tb}.

Lemma readRows_keyed (w : World) :
  wfStore (db w) ->
  exists m, Dexie.readRows tb w = (Resolved m, w) /\ keyed (Dexie.primaryKey tb) m.
Proof. intros Hw. eexists. split; [reflexivity|]. now apply rows_keyed. Qed.

Lemma keepsWf_writeRows (m : gmap string T) :
  keyed (Dexie.primaryKey tb) m -> keepsWf (Dexie.writeRows tb m).
Proof. intros Hm w Hw. unfold exec, Dexie.writeRows, getStore, putStore, bind. simpl.
  now apply setRows_wf. Qed.

Lemma keepsWf_add (obj : T) : keepsWf (Dexie.add tb obj).
Proof.
  unfold Dexie.add. apply keepsWf_bind; [apply creating_keepsWf|]. intros _.
  eapply keepsWf_read; [apply readRows_keyed|]. intros m Hm.
  destruct (m !! Dexie.primaryKey tb obj); [apply keepsWf_throw|].
  apply keepsWf_bind; [|intros _; apply keepsWf_ret].
  now apply keepsWf_writeRows, keyed_insert.
Qed.

Lemma keepsWf_bulkAddFrom (objs : list T) (failed : bool) :
  keepsWf (Dexie.bulkAddFrom tb objs failed).
Proof.
  revert failed. induction objs as [|obj objs IH]; intros failed; simpl;
    [apply keepsWf_ret|].
  apply keepsWf_bind; [apply creating_keepsWf|]. intros _.
  eapply keepsWf_read; [apply readRows_keyed|]. intros m Hm.
  destruct (m !! Dexie.primaryKey tb obj); [apply IH|].
  apply keepsWf_bind; [|intros _; apply IH].
  now apply keepsWf_writeRows, keyed_insert.
Qed.

Lemma keepsWf_bulkAdd (objs : list T) : keepsWf (Dexie.bulkAdd tb objs).
Proof.
  unfold Dexie.bulkAdd. apply keepsWf_bind; [apply keepsWf_bulkAddFrom|].
  intros []; [apply keepsWf_throw | apply keepsWf_ret].
Qed.

Lemma keepsWf_update (key : string) (changes : P) :
  keepsWf (Dexie.update tb key changes).
Proof.
  unfold Dexie.update. eapply keepsWf_read; [apply readRows_keyed|]. intros m _.
  destruct (m !! key) as [obj|]; [|apply keepsWf_ret].
  apply keepsWf_bind; [apply updating_keepsWf|]. intros _.
  eapply keepsWf_read; [apply readRows_keyed|]. intros m' Hm'.
  destruct (decide _) as [Hk|Hk].
  - apply keepsWf_bind; [|intros _; apply keepsWf_ret].
    apply keepsWf_writeRows. rewrite <- Hk. now apply keyed_insert.
  - destruct (m' !! _); [apply keepsWf_throw|].
    apply keepsWf_bind; [|intros _; apply keepsWf_ret].
    now apply keepsWf_writeRows, keyed_insert, keyed_delete.
Qed.

Lemma keepsWf_deleteRow (obj : T) : keepsWf (Dexie.deleteRow tb obj).
Proof.
  unfold Dexie.deleteRow. apply keepsWf_bind; [apply deleting_keepsWf|]. intros _.
  eapply keepsWf_read; [apply readRows_keyed|]. intros m Hm.
  now apply keepsWf_writeRows, keyed_delete.
Qed.

Lemma keepsWf_deleteAll (query : gmap string T -> list T) :
  keepsWf (Dexie.deleteAll tb query).
Proof.
  unfold Dexie.deleteAll. eapply keepsWf_read; [apply readRows_keyed|]. intros m _.
  apply keepsWf_bind; [|intros _; apply keepsWf_ret].
  apply keepsWf_forEach, keepsWf_deleteRow.
Qed.

Lemma keepsWf_clear : keepsWf (Dexie.clear tb).
Proof.
  unfold Dexie.clear. apply keepsWf_bind; [apply keepsWf_deleteAll|].
  intros _. apply keepsWf_ret.
Qed.

Lemma keepsWf_bulkDelete (keys : list string) : keepsWf (Dexie.bulkDelete tb keys).
Proof.
  unfold Dexie.bulkDelete. apply keepsWf_forEach. intros key.
  eapply keepsWf_read; [apply readRows_keyed|]. intros m _.
  destruct (m !! key); [apply keepsWf_deleteRow | apply keepsWf_ret].
Qed.

Lemma keepsWf_get {B : Type} (key : string) (k : option T -> Async B) :
  (forall o, keepsWf (k o)) -> keepsWf (bind (Dexie.get tb key) k).
Proof.
  intros Hk. apply keepsWf_bind; [|exact Hk]. intros w Hw. exact Hw.
Qed.

End KeyedMethods.

Global Instance actionLogsTable_keyed : KeyedTable actionLogsTable.
Proof.
  split; simpl.
  - intros s []. assumption.
  - intros m s [] Hm. now split.
  - intros obj. apply keepsWf_ret.
  - intros c obj. apply keepsWf_ret.
  - intros obj. apply keepsWf_ret.
Qed.

Lemma keepsWf_logAction (action : Action) (entityType : EntityType)
    (entityId : string) (data : LogData) :
  keepsWf (logAction action entityType entityId data).
Proof.
  unfold logAction. apply keepsWf_bind; [apply keepsWf_randomUUID|]. intros id.
  apply keepsWf_bind; [apply keepsWf_newDate|]. intros now.
  apply keepsWf_bind; [apply keepsWf_add; apply _|]. intros _.
  unfold keepLast500. apply keepsWf_bind; [intros w Hw; exact Hw|]. intros count.
  destruct (500 <? count); [|apply keepsWf_ret].
  apply keepsWf_bind; [intros w Hw; exact Hw|]. intros logs.
  apply keepsWf_bulkDelete; apply _.
Qed.

Global Instance transactionsTable_keyed : KeyedTable transactionsTable.
Proof.
  split; simpl.
  - intros s []. assumption.
  - intros m s [] Hm. now split.
  - intros obj. apply keepsWf_detached, keepsWf_logAction.
  - intros c obj. apply keepsWf_detached, keepsWf_logAction.
  - intros obj. apply keepsWf_detached, keepsWf_logAction.
Qed.

Global Instance categoriesTable_keyed : KeyedTable categoriesTable.
Proof.
  split; simpl.
  - intros s []. assumption.
  - intros m s [] Hm. now split.
  - intros obj. apply keepsWf_detached, keepsWf_logAction.
  - intros c obj. apply keepsWf_detached, keepsWf_logAction.
  - intros obj. apply keepsWf_detached, keepsWf_logAction.
Qed.

Global Instance settingsTable_keyed : KeyedTable settingsTable.
Proof.
  split; simpl.
  - intros s []. assumption.
  - intros m s [] Hm. now split.
  - intros obj. apply keepsWf_ret.
  - intros c obj. apply keepsWf_ret.
  - intros obj. apply keepsWf_ret.
Qed.

Global Instance budgetsTable_keyed : KeyedTable budgetsTable.
Proof.
  split; simpl.
  - intros s []. assumption.
  - intros m s [] Hm. now split.
  - intros obj. apply keepsWf_ret.
  - intros c obj. apply keepsWf_ret.
  - intros obj. apply keepsWf_ret.
Qed.

Lemma wfStore_empty : wfStore (mkStore ∅ ∅ ∅ ∅ ∅).
Proof. split; apply keyed_empty. Qed.

(** Every write of [Database] and of the category form keeps the rows under
    their ids. *)
Theorem database_keepsWf :
  (forall id, keepsWf (softDeleteTransaction id)) /\
  (forall id, keepsWf (restoreTransaction id)) /\
  keepsWf permanentlyDeleteOldTrash /\
  keepsWf exportData /\
  (forall file mode, keepsWf (importData file mode)) /\
  (forall category, keepsWf (createCategory category)) /\
  (forall id updates, keepsWf (updateCategory id updates)) /\
  (forall categories category formData,
      keepsWf (CategoryForm.handleSubmit categories category formData)).
Proof.
  assert (Hcreate : forall category, keepsWf (createCategory category)).
  { intros category. unfold createCategory.
    apply keepsWf_bind; [apply keepsWf_randomUUID|]. intros id.
    apply keepsWf_bind; [apply keepsWf_newDate|]. intros c.
    apply keepsWf_bind; [apply keepsWf_newDate|]. intros u.
    apply keepsWf_bind; [apply keepsWf_add; apply _|]. intros _. apply keepsWf_ret. }
  assert (Hupdate : forall id updates, keepsWf (updateCategory id updates)).
  { intros id updates. unfold updateCategory.
    apply keepsWf_bind; [apply keepsWf_newDate|]. intros u.
    apply keepsWf_bind; [apply keepsWf_update; apply _|]. intros _. apply keepsWf_ret. }
  split; [|split; [|split; [|split; [|split; [|split; [|split]]]]]].
  - intros id. unfold softDeleteTransaction. apply keepsWf_get.
    intros [t|]; [|apply keepsWf_ret].
    apply keepsWf_bind; [apply keepsWf_newDate|]. intros d.
    apply keepsWf_bind; [apply keepsWf_newDate|]. intros u.
    apply keepsWf_bind; [apply keepsWf_update; apply _|]. intros _. apply keepsWf_ret.
  - intros id. unfold restoreTransaction.
    apply keepsWf_bind; [apply keepsWf_newDate|]. intros u.
    apply keepsWf_bind; [apply keepsWf_update; apply _|]. intros _.
    apply keepsWf_detached, keepsWf_logAction.
  - unfold permanentlyDeleteOldTrash.
    apply keepsWf_bind; [apply keepsWf_newDate|]. intros now.
    apply keepsWf_bind; [apply keepsWf_deleteAll; apply _|]. intros _. apply keepsWf_ret.
  - intros w Hw. exact Hw.
  - intros file mode. unfold importData.
    apply keepsWf_bind.
    { destruct mode; [|apply keepsWf_ret].
      apply keepsWf_bind; [apply keepsWf_clear; apply _|]. intros _.
      apply keepsWf_bind; [apply keepsWf_clear; apply _|]. intros _.
      apply keepsWf_clear; apply _. }
    intros _. apply keepsWf_bind.
    { destruct (data_categories _); [apply keepsWf_bulkAdd; apply _ | apply keepsWf_ret]. }
    intros _. apply keepsWf_bind.
    { destruct (data_transactions _); [apply keepsWf_bulkAdd; apply _ | apply keepsWf_ret]. }
    intros _. apply keepsWf_bind.
    { destruct (data_budgets _); [apply keepsWf_bulkAdd; apply _ | apply keepsWf_ret]. }
    intros _. destruct (data_settings _) as [[|st rest]|]; try apply keepsWf_ret.
    apply keepsWf_get. intros [ex|].
    + apply keepsWf_bind; [apply keepsWf_update; apply _|]. intros _. apply keepsWf_ret.
    + apply keepsWf_bind; [apply keepsWf_add; apply _|]. intros _. apply keepsWf_ret.
  - exact Hcreate.
  - exact Hupdate.
  - intros categories category formData. unfold CategoryForm.handleSubmit.
    destruct (negb _); [apply keepsWf_ret|].
    apply keepsWf_bind; [|intros _; apply keepsWf_ret].
    intros w Hw. unfold exec, CategoryForm.catching. simpl.
    destruct category as [c|].
    + apply (Hupdate _ _ w Hw).
    + assert (H : keepsWf (bind (createCategory
        {| cd_name := Js.trim (CategoryForm.name formData);
           cd_icon := CategoryForm.icon formData;
           cd_color := CategoryForm.color formData;
           cd_type := CategoryForm.type formData;
           cd_budget :=
             if bool_decide (CategoryForm.budget formData = EmptyString) then None
             else CategoryForm.parseInt (CategoryForm.budget formData);
           cd_order :=
             Js.orNum (Category.order <$> None)
               (Js.orNum (Z.of_nat <$> (length <$> categories)) 0 + 1) |})
        (fun _ => ret tt))).
      { apply keepsWf_bind; [apply Hcreate | intros _; apply keepsWf_ret]. }
      apply (H w Hw).
Qed.

(** ** A sample database, and the theorems at it *)

Section Sample.
Local Open Scope string_scope.

Lemma sampleStore_wf : wfStore sampleStore.
Proof. split; apply (bool_decide_unpack _); vm_compute; exact I. Qed.

Example log_501st_entry :
  let logs := actionLogs (db (exec (logAction Restore EntityTransaction "t1" DataRestored)
                                   fullWorld)) in
  size fullLogs = 500%nat /\ size logs = 500%nat /\
  logs !! "log-499" = None /\ is_Some (logs !! "log-498") /\ is_Some (logs !! "uuid-000").
Proof. vm_compute. repeat split; eauto. Qed.

Example purge_sample :
  let after := transactions (db (exec permanentlyDeleteOldTrash sampleWorld)) in
  after !! "t3" = None /\ after !! "t4" = Some newTrash /\ after !! "t1" = Some lunch.
Proof. vm_compute. repeat split. Qed.

Example duplicate_sample :
  CategoryForm.validateForm (Some (useCategories None sampleStore)) None newFood
  = CategoryForm.mkErrors (Some CategoryForm.NameDuplicate) None.
Proof. vm_compute. reflexivity. Qed.

Lemma logAction_keeps_500_witness :
  keyed ActionLog.id (actionLogs (db fullWorld)) /\
  actionLogs (db fullWorld) !! uuids fullWorld 0%nat = None /\
  size (actionLogs (db fullWorld)) = 500%nat /\
  size (actionLogs (db (exec (logAction Restore EntityTransaction "t1" DataRestored)
                             fullWorld))) = 500%nat.
Proof.
  assert (H1 : keyed ActionLog.id (actionLogs (db fullWorld)))
    by (apply (bool_decide_unpack _); vm_compute; exact I).
  assert (H2 : actionLogs (db fullWorld) !! uuids fullWorld 0%nat = None)
    by (vm_compute; reflexivity).
  assert (H3 : size (actionLogs (db fullWorld)) = 500%nat) by (vm_compute; reflexivity).
  split; [exact H1|]. split; [exact H2|]. split; [exact H3|].
  destruct (logAction_keeps_500 fullWorld Restore EntityTransaction "t1" DataRestored
              H1 H2) as (_ & _ & _ & _ & _ & _ & H).
  exact (proj1 (H H3)).
Defined.

Lemma export_import_overwrite_witness :
  wfStore (db sampleWorld) /\
  outcome exportData sampleWorld = Resolved sampleFile /\
  transactions (db (exec (importData sampleFile Overwrite) (exec exportData sampleWorld)))
  = transactions sampleStore.
Proof.
  assert (H1 : wfStore (db sampleWorld)) by exact sampleStore_wf.
  assert (H2 : outcome exportData sampleWorld = Resolved sampleFile) by reflexivity.
  split; [exact H1|]. split; [exact H2|].
  exact (proj1 (export_import_overwrite sampleWorld sampleFile H1 H2)).
Defined.




Lemma duplicate_category_name_rejected_witness :
  categories (db sampleWorld) !! "c-food" = Some food /\
  Js.toLowerCase (Category.name food) =
    Js.toLowerCase (Js.trim (CategoryForm.name newFood)) /\
  CategoryForm.isValid
    (CategoryForm.validateForm (Some (useCategories None (db sampleWorld))) None newFood)
  = false.
Proof.
  assert (H1 : categories (db sampleWorld) !! "c-food" = Some food) by reflexivity.
  assert (H2 : Js.toLowerCase (Category.name food) =
               Js.toLowerCase (Js.trim (CategoryForm.name newFood))) by reflexivity.
  split; [exact H1|]. split; [exact H2|].
  exact (proj1 (proj2 (proj2
    (duplicate_category_name_rejected sampleWorld "c-food" food newFood H1 H2)))).
Defined.




End Sample.

(** * Further properties *)

(** ** The initial data *)

Lemma size_zero_empty {T : Type} (m : gmap string T) :
  (Z.of_nat (size m) =? 0) = bool_decide (m = ∅).
Proof.
  destruct (Z.eqb_spec (Z.of_nat (size m)) 0) as [H|H].
  - symmetry. apply bool_decide_eq_true. apply map_size_empty_iff. lia.
  - symmetry. apply bool_decide_eq_false. intros ->. now rewrite map_size_empty in H.
Qed.

Lemma initializeDefaultData_run (w : World) :
  initializeDefaultData w =
  if bool_decide (settings (db w) = ∅) then
    (Resolved tt,
     advance 0 2 (setSettings (<["main" := defaultSettingsAt w]> (settings (db w))) (db w)) w)
  else (Resolved tt, w).
Proof.
  unfold initializeDefaultData, Dexie.count, Dexie.readRows, getStore, bind, ret. simpl.
  rewrite size_zero_empty. destruct (bool_decide_reflect (settings (db w) = ∅)) as [He|He];
    [|reflexivity].
  unfold newDate, Dexie.add, Dexie.readRows, Dexie.writeRows, Dexie.noHook,
    getStore, putStore, bind, ret. simpl.
  rewrite He, lookup_empty. reflexivity.
Qed.

(** X1. [initializeDefaultData] always resolves. On an empty settings
    table it stores the default settings under [main], stamped with the
    next two times, and writes to no other table; on a settings table that
    holds any row, whatever its key, it changes nothing. A second call
    changes nothing. *)
Theorem initializeDefaultData_ensures_main (w : World) :
  let w' := exec initializeDefaultData w in
  outcome initializeDefaultData w = Resolved tt /\
  (settings (db w) = ∅ ->
   db w' = setSettings {["main" := defaultSettingsAt w]} (db w) /\
   useSettings (db w') = Some (defaultSettingsAt w)) /\
  (settings (db w) <> ∅ -> w' = w) /\
  db (exec initializeDefaultData w') = db w'.
Proof.
  intros w'. subst w'. unfold exec, outcome.
  rewrite !initializeDefaultData_run.
  destruct (bool_decide_reflect (settings (db w) = ∅)) as [He|He]; simpl.
  - split; [reflexivity|]. split; [|split].
    + intros _. rewrite He. split; [reflexivity|].
      unfold useSettings. simpl. apply lookup_insert_eq.
    + intros H. contradiction.
    + rewrite bool_decide_eq_false_2; [reflexivity|].
      intros H. apply (f_equal (fun m => m !! "main"%string)) in H.
      rewrite lookup_insert_eq, lookup_empty in H. discriminate.
  - split; [reflexivity|]. split; [|split].
    + intros H. contradiction.
    + intros _. reflexivity.
    + rewrite bool_decide_eq_false_2 by exact He. reflexivity.
Qed.

(** *** What a call draws from the world *)

Lemma advance_same (w : World) : advance 0 0 (db w) w = w.
Proof. now destruct w. Qed.

Lemma logAction_streams (action : Action) (entityType : EntityType)
    (entityId : string) (data : LogData) (w : World) :
  exists r logs,
    logAction action entityType entityId data w =
    (r, advance 1 1 (setActionLogs logs (db w)) w).
Proof.
  unfold logAction, randomUUID, newDate, Dexie.add. unfold_async. simpl.
  destruct (actionLogs (db w) !! uuids w 0%nat).
  - exists (Rejected ConstraintError), (actionLogs (db w)).
    now rewrite setActionLogs_id.
  - simpl. unfold keepLast500. unfold_async. simpl.
    match goal with |- context [if ?b then _ else _] => destruct b end.
    + match goal with |- context [Dexie.bulkDelete _ ?ks ?w'] =>
        destruct (bulkDelete_actionLogs_any ks w') as [logs Hl] end.
      rewrite Hl. simpl. eauto.
    + simpl. eauto.
Qed.

Lemma logsOne_logAction (action : Action) (entityType : EntityType)
    (entityId : string) (data : LogData) :
  logsOne (detached (logAction action entityType entityId data)).
Proof.
  intros w. unfold detached.
  destruct (logAction_streams action entityType entityId data w) as (r & logs & ->).
  now exists logs.
Qed.

Section Logged.
Context {T P : Type} (tb : Dexie.Table T P) `{!DataTable tb}.
Hypothesis creating_logs : forall obj, logsOne (Dexie.creating tb obj).
Hypothesis updating_logs : forall changes obj, logsOne (Dexie.updating tb changes obj).
Hypothesis deleting_logs : forall obj, logsOne (Dexie.deleting tb obj).

Local Abbreviation key := (Dexie.primaryKey tb).
Local Abbreviation rowsOf w := (Dexie.rows tb (db w)).

Lemma add_logged obj w :
  rowsOf w !! key obj = None ->
  exists logs,
    Dexie.add tb obj w =
    (Resolved (key obj),
     advance 1 1
       (setActionLogs logs (Dexie.setRows tb (<[key obj := obj]> (rowsOf w)) (db w))) w).
Proof.
  intros Hfree. unfold Dexie.add, bind at 1.
  destruct (creating_logs obj w) as [logs ->].
  unfold Dexie.readRows, Dexie.writeRows, getStore, putStore, bind, ret. simpl.
  rewrite rows_setActionLogs, Hfree. simpl.
  exists logs. now rewrite setRows_setActionLogs.
Qed.


Lemma update_logged k changes obj w :
  rowsOf w !! k = Some obj ->
  key (Dexie.applyChanges tb changes obj) = k ->
  exists logs,
    Dexie.update tb k changes w =
    (Resolved 1,
     advance 1 1
       (setActionLogs logs
          (Dexie.setRows tb (<[k := Dexie.applyChanges tb changes obj]> (rowsOf w)) (db w)))
       w).
Proof.
  intros Hobj Hkey. unfold Dexie.update.
  unfold Dexie.readRows, getStore, bind at 1 2, ret. rewrite Hobj.
  unfold bind at 1. destruct (updating_logs changes obj w) as [logs ->].
  unfold bind at 1 2. simpl. rewrite rows_setActionLogs.
  rewrite decide_True by exact Hkey.
  unfold Dexie.writeRows, getStore, putStore, bind, ret. simpl.
  exists logs. now rewrite setRows_setActionLogs.
Qed.

Lemma delete_logged k obj w :
  rowsOf w !! k = Some obj -> key obj = k ->
  exists logs,
    Dexie.delete tb k w =
    (Resolved tt,
     advance 1 1 (setActionLogs logs (Dexie.setRows tb (delete k (rowsOf w)) (db w))) w).
Proof.
  intros Hobj Hkey. unfold Dexie.delete, Dexie.readRows, getStore, bind at 1 2, ret.
  rewrite Hobj. unfold Dexie.deleteRow, bind at 1.
  destruct (deleting_logs obj w) as [logs ->].
  unfold Dexie.readRows, Dexie.writeRows, getStore, putStore, bind, ret. simpl.
  rewrite rows_setActionLogs, Hkey. exists logs. now rewrite setRows_setActionLogs.
Qed.

Lemma delete_missing k w :
  rowsOf w !! k = None -> Dexie.delete tb k w = (Resolved tt, w).
Proof.
  intros Hk. unfold Dexie.delete, Dexie.readRows, getStore, bind, ret. now rewrite Hk.
Qed.

End Logged.


Lemma transactions_updating_logs changes obj :
  logsOne (Dexie.updating transactionsTable changes obj).
Proof. apply logsOne_logAction. Qed.

Lemma categories_creating_logs obj : logsOne (Dexie.creating categoriesTable obj).
Proof. apply logsOne_logAction. Qed.

Lemma categories_updating_logs changes obj :
  logsOne (Dexie.updating categoriesTable changes obj).
Proof. apply logsOne_logAction. Qed.

Lemma categories_deleting_logs obj : logsOne (Dexie.deleting categoriesTable obj).
Proof. apply logsOne_logAction. Qed.

(** *** The sample categories *)

Lemma createSample_run (c : CategoryData) (w : World) :
  categories (db w) !! uuids w 0%nat = None ->
  exists logs,
    createSample c w =
    (Resolved tt,
     advance 2 3
       (setActionLogs logs
          (setCategories (<[uuids w 0%nat := sampleRow w 0 c]> (categories (db w))) (db w)))
       w).
Proof.
  intros Hfree. unfold createSample, bind, randomUUID, newDate. simpl.
  match goal with |- context [Dexie.add categoriesTable ?row ?w0] =>
    destruct (add_logged categoriesTable categories_creating_logs row w0)
      as [logs E] end.
  { exact Hfree. }
  rewrite E. now exists logs.
Qed.

Lemma createEach_run (l : list CategoryData) (w : World) :
  (forall i j, (i < length l)%nat -> (j < length l)%nat ->
     uuids w (2 * i)%nat = uuids w (2 * j)%nat -> i = j) ->
  (forall i, (i < length l)%nat -> categories (db w) !! uuids w (2 * i)%nat = None) ->
  exists w',
    forEach l createSample w = (Resolved tt, w') /\
    (forall i category, l !! i = Some category ->
       categories (db w') !! uuids w (2 * i)%nat = Some (sampleRow w i category)) /\
    (forall k, (forall i, (i < length l)%nat -> k <> uuids w (2 * i)%nat) ->
       categories (db w') !! k = categories (db w) !! k) /\
    size (categories (db w')) = (size (categories (db w)) + length l)%nat /\
    transactions (db w') = transactions (db w) /\
    settings (db w') = settings (db w) /\
    budgets (db w') = budgets (db w).
Proof.
  revert w. induction l as [|c l IH]; intros w Hinj Hfree.
  - exists w. simpl. split; [reflexivity|]. split; [intros i x H; discriminate|].
    split; [reflexivity|]. split; [lia|]. repeat split.
  - assert (Hne : forall i, (i < length l)%nat -> uuids w 0%nat <> uuids w (S (S (2 * i)))).
    { intros i Hi H. assert (0%nat = S i); [|discriminate].
      apply Hinj; simpl; try lia.
      replace (S (i + S (i + 0)))%nat with (S (S (2 * i))) by lia. exact H. }
    simpl forEach. unfold bind at 1.
    destruct (createSample_run c w) as [logs ->]; [apply (Hfree 0%nat); simpl; lia|].
    match goal with |- context [forEach l _ ?x] => set (w1 := x) end.
    destruct (IH w1) as (w' & E & Hrows & Hother & Hsize & Ht & Hs & Hb).
    { intros i j Hi Hj H. simpl in H.
      assert (S i = S j) as [= ->]; [|reflexivity].
      apply Hinj; simpl; try lia.
      replace (S (i + S (i + 0)))%nat with (S (S (i + (i + 0)))) by lia.
      replace (S (j + S (j + 0)))%nat with (S (S (j + (j + 0)))) by lia. exact H. }
    { intros i Hi. simpl. rewrite lookup_insert_ne.
      - replace (S (S (i + (i + 0))))%nat with (2 * S i)%nat by lia.
        apply Hfree. simpl. lia.
      - apply (Hne i Hi). }
    exists w'. split; [exact E|]. split; [|split; [|split; [|split; [|split]]]].
    + intros [|i] x Hx.
      * injection Hx as <-. rewrite Hother.
        -- simpl. rewrite lookup_insert_eq. reflexivity.
        -- intros i Hi. apply (Hne i Hi).
      * simpl in Hx. pose proof (Hrows i x Hx) as HH.
        unfold sampleRow in *. subst w1. simpl in HH.
        replace (2 * S i)%nat with (S (S (i + (i + 0)))) by lia.
        replace (3 * S i + 1)%nat with (S (S (S (i + (i + (i + 0)) + 1)))) by lia.
        replace (3 * S i)%nat with (S (S (S (i + (i + (i + 0)))))) by lia.
        exact HH.
    + intros k Hk. rewrite Hother.
      * simpl. rewrite lookup_insert_ne; [reflexivity|].
        intros H. apply (Hk 0%nat); [simpl; lia | now rewrite <- H].
      * intros i Hi H. apply (Hk (S i)); [simpl; lia|].
        rewrite H. simpl. f_equal. lia.
    + rewrite Hsize. simpl. rewrite map_size_insert_None; [lia|].
      apply (Hfree 0%nat). simpl. lia.
    + rewrite Ht. reflexivity.
    + rewrite Hs. reflexivity.
    + rewrite Hb. reflexivity.
Qed.

(** X2. When the seven ids [createSampleData] draws for its categories
    (every second id, the others go to the log entries) are distinct and
    are no keys of the category table, it resolves; the sample of index
    [i] is stored under its id with its name, icon, colour, type and order
    and with the times drawn for it; every other row of the table stays,
    so the table grows by seven rows whatever names it held; the
    transactions, the settings and the budgets stay as they were. *)
Theorem createSampleData_adds_seven (w : World) :
  (forall i j, (i < 7)%nat -> (j < 7)%nat ->
     uuids w (2 * i)%nat = uuids w (2 * j)%nat -> i = j) ->
  (forall i, (i < 7)%nat -> categories (db w) !! uuids w (2 * i)%nat = None) ->
  let w' := exec createSampleData w in
  outcome createSampleData w = Resolved tt /\
  (forall i category, sampleCategories !! i = Some category ->
     categories (db w') !! uuids w (2 * i)%nat = Some (sampleRow w i category)) /\
  (forall k, (forall i, (i < 7)%nat -> k <> uuids w (2 * i)%nat) ->
     categories (db w') !! k = categories (db w) !! k) /\
  size (categories (db w')) = (size (categories (db w)) + 7)%nat /\
  transactions (db w') = transactions (db w) /\
  settings (db w') = settings (db w) /\
  budgets (db w') = budgets (db w).
Proof.
  intros Hinj Hfree w'. subst w'. unfold exec, outcome, createSampleData.
  destruct (createEach_run sampleCategories w Hinj Hfree) as (w' & -> & H).
  split; [reflexivity | exact H].
Qed.

(** ** The trash *)



Lemma StronglySorted_List_filter {A : Type} (R : A -> A -> Prop) (f : A -> bool)
    (l : list A) :
  StronglySorted R l -> StronglySorted R (List.filter f l).
Proof.
  induction 1 as [|x l Hl IH Hx]; simpl; [constructor|].
  destruct (f x); [|exact IH]. constructor; [exact IH|].
  apply Forall_forall. intros y Hy. apply elem_of_List_filter in Hy as [Hy _].
  revert y Hy. now apply Forall_forall.
Qed.





(** ** The writes of [useDatabase] on transactions *)




Lemma updateTransaction_stored (w : World) (id : string) (t : Transaction)
    (updates : Transaction.patch) :
  transactions (db w) !! id = Some t -> Transaction.id t = id ->
  exists logs,
    updateTransaction id updates w =
    (Resolved tt,
     advance 1 2
       (setActionLogs logs
          (setTransactions
             (<[id := Transaction.apply
                        (stampTransaction updates (Js.toISOString (clock w 0%nat))) t]>
                (transactions (db w)))
             (db w)))
       w).
Proof.
  intros Ht Hid. unfold updateTransaction, bind, newDate. simpl.
  match goal with |- context [Dexie.update transactionsTable id ?p ?w0] =>
    destruct (update_logged transactionsTable transactions_updating_logs id p t w0)
      as [logs E] end.
  { exact Ht. }
  { exact Hid. }
  rewrite E. now exists logs.
Qed.

Lemma updateTransaction_missing (w : World) (id : string) (updates : Transaction.patch) :
  transactions (db w) !! id = None ->
  updateTransaction id updates w = (Resolved tt, advance 0 1 (db w) w).
Proof.
  intros Ht. unfold updateTransaction, bind, newDate. simpl.
  rewrite update_missing by exact Ht. reflexivity.
Qed.

(** X6. [updateTransaction] always resolves. For an id that has no row it
    changes no table (no row is created, no error is raised). For a stored
    row it writes the fields of the updates that are present over the row,
    keeps its id, and sets [updatedAt] to the time it draws, whatever
    [updatedAt] the updates carry; the other rows and the other data
    tables stay. *)
Theorem updateTransaction_patches (w : World) (id : string)
    (updates : Transaction.patch) :
  keyed Transaction.id (transactions (db w)) ->
  let w' := exec (updateTransaction id updates) w in
  outcome (updateTransaction id updates) w = Resolved tt /\
  (transactions (db w) !! id = None -> db w' = db w) /\
  (forall t, transactions (db w) !! id = Some t ->
     exists t',
       transactions (db w') = <[id := t']> (transactions (db w)) /\
       t' = Transaction.apply
              (stampTransaction updates (Js.toISOString (clock w 0%nat))) t /\
       Transaction.id t' = id /\
       Transaction.updatedAt t' = Js.toISOString (clock w 0%nat) /\
       Transaction.amount t' = default (Transaction.amount t) (Transaction.p_amount updates) /\
       Transaction.deletedAt t' =
         default (Transaction.deletedAt t) (Transaction.p_deletedAt updates) /\
       sameOtherTables (db w) (db w')).
Proof.
  intros Hkeyed w'. subst w'. unfold exec, outcome.
  destruct (transactions (db w) !! id) as [t|] eqn:Ht.
  - assert (Hid : Transaction.id t = id) by now apply Hkeyed.
    destruct (updateTransaction_stored w id t updates Ht Hid) as [logs ->]. simpl.
    split; [reflexivity|]. split; [intros H; discriminate|].
    intros t0 [= <-]. eexists. split; [reflexivity|]. split; [reflexivity|].
    simpl. split; [exact Hid|]. repeat split.
  - rewrite updateTransaction_missing by exact Ht. simpl.
    split; [reflexivity|]. split; [reflexivity | intros t H; discriminate].
Qed.

(** ** The statistics after a write *)










(** ** Deleting a category *)



Lemma NoDup_fmap_List_filter {A B : Type} (f : A -> B) (p : A -> bool) (l : list A) :
  NoDup (f <$> l) -> NoDup (f <$> List.filter p l).
Proof.
  induction l as [|x l IH]; intros Hnd; [constructor|].
  rewrite fmap_cons in Hnd. apply NoDup_cons in Hnd as [Hx Hnd]. simpl.
  destruct (p x); [|now apply IH].
  rewrite fmap_cons. apply NoDup_cons. split; [|now apply IH].
  intros Hin. apply Hx. apply list_elem_of_fmap in Hin as (y & -> & Hy).
  apply list_elem_of_fmap. exists y. split; [reflexivity|].
  now apply elem_of_List_filter in Hy as [Hy _].
Qed.

Section Modify.
Context {T P : Type} (tb : Dexie.Table T P) `{!DataTable tb}.

Local Abbreviation key := (Dexie.primaryKey tb).
Local Abbreviation rowsOf w := (Dexie.rows tb (db w)).




End Modify.










(** ** The filters and the sort of the transaction list *)






Section StableSort.
Context {A : Type} (le : A -> A -> bool) (before : A -> A -> Prop).
Hypothesis le_total : forall a b, le a b = true \/ le b a = true.
Hypothesis le_trans : forall a b c, le a b = true -> le b c = true -> le a c = true.

Lemma insertSorted_stable (x : A) (l : list A) :
  StronglySorted (stablyBefore le before) l ->
  (forall y, y ∈ l -> before x y) ->
  StronglySorted (stablyBefore le before) (Js.insertSorted le x l).
Proof.
  induction 1 as [|y l Hl IH Hy]; intros Hx; simpl.
  - repeat constructor.
  - destruct (le x y) eqn:Hxy.
    + constructor; [now constructor|]. apply Forall_forall. intros z Hz.
      split; [|intros _; now apply Hx].
      apply elem_of_cons in Hz as [->|Hz]; [exact Hxy|].
      apply le_trans with y; [exact Hxy|].
      rewrite Forall_forall in Hy. now apply Hy.
    + constructor.
      * apply IH. intros z Hz. apply Hx. now right.
      * apply Forall_forall. intros z Hz.
        rewrite JsFacts.insertSorted_perm in Hz. apply elem_of_cons in Hz as [->|Hz].
        -- split; [|congruence]. destruct (le_total x y); congruence.
        -- rewrite Forall_forall in Hy. now apply Hy.
Qed.

(** The sort is stable: rows that [le] ties stay in the order they had. *)
Lemma sortBy_stable (l : list A) :
  StronglySorted before l ->
  StronglySorted (stablyBefore le before) (Js.sortBy le l).
Proof.
  induction 1 as [|x l Hl IH Hx]; simpl; [constructor|].
  apply insertSorted_stable; [exact IH|].
  intros y Hy. apply JsFacts.sortBy_elem_of in Hy.
  rewrite Forall_forall in Hx. now apply Hx.
Qed.

End StableSort.

Lemma StronglySorted_fmap_inv {A B : Type} (f : A -> B) (R : B -> B -> Prop)
    (l : list A) :
  StronglySorted R (f <$> l) -> StronglySorted (fun a b => R (f a) (f b)) l.
Proof.
  induction l as [|x l IH]; intros H; [constructor|].
  rewrite fmap_cons in H. apply StronglySorted_inv in H as [Hl Hx].
  constructor; [now apply IH|]. now rewrite Forall_fmap in Hx.
Qed.

(** A table is read in the order of its primary key. *)
Lemma sorted_by_key {T : Type} (key : T -> string) (m : gmap string T) :
  keyed key m ->
  StronglySorted (fun a b => Js.le (key a) (key b) = true) (Dexie.sorted m).
Proof.
  intros Hm. unfold Dexie.sorted.
  set (L := Js.sortBy (fun a b => Js.le (fst a) (fst b)) (map_to_list m)).
  assert (HL : L = (fun r => (key r, r)) <$> (snd <$> L)).
  { rewrite <- list_fmap_compose. symmetry. erewrite list_fmap_ext; [apply list_fmap_id|].
    intros i [k r] H. simpl. f_equal.
    apply Hm, elem_of_map_to_list.
    apply (JsFacts.sortBy_elem_of (fun a b : string * T => Js.le (fst a) (fst b)) (k, r)).
    eapply list_elem_of_lookup_2; eauto. }
  apply (StronglySorted_fmap_inv (fun r => (key r, r))
           (fun a b => Js.le (fst a) (fst b) = true)).
  rewrite <- HL. apply (JsFacts.sortBy_sorted (fun a b => Js.le (fst a) (fst b))).
  - intros a b. apply JsFacts.le_total.
  - intros a b c. apply JsFacts.le_trans.
Qed.

Lemma leZ_total (a b : Z) : leZ a b = true \/ leZ b a = true.
Proof. unfold leZ. rewrite !Z.leb_le. lia. Qed.

Lemma leZ_trans (a b c : Z) : leZ a b = true -> leZ b c = true -> leZ a c = true.
Proof. unfold leZ. rewrite !Z.leb_le. lia. Qed.

(** X12. [useCategories type] lists each category of the table that is
    offered for the type (of that type or of type [both]; every category
    when no type is given) once, in ascending order of [order], categories
    of one [order] in the order of their ids. *)
Theorem useCategories_listing (type : option TransactionType) (s : Store) :
  keyed Category.id (categories s) ->
  let listing := useCategories type s in
  (forall c, c ∈ listing <->
     (exists k, categories s !! k = Some c) /\ offeredFor type c) /\
  NoDup (Category.id <$> listing) /\
  StronglySorted
    (fun a b => Category.order a <= Category.order b /\
                (Category.order b <= Category.order a ->
                 Js.le (Category.id a) (Category.id b) = true))
    listing /\
  (type = None -> length listing = size (categories s)).
Proof.
  intros Hkeyed listing. subst listing. unfold useCategories.
  set (query := Dexie.orderedBy leZ Category.order (categories s)).
  assert (Hq : StronglySorted
    (fun a b => Category.order a <= Category.order b /\
                (Category.order b <= Category.order a ->
                 Js.le (Category.id a) (Category.id b) = true)) query).
  { eapply StronglySorted_weaken;
      [|apply (sortBy_stable (fun a b => leZ (Category.order a) (Category.order b))
                 (fun a b => Js.le (Category.id a) (Category.id b) = true))].
    - intros a b [H1 H2]. unfold leZ in *. rewrite Z.leb_le in H1.
      split; [exact H1|]. intros H. apply H2. now apply Z.leb_le.
    - intros a b. apply leZ_total.
    - intros a b c. apply leZ_trans.
    - now apply sorted_by_key. }
  assert (Hnd : NoDup (Category.id <$> query)) by now apply orderedBy_keys_NoDup.
  destruct type as [ty|].
  - split; [|split; [|split]].
    + intros c. rewrite elem_of_List_filter. unfold query. rewrite elem_of_orderedBy.
      unfold offeredFor.
      destruct ty, (Category.type c); intuition congruence.
    + now apply NoDup_fmap_List_filter.
    + now apply StronglySorted_List_filter.
    + discriminate.
  - split; [|split; [|split]].
    + intros c. unfold query. rewrite elem_of_orderedBy. simpl. tauto.
    + exact Hnd.
    + exact Hq.
    + intros _. apply orderedBy_length.
Qed.










(** ** Reordering the categories *)

Lemma findIndex_found {A : Type} (key : A -> string) (l : list A) (x : A) :
  NoDup (key <$> l) -> x ∈ l ->
  exists i : nat,
    l !! i = Some x /\
    Js.findIndex (fun y => bool_decide (key y = key x)) l = Z.of_nat i.
Proof.
  induction l as [|y l IH]; intros Hnd Hx; [inversion Hx|].
  rewrite fmap_cons in Hnd. apply NoDup_cons in Hnd as [Hy Hnd]. simpl.
  destruct (bool_decide_reflect (key y = key x)) as [Heq|Hne].
  - exists 0%nat. split; [|reflexivity]. simpl. f_equal.
    apply elem_of_cons in Hx as [->|Hx]; [reflexivity|].
    exfalso. apply Hy. rewrite Heq. apply list_elem_of_fmap. eauto.
  - apply elem_of_cons in Hx as [->|Hx]; [congruence|].
    destruct (IH Hnd Hx) as (i & Hi & ->). exists (S i). split; [exact Hi|].
    destruct (Z.ltb_spec (Z.of_nat i) 0); lia.
Qed.

Lemma splice_remove {A : Type} (i : nat) (l : list A) :
  (i < length l)%nat ->
  Js.splice (Z.of_nat i) 1 [] l = take i l ++ drop (S i) l.
Proof.
  intros Hi. unfold Js.splice.
  destruct (Z.ltb_spec (Z.of_nat i) 0); [lia|]. simpl. f_equal; f_equal; lia.
Qed.

Lemma splice_insert {A : Type} (t : nat) (x : A) (l : list A) :
  (t <= length l)%nat ->
  Js.splice (Z.of_nat t) 0 [x] l = take t l ++ x :: drop t l.
Proof.
  intros Ht. unfold Js.splice.
  destruct (Z.ltb_spec (Z.of_nat t) 0); [lia|]. simpl. f_equal; [f_equal; lia|].
  f_equal. f_equal. lia.
Qed.

(** The list [handleDrop] renumbers: the dragged category taken out of its
    place and put at the target. *)
Lemma moved_spec (categories : list Category) (dragged : Category) (target : nat) :
  NoDup (Category.id <$> categories) -> dragged ∈ categories ->
  (target < length categories)%nat ->
  let new := CategoryList.moved categories dragged (Z.of_nat target) in
  new ≡ₚ categories /\
  new !! target = Some dragged /\
  List.filter (fun c => negb (bool_decide (Category.id c = Category.id dragged))) new =
  List.filter (fun c => negb (bool_decide (Category.id c = Category.id dragged))) categories.
Proof.
  intros Hnd Hin Ht new. subst new. unfold CategoryList.moved.
  destruct (findIndex_found Category.id categories dragged Hnd Hin) as (i & Hi & ->).
  assert (Hlen : (i < length categories)%nat) by (eapply lookup_lt_Some; eauto).
  rewrite splice_remove by exact Hlen.
  set (rest := take i categories ++ drop (S i) categories).
  assert (Hrest : length rest = (length categories - 1)%nat).
  { unfold rest. rewrite length_app, length_take, length_drop. lia. }
  rewrite splice_insert by lia.
  assert (Hsplit : take i categories ++ dragged :: drop (S i) categories = categories)
    by now apply take_drop_middle.
  set (p := fun c => negb (bool_decide (Category.id c = Category.id dragged))).
  assert (Hp : p dragged = false)
    by (unfold p; now rewrite bool_decide_eq_true_2).
  split; [|split].
  - rewrite <- Permutation_middle, take_drop. unfold rest.
    rewrite <- Hsplit at 3. now rewrite <- Permutation_middle.
  - rewrite lookup_app_r by (rewrite length_take; lia).
    rewrite length_take. replace (target - target `min` length rest)%nat with 0%nat by lia.
    reflexivity.
  - rewrite !List.filter_app. simpl. rewrite Hp. rewrite <- List.filter_app, take_drop.
    unfold rest. rewrite <- Hsplit at 3. rewrite !List.filter_app. simpl.
    now rewrite Hp.
Qed.

Lemma renumbered_same (c : Category) :
  renumbered c (Category.order c) (Category.updatedAt c) = c.
Proof. now destruct c. Qed.

Lemma reorderStep_wrote (i : Z) (c : Category) (w : World) :
  categories (db w) !! Category.id c = Some c ->
  exists w' u,
    (if negb (Category.order c =? i + 1) then
       updateCategoryPartial (Category.id c) (CategoryList.setOrder (i + 1))
     else ret tt) w = (Resolved tt, w') /\
    wrote categoriesTable (<[Category.id c := renumbered c (i + 1) u]> (categories (db w)))
      w w'.
Proof.
  intros Hc. destruct (Z.eqb_spec (Category.order c) (i + 1)) as [Heq|Hne]; simpl.
  - exists w, (Category.updatedAt c). split; [reflexivity|].
    rewrite <- Heq, renumbered_same, insert_id by exact Hc.
    apply (wrote_refl categoriesTable).
  - unfold updateCategoryPartial, bind, newDate.
    match goal with |- context [Dexie.update categoriesTable _ ?p ?w0] =>
      destruct (update_wrote categoriesTable (Category.id c) p c w0)
        as (w1 & E & [logs Hw]) end.
    { exact Hc. }
    { reflexivity. }
    rewrite E. exists w1, (Js.toISOString (clock w 0%nat)).
    split; [reflexivity|]. exists logs. exact Hw.
Qed.

Lemma reorderFrom_wrote (l : list Category) (i : Z) (w : World) :
  NoDup (Category.id <$> l) ->
  (forall c, c ∈ l -> categories (db w) !! Category.id c = Some c) ->
  exists w' m',
    CategoryList.reorderFrom i l w = (Resolved tt, w') /\
    wrote categoriesTable m' w w' /\
    (forall j c, l !! j = Some c ->
       exists u, m' !! Category.id c = Some (renumbered c (i + Z.of_nat j + 1) u)) /\
    (forall k, k ∉ Category.id <$> l -> m' !! k = categories (db w) !! k).
Proof.
  revert i w. induction l as [|c l IH]; intros i w Hnd Hstored.
  - exists w, (categories (db w)). split; [reflexivity|].
    split; [apply (wrote_refl categoriesTable)|]. split; [|reflexivity].
    intros j c H. discriminate.
  - rewrite fmap_cons in Hnd. apply NoDup_cons in Hnd as [Hc Hnd].
    simpl CategoryList.reorderFrom. unfold bind at 1.
    destruct (reorderStep_wrote i c w) as (w1 & u & -> & Hw1);
      [apply Hstored; now left|].
    pose proof (wrote_rows categoriesTable _ _ _ Hw1) as Hrows1. simpl in Hrows1.
    destruct (IH (i + 1) w1 Hnd) as (w2 & m2 & E & Hw2 & Hin & Hout).
    { intros c' Hc'. rewrite Hrows1, lookup_insert_ne; [apply Hstored; now right|].
      intros Heq. apply Hc. rewrite Heq. apply list_elem_of_fmap. eauto. }
    exists w2, m2. split; [exact E|]. split; [eapply wrote_trans; eauto; exact _|].
    split.
    + intros [|j] c' Hj.
      * injection Hj as <-. exists u. rewrite (Hout _ Hc), Hrows1, lookup_insert_eq.
        f_equal. f_equal. lia.
      * destruct (Hin j c' Hj) as [u' Hu']. exists u'. rewrite Hu'.
        f_equal. f_equal. lia.
    + intros k Hk. rewrite fmap_cons in Hk. apply not_elem_of_cons in Hk as [Hne Hk].
      rewrite (Hout k Hk), Hrows1. now rewrite lookup_insert_ne.
Qed.

Lemma StronglySorted_by_index {A : Type} (f : A -> Z) (l : list A) (base : Z) :
  (forall j x, l !! j = Some x -> f x = base + Z.of_nat j) ->
  StronglySorted (fun a b => f a <= f b) l.
Proof.
  revert base. induction l as [|x l IH]; intros base H; [constructor|].
  constructor.
  - apply (IH (base + 1)). intros j y Hj. rewrite (H (S j) y Hj). lia.
  - apply Forall_forall. intros y Hy. apply list_elem_of_lookup in Hy as [j Hj].
    rewrite (H 0%nat x eq_refl), (H (S j) y Hj). lia.
Qed.

(** The rows of a table that holds the renumbered categories of [new] and
    no other row are listed in the order of [new]. *)
Lemma renumbered_listing (new : list Category) (m' : gmap string Category) :
  NoDup (Category.id <$> new) ->
  keyed Category.id m' ->
  (forall j c, new !! j = Some c ->
     exists u, m' !! Category.id c = Some (renumbered c (Z.of_nat j + 1) u)) ->
  (forall k, is_Some (m' !! k) -> k ∈ Category.id <$> new) ->
  Dexie.orderedBy leZ Category.order m' =
  (fun c => default c (m' !! Category.id c)) <$> new.
Proof.
  intros Hnd Hkeyed Hin Hdom.
  set (L' := (fun c => default c (m' !! Category.id c)) <$> new).
  assert (HL' : forall j c, new !! j = Some c ->
            exists u, L' !! j = Some (renumbered c (Z.of_nat j + 1) u)).
  { intros j c Hj. destruct (Hin j c Hj) as [u Hu]. exists u.
    unfold L'. rewrite list_lookup_fmap, Hj. simpl. now rewrite Hu. }
  assert (HL'inv : forall j x, L' !! j = Some x ->
            exists c u, new !! j = Some c /\ x = renumbered c (Z.of_nat j + 1) u).
  { intros j x Hj. unfold L' in Hj. rewrite list_lookup_fmap in Hj.
    destruct (new !! j) as [c|] eqn:Hc; [|discriminate].
    destruct (HL' j c Hc) as [u Hu]. exists c, u. split; [reflexivity|].
    unfold L' in Hu. rewrite list_lookup_fmap, Hc in Hu. simpl in *. congruence. }
  assert (Hids : Category.id <$> L' = Category.id <$> new).
  { unfold L'. rewrite <- list_fmap_compose. apply list_fmap_ext. intros j c Hj. simpl.
    destruct (Hin j c Hj) as [u ->]. reflexivity. }
  assert (Hperm : Dexie.orderedBy leZ Category.order m' ≡ₚ L').
  { apply NoDup_Permutation.
    - eapply (NoDup_fmap_1 Category.id). now apply orderedBy_keys_NoDup.
    - apply (NoDup_fmap_1 Category.id). now rewrite Hids.
    - intros x. rewrite elem_of_orderedBy. split.
      + intros [k Hk].
        destruct (proj1 (list_elem_of_fmap _ _ _) (Hdom k (ex_intro _ x Hk)))
          as (c & -> & Hc).
        apply list_elem_of_lookup in Hc as [j Hj].
        destruct (HL' j c Hj) as [u Hu]. destruct (Hin j c Hj) as [u' Hu'].
        rewrite Hk in Hu'. injection Hu' as ->.
        unfold L' in *. rewrite list_lookup_fmap, Hj in Hu. simpl in Hu.
        rewrite Hk in Hu. simpl in Hu.
        apply list_elem_of_lookup. exists j.
        rewrite list_lookup_fmap, Hj. simpl. now rewrite Hk.
      + intros Hx. apply list_elem_of_lookup in Hx as [j Hj].
        destruct (HL'inv j x Hj) as (c & u & Hc & ->).
        destruct (Hin j c Hc) as [u' Hu']. exists (Category.id c).
        unfold L' in Hj. rewrite list_lookup_fmap, Hc in Hj. simpl in Hj.
        rewrite Hu' in Hj. simpl in Hj. injection Hj as <-. exact Hu'. }
  apply (StronglySorted_unique_strong (fun a b => Category.order a <= Category.order b)).
  - intros x1 x2 H1 H2 H12 H21. rewrite Hperm in H1.
    apply list_elem_of_lookup in H1 as [j1 Hj1]. apply list_elem_of_lookup in H2 as [j2 Hj2].
    destruct (HL'inv j1 x1 Hj1) as (c1 & u1 & Hc1 & E1).
    destruct (HL'inv j2 x2 Hj2) as (c2 & u2 & Hc2 & E2).
    assert (j1 = j2) by (subst x1 x2; simpl in *; lia). subst j2. congruence.
  - eapply StronglySorted_weaken; [|apply (orderedBy_sorted leZ Category.order)].
    + intros a b H. now apply Z.leb_le in H.
    + apply leZ_total.
    + apply leZ_trans.
  - apply (StronglySorted_by_index Category.order L' 1).
    intros j x Hj. destruct (HL'inv j x Hj) as (c & u & _ & ->). simpl. lia.
  - exact Hperm.
Qed.

(** X14. [handleDrop] of a category of the current listing on the place
    [target] of that listing resolves. The list it renumbers is the
    listing with the dragged category taken out and put at [target], the
    others keeping their order. When the category is dropped on its own
    place, nothing is written. Else, afterwards [useCategories] lists the
    categories in the order of that list, the category at index [j] with
    the order [j + 1] and every other field but [updatedAt] as before. *)
Theorem handleDrop_reorders (w : World) (dragged : Category) (target : nat) :
  keyed Category.id (categories (db w)) ->
  let listing := useCategories None (db w) in
  dragged ∈ listing ->
  (target < length listing)%nat ->
  let new := CategoryList.moved listing dragged (Z.of_nat target) in
  let action := CategoryList.handleDrop (Some listing) (Some dragged) (Z.of_nat target) in
  let listing' := useCategories None (db (exec action w)) in
  outcome action w = Resolved tt /\
  new ≡ₚ listing /\
  new !! target = Some dragged /\
  List.filter (fun c => negb (bool_decide (Category.id c = Category.id dragged))) new =
  List.filter (fun c => negb (bool_decide (Category.id c = Category.id dragged))) listing /\
  (listing !! target = Some dragged -> exec action w = w) /\
  (listing !! target <> Some dragged ->
   length listing' = length listing /\
   forall j c, new !! j = Some c ->
     exists u, listing' !! j = Some (renumbered c (Z.of_nat j + 1) u)).
Proof.
  intros Hkeyed listing Hin Ht new action listing'.
  assert (Hnd : NoDup (Category.id <$> listing))
    by now apply orderedBy_keys_NoDup.
  destruct (moved_spec listing dragged target Hnd Hin Ht) as (Hperm & Hat & Hothers).
  fold new in Hperm, Hat, Hothers.
  destruct (findIndex_found Category.id listing dragged Hnd Hin) as (i & Hi & Hfind).
  assert (Hsame : listing !! target = Some dragged <-> i = target).
  { split; [|now intros <-]. intros Htg.
    eapply NoDup_lookup; [exact Hnd| |];
      rewrite list_lookup_fmap; [rewrite Hi | rewrite Htg]; reflexivity. }
  assert (Hout : outcome action w = Resolved tt).
  { unfold action, outcome, CategoryList.handleDrop, CategoryForm.catching.
    now destruct (_ =? _). }
  split; [exact Hout|]. split; [exact Hperm|]. split; [exact Hat|].
  split; [exact Hothers|]. split.
  - intros Htg. apply Hsame in Htg. subst i.
    unfold action, exec, CategoryList.handleDrop. rewrite Hfind, Z.eqb_refl. reflexivity.
  - intros Htg.
    assert (Hne : i <> target) by (intros H; apply Htg, Hsame, H).
    assert (Hnd' : NoDup (Category.id <$> new)) by now rewrite Hperm.
    destruct (reorderFrom_wrote new 0 w Hnd') as (w1 & m' & E & Hw & Hrows & Hrest).
    { intros c Hc. rewrite Hperm in Hc. apply elem_of_useCategories in Hc as [k Hk].
      now rewrite (Hkeyed k c Hk). }
    assert (Hexec : exec action w = w1).
    { unfold action, exec, CategoryList.handleDrop, CategoryForm.catching.
      rewrite Hfind. destruct (Z.eqb_spec (Z.of_nat i) (Z.of_nat target)); [lia|].
      fold new. now rewrite E. }
    assert (Hm' : categories (db w1) = m') by apply (wrote_rows categoriesTable _ _ _ Hw).
    assert (Hdom : forall k, is_Some (m' !! k) -> k ∈ Category.id <$> new).
    { intros k [x Hx]. destruct (decide (k ∈ Category.id <$> new)) as [|Hk]; [assumption|].
      rewrite (Hrest k Hk) in Hx. exfalso. apply Hk.
      rewrite <- (Hkeyed k x Hx). apply list_elem_of_fmap. exists x.
      split; [reflexivity|]. rewrite Hperm. apply elem_of_useCategories. eauto. }
    assert (Hkeyed' : keyed Category.id m').
    { intros k x Hx.
      destruct (proj1 (list_elem_of_fmap _ _ _) (Hdom k (ex_intro _ x Hx)))
        as (c & -> & Hc).
      apply list_elem_of_lookup in Hc as [j Hj].
      destruct (Hrows j c Hj) as [u Hu]. rewrite Hx in Hu. now injection Hu as ->. }
    assert (Hrows' : forall j c, new !! j = Some c ->
              exists u, m' !! Category.id c = Some (renumbered c (Z.of_nat j + 1) u)).
    { intros j c Hj. destruct (Hrows j c Hj) as [u Hu]. exists u. now rewrite Hu. }
    assert (Hlist : listing' =
              (fun c => default c (m' !! Category.id c)) <$> new).
    { unfold listing'. rewrite Hexec. unfold useCategories. rewrite Hm'.
      now apply renumbered_listing. }
    split.
    + now rewrite Hlist, length_fmap, Hperm.
    + intros j c Hj. destruct (Hrows' j c Hj) as [u Hu]. exists u.
      rewrite Hlist, list_lookup_fmap, Hj. simpl. now rewrite Hu.
Qed.

(** ** Import: merge, and files that do not fit *)

Lemma addAll_keeps {T : Type} (key : T -> string) (objs : list T) (m : gmap string T)
    (k : string) (r : T) :
  m !! k = Some r -> addAll key objs m !! k = Some r.
Proof.
  revert m. induction objs as [|o objs IH]; intros m Hk; [exact Hk|]. simpl.
  destruct (m !! key o) eqn:Ho; [now apply IH|]. apply IH.
  rewrite lookup_insert_ne; [exact Hk|]. intros Heq. rewrite Heq in Ho. congruence.
Qed.

Lemma addAll_covers {T : Type} (key : T -> string) (objs : list T) (m : gmap string T)
    (o : T) :
  o ∈ objs -> is_Some (addAll key objs m !! key o).
Proof.
  revert m. induction objs as [|o' objs IH]; intros m Ho; [inversion Ho|]. simpl.
  apply elem_of_cons in Ho as [->|Ho].
  - destruct (m !! key o') as [r|] eqn:Hr.
    + exists r. now apply addAll_keeps.
    + exists o'. apply addAll_keeps, lookup_insert_eq.
  - now apply IH.
Qed.

Lemma addAll_present {T : Type} (key : T -> string) (objs : list T) (m : gmap string T) :
  (forall o, o ∈ objs -> is_Some (m !! key o)) -> addAll key objs m = m.
Proof.
  induction objs as [|o objs IH]; intros H; [reflexivity|]. simpl.
  destruct (H o) as [r ->]; [now left|]. apply IH. intros o' Ho'. apply H. now right.
Qed.

Section BulkAdd.
Context {T P : Type} (tb : Dexie.Table T P) `{!DataTable tb}.

Local Abbreviation key := (Dexie.primaryKey tb).
Local Abbreviation rowsOf w := (Dexie.rows tb (db w)).

Lemma bulkAddFrom_collides (objs : list T) (failed : bool) (w : World) :
  failed = true \/ ~ NoDup (key <$> objs) \/
    (exists o, o ∈ objs /\ is_Some (rowsOf w !! key o)) ->
  exists w',
    Dexie.bulkAddFrom tb objs failed w = (Resolved true, w') /\
    wrote tb (addAll key objs (rowsOf w)) w w'.
Proof.
  revert failed w. induction objs as [|obj objs IH]; intros failed w Hc.
  - destruct Hc as [->|[Hc|(o & Ho & _)]].
    + exists w. split; [reflexivity | apply wrote_refl; exact _].
    + destruct Hc. constructor.
    + inversion Ho.
  - simpl. unfold bind at 1.
    destruct (wrote_hook tb (Dexie.creating tb obj) w) as (w1 & -> & Hh);
      [apply creating_quiet|].
    unfold Dexie.readRows, getStore, bind at 1 2, ret.
    pose proof (wrote_rows tb _ _ _ Hh) as Hrows. rewrite Hrows.
    destruct (rowsOf w !! key obj) as [old|] eqn:Hold.
    + destruct (IH true w1) as (w2 & E & Hw); [now left|].
      exists w2. split; [exact E|]. rewrite Hrows in Hw. eapply wrote_trans; eauto.
    + unfold bind at 1.
      destruct (wrote_writeRows tb (<[key obj := obj]> (rowsOf w)) w1) as (w2 & -> & Hw1).
      assert (Hw2 : wrote tb (<[key obj := obj]> (rowsOf w)) w w2)
        by (eapply wrote_trans; eauto).
      destruct (IH failed w2) as (w3 & E & Hw).
      { rewrite (wrote_rows tb _ _ _ Hw2).
        destruct Hc as [Hf|[Hnd|(o & Ho & Hsome)]]; [now left| |].
        - rewrite fmap_cons in Hnd.
          destruct (decide (key obj ∈ key <$> objs)) as [Hin|Hout].
          + right. right. apply list_elem_of_fmap in Hin as (o & Heq & Ho).
            exists o. split; [exact Ho|]. rewrite <- Heq, lookup_insert_eq. eauto.
          + right. left. intros Hnd'. apply Hnd. now constructor.
        - right. right. apply elem_of_cons in Ho as [->|Ho].
          + rewrite Hold in Hsome. now destruct Hsome.
          + exists o. split; [exact Ho|].
            destruct (decide (key obj = key o)) as [Heq|Hne].
            * rewrite <- Heq, lookup_insert_eq. eauto.
            * now rewrite lookup_insert_ne. }
      exists w3. split; [exact E|].
      rewrite (wrote_rows tb _ _ _ Hw2) in Hw. eapply wrote_trans; eauto.
Qed.

(** [bulkAdd] of rows of which one has a key that is taken, in the table
    or by an earlier row of the list: the rows whose key is free are
    added, and the promise is rejected. *)
Lemma bulkAdd_collides (objs : list T) (w : World) :
  ~ NoDup (key <$> objs) \/ (exists o, o ∈ objs /\ is_Some (rowsOf w !! key o)) ->
  exists w',
    Dexie.bulkAdd tb objs w = (Rejected BulkError, w') /\
    wrote tb (addAll key objs (rowsOf w)) w w'.
Proof.
  intros Hc. unfold Dexie.bulkAdd, bind.
  destruct (bulkAddFrom_collides objs false w) as (w' & -> & Hw); [now right|].
  exists w'. split; [reflexivity | exact Hw].
Qed.

End BulkAdd.

(** X15. A merge import that meets a category whose id is taken: the
    promise is rejected with a bulk error; the categories of the file whose
    id was free have been added and no stored category has changed; and
    the import has stopped there: no transaction, no budget and no
    settings of the file are imported, whether their ids are free or
    not. *)
Theorem importData_merge_collision (w : World) (file : ExportFile)
    (imported : list Category) (c : Category) :
  data_categories (data file) = Some imported ->
  c ∈ imported ->
  is_Some (categories (db w) !! Category.id c) ->
  let w' := exec (importData file Merge) w in
  outcome (importData file Merge) w = Rejected BulkError /\
  (forall k x, categories (db w) !! k = Some x -> categories (db w') !! k = Some x) /\
  (forall x, x ∈ imported -> is_Some (categories (db w') !! Category.id x)) /\
  transactions (db w') = transactions (db w) /\
  budgets (db w') = budgets (db w) /\
  settings (db w') = settings (db w).
Proof.
  intros Hfile Hc Htaken w'. subst w'.
  destruct (bulkAdd_collides categoriesTable imported w) as (w1 & E1 & [logs H1]).
  { right. exists c. split; assumption. }
  assert (E : importData file Merge w = (Rejected BulkError, w1)).
  { unfold importData. rewrite Hfile. unfold bind, ret. now rewrite E1. }
  unfold exec, outcome. rewrite E. simpl. rewrite H1. simpl. split; [reflexivity|].
  split; [intros k x; apply addAll_keeps|].
  split; [intros x; apply addAll_covers|]. repeat split.
Qed.

Lemma bulkAdd_own_rows {T P : Type} (tb : Dexie.Table T P) `{!DataTable tb} (w : World) :
  keyed (Dexie.primaryKey tb) (Dexie.rows tb (db w)) ->
  exists w' logs,
    Dexie.bulkAdd tb (Dexie.sorted (Dexie.rows tb (db w))) w =
      (if bool_decide (Dexie.rows tb (db w) = ∅) then Resolved tt else Rejected BulkError,
       w') /\
    db w' = setActionLogs logs (db w).
Proof.
  intros Hkeyed.
  assert (Hsame : addAll (Dexie.primaryKey tb) (Dexie.sorted (Dexie.rows tb (db w)))
                    (Dexie.rows tb (db w)) = Dexie.rows tb (db w)).
  { apply addAll_present. intros o Ho. apply elem_of_sorted in Ho as [k Hk].
    rewrite (Hkeyed k o Hk). eauto. }
  destruct (bool_decide_reflect (Dexie.rows tb (db w) = ∅)) as [He|Hne].
  - rewrite He, sorted_empty. exists w, (actionLogs (db w)).
    split; [reflexivity | now rewrite setActionLogs_id].
  - destruct (bulkAdd_collides tb (Dexie.sorted (Dexie.rows tb (db w))) w)
      as (w' & E & [logs Hw]).
    { right. destruct (map_choose _ Hne) as (k & x & Hk). exists x. split.
      - apply elem_of_sorted. eauto.
      - rewrite (Hkeyed k x Hk). eauto. }
    exists w', logs. split; [exact E|]. now rewrite Hw, Hsame, setRows_rows.
Qed.

(** X16. The file of [exportData] imported into the database it was
    exported from with [importData file Merge] changes none of the four
    data tables. The import is rejected with a bulk error as soon as the
    category, transaction or budget table holds a row, every such row
    being met again under its id. *)
Theorem export_import_merge (w : World) (file : ExportFile) :
  wfStore (db w) ->
  outcome exportData w = Resolved file ->
  let w0 := exec exportData w in
  let w' := exec (importData file Merge) w0 in
  transactions (db w') = transactions (db w) /\
  categories (db w') = categories (db w) /\
  settings (db w') = settings (db w) /\
  budgets (db w') = budgets (db w) /\
  (categories (db w) <> ∅ \/ transactions (db w) <> ∅ \/ budgets (db w) <> ∅ ->
   outcome (importData file Merge) w0 = Rejected BulkError).
Proof.
  intros [Hkt Hkc Hks Hkb _] Hfile w0 w'.
  unfold outcome in Hfile. rewrite exportData_run in Hfile. simpl in Hfile.
  injection Hfile as <-.
  assert (Hdb0 : db w0 = db w) by reflexivity. clearbody w0.
  set (import := importData _ Merge) in *.
  assert (Hrun : exists r w1 logs,
    import w0 = (r, w1) /\ db w1 = setActionLogs logs (db w) /\
    (categories (db w) <> ∅ \/ transactions (db w) <> ∅ \/ budgets (db w) <> ∅ ->
     r = Rejected BulkError)).
  { subst import. unfold importData.
    simpl data_categories. simpl data_transactions.
    simpl data_budgets. simpl data_settings.
    unfold bind. unfold ret at 1.
    destruct (bulkAdd_own_rows categoriesTable w0) as (w1 & l1 & E1 & H1);
      [simpl; now rewrite Hdb0|].
    simpl in E1. rewrite Hdb0 in E1, H1. rewrite E1.
    destruct (bool_decide_reflect (categories (db w) = ∅)) as [Hc|Hc];
      [|now exists (Rejected BulkError), w1, l1].
    destruct (bulkAdd_own_rows transactionsTable w1) as (w2 & l2 & E2 & H2);
      [rewrite H1; exact Hkt|].
    rewrite H1 in E2, H2. simpl in E2, H2. rewrite E2.
    destruct (bool_decide_reflect (transactions (db w) = ∅)) as [Ht|Ht];
      [|now exists (Rejected BulkError), w2, l2].
    destruct (bulkAdd_own_rows budgetsTable w2) as (w3 & l3 & E3 & H3);
      [rewrite H2; exact Hkb|].
    rewrite H2 in E3, H3. simpl in E3, H3. rewrite E3.
    destruct (bool_decide_reflect (budgets (db w) = ∅)) as [Hb|Hb];
      [|now exists (Rejected BulkError), w3, l3].
    assert (Hs3 : settings (db w3) = settings (db w)) by now rewrite H3.
    destruct (importSettings_same w3) as [Hsame _]; [now rewrite Hs3|].
    rewrite Hs3 in Hsame. unfold importSettings, exec in Hsame. unfold bind in Hsame.
    match goal with |- exists r w1 logs, ?run = _ /\ _ =>
      exists (fst run), (snd run), l3 end.
    split; [apply surjective_pairing|]. split; [now rewrite Hsame, H3|].
    intros [H|[H|H]]; contradiction. }
  destruct Hrun as (r & w1 & logs & E & Hdb & Hrej).
  subst w'. unfold exec, outcome. rewrite E. simpl. rewrite Hdb. simpl.
  repeat split. exact Hrej.
Qed.

Lemma importList_fresh {T P : Type} (tb : Dexie.Table T P) `{!DataTable tb}
    (l : option (list T)) (w : World) :
  Dexie.rows tb (db w) = ∅ ->
  NoDup (Dexie.primaryKey tb <$> default [] l) ->
  exists w',
    match l with
    | Some objs => Dexie.bulkAdd tb objs
    | None => ret tt
    end w = (Resolved tt, w') /\
    wrote tb (addAll (Dexie.primaryKey tb) (default [] l) ∅) w w'.
Proof.
  intros Hempty Hnd. destruct l as [objs|]; simpl in *.
  - destruct (bulkAdd_wrote tb objs w Hnd) as (w' & E & Hw).
    { intros o _. rewrite Hempty. apply lookup_empty. }
    exists w'. split; [exact E|]. now rewrite Hempty in Hw.
  - exists w. split; [reflexivity|]. rewrite <- Hempty. apply wrote_refl; exact _.
Qed.

Lemma lookup_addAll_empty {T : Type} (key : T -> string) (objs : list T)
    (k : string) (r : T) :
  NoDup (key <$> objs) ->
  addAll key objs ∅ !! k = Some r <-> r ∈ objs /\ key r = k.
Proof.
  intros Hnd. rewrite lookup_addAll; [|exact Hnd|intros o _; apply lookup_empty].
  rewrite lookup_empty. split; [intros [H|H]; [discriminate | exact H] | now right].
Qed.

(** The last step of [importData] writes to the settings table only. *)
Lemma importSettings_touches (exported : option (list Settings)) (w : World) :
  exists r w' m logs,
    match exported with
    | Some (settings :: _) =>
        await existing := Dexie.get settingsTable "main" in
        match existing with
        | Some _ =>
            await _ := Dexie.update settingsTable "main" settings in ret tt
        | None =>
            await _ := Dexie.add settingsTable settings in ret tt
        end
    | _ => ret tt
    end w = (r, w') /\
    db w' = setActionLogs logs (setSettings m (db w)) /\
    (match exported with
     | Some (_ :: _) => True
     | _ => r = Resolved tt /\ m = settings (db w)
     end).
Proof.
  assert (Hid : forall s : Store, setActionLogs (actionLogs s) (setSettings (settings s) s) = s)
    by now intros [].
  destruct exported as [[|st rest]|].
  1, 3: exists (Resolved tt), w, (settings (db w)), (actionLogs (db w));
        now rewrite Hid.
  unfold Dexie.get, Dexie.update, Dexie.add, Dexie.readRows, Dexie.writeRows,
    Dexie.noHook, getStore, putStore, bind, ret, throw. simpl.
  destruct (settings (db w) !! "main"%string) as [ex|] eqn:Hmain; rewrite ?Hmain; simpl.
  - destruct (decide _); simpl.
    + eexists _, _, _, (actionLogs (db w)). split; [reflexivity|]. split; [|exact I].
      simpl. reflexivity.
    + destruct (settings (db w) !! Settings.id st); simpl.
      * eexists _, _, (settings (db w)), (actionLogs (db w)).
        split; [reflexivity|]. now rewrite Hid.
      * eexists _, _, _, (actionLogs (db w)). split; [reflexivity|]. split; [|exact I].
        simpl. reflexivity.
  - destruct (settings (db w) !! Settings.id st); simpl.
    + eexists _, _, (settings (db w)), (actionLogs (db w)).
      split; [reflexivity|]. now rewrite Hid.
    + eexists _, _, _, (actionLogs (db w)). split; [reflexivity|]. split; [|exact I].
      simpl. reflexivity.
Qed.

Lemma importData_overwrite_cleared (w : World) :
  wfStore (db w) ->
  exists w3 logs,
    (await _ := Dexie.clear transactionsTable in
     await _ := Dexie.clear categoriesTable in
     Dexie.clear budgetsTable) w = (Resolved tt, w3) /\
    db w3 = mkStore ∅ ∅ (settings (db w)) ∅ logs.
Proof.
  intros [Hkt Hkc Hks Hkb _]. unfold bind.
  destruct (clear_wrote transactionsTable w) as (w1 & -> & [l1 H1]); [exact Hkt|].
  destruct (clear_wrote categoriesTable w1) as (w2 & -> & [l2 H2]);
    [rewrite H1; exact Hkc|].
  destruct (clear_wrote budgetsTable w2) as (w3 & -> & [l3 H3]);
    [rewrite H2, H1; exact Hkb|].
  exists w3, l3. split; [reflexivity|]. rewrite H3, H2, H1. reflexivity.
Qed.

(** X17. [importData file Overwrite] of a file whose lists repeat no id:
    afterwards the category, transaction and budget tables hold the rows
    of the lists of the file, each under its id, and no other row; a list
    that the file lacks leaves its table empty. When the file has no
    settings the promise resolves and the settings table stays as it was:
    it is never cleared. *)
Theorem importData_overwrite_replaces (w : World) (file : ExportFile) :
  wfStore (db w) ->
  let imported_categories := default [] (data_categories (data file)) in
  let imported_transactions := default [] (data_transactions (data file)) in
  let imported_budgets := default [] (data_budgets (data file)) in
  NoDup (Category.id <$> imported_categories) ->
  NoDup (Transaction.id <$> imported_transactions) ->
  NoDup (Budget.id <$> imported_budgets) ->
  let w' := exec (importData file Overwrite) w in
  (forall k r, categories (db w') !! k = Some r <->
     r ∈ imported_categories /\ Category.id r = k) /\
  (forall k r, transactions (db w') !! k = Some r <->
     r ∈ imported_transactions /\ Transaction.id r = k) /\
  (forall k r, budgets (db w') !! k = Some r <->
     r ∈ imported_budgets /\ Budget.id r = k) /\
  (match data_settings (data file) with
   | Some (_ :: _) => True
   | _ => settings (db w') = settings (db w) /\
          outcome (importData file Overwrite) w = Resolved tt
   end).
Proof.
  intros Hwf cats txs buds Hndc Hndt Hndb w'.
  assert (Hrun : exists r w1 m logs,
    importData file Overwrite w = (r, w1) /\
    db w1 = mkStore (addAll Transaction.id txs ∅) (addAll Category.id cats ∅)
              m (addAll Budget.id buds ∅) logs /\
    (match data_settings (data file) with
     | Some (_ :: _) => True
     | _ => r = Resolved tt /\ m = settings (db w)
     end)).
  { unfold importData. unfold bind at 1.
    destruct (importData_overwrite_cleared w Hwf) as (w3 & l3 & -> & H3).
    unfold bind at 1.
    destruct (importList_fresh categoriesTable (data_categories (data file)) w3)
      as (w4 & -> & [l4 H4]); [now rewrite H3 | exact Hndc|].
    unfold bind at 1.
    destruct (importList_fresh transactionsTable (data_transactions (data file)) w4)
      as (w5 & -> & [l5 H5]); [now rewrite H4, H3 | exact Hndt|].
    unfold bind at 1.
    destruct (importList_fresh budgetsTable (data_budgets (data file)) w5)
      as (w6 & -> & [l6 H6]); [now rewrite H5, H4, H3 | exact Hndb|].
    destruct (importSettings_touches (data_settings (data file)) w6)
      as (r & w7 & m & l7 & -> & H7 & Hs).
    exists r, w7, m, l7. split; [reflexivity|]. split.
    - rewrite H7, H6, H5, H4, H3. reflexivity.
    - destruct (data_settings (data file)) as [[|? ?]|]; try exact I;
        destruct Hs as [-> ->]; (split; [reflexivity|]);
        now rewrite H6, H5, H4, H3. }
  destruct Hrun as (r & w1 & m & logs & E & Hdb & Hs).
  subst w'. unfold exec, outcome. rewrite E. simpl. rewrite Hdb. simpl.
  split; [intros k x; now apply lookup_addAll_empty|].
  split; [intros k x; now apply lookup_addAll_empty|].
  split; [intros k x; now apply lookup_addAll_empty|].
  destruct (data_settings (data file)) as [[|? ?]|]; try exact I;
    destruct Hs as [-> ->]; now split.
Qed.

(** X18. [importData file Overwrite] of a file whose category list repeats
    an id: the promise is rejected with a bulk error after the three
    tables have been cleared; the category table holds a row for every id
    of the list, and the transaction and budget tables are left empty:
    the rows they held are gone and those of the file are not imported. *)
Theorem importData_overwrite_duplicate (w : World) (file : ExportFile)
    (imported : list Category) :
  wfStore (db w) ->
  data_categories (data file) = Some imported ->
  ~ NoDup (Category.id <$> imported) ->
  let w' := exec (importData file Overwrite) w in
  outcome (importData file Overwrite) w = Rejected BulkError /\
  (forall c, c ∈ imported -> is_Some (categories (db w') !! Category.id c)) /\
  transactions (db w') = ∅ /\
  budgets (db w') = ∅ /\
  settings (db w') = settings (db w).
Proof.
  intros Hwf Hfile Hdup w'.
  assert (Hrun : exists w1 logs,
    importData file Overwrite w = (Rejected BulkError, w1) /\
    db w1 = mkStore ∅ (addAll Category.id imported ∅) (settings (db w)) ∅ logs).
  { unfold importData. rewrite Hfile. unfold bind at 1.
    destruct (importData_overwrite_cleared w Hwf) as (w3 & l3 & -> & H3).
    unfold bind at 1.
    destruct (bulkAdd_collides categoriesTable imported w3) as (w4 & -> & [l4 H4]);
      [now left|].
    exists w4, l4. split; [reflexivity|]. rewrite H4, H3. reflexivity. }
  destruct Hrun as (w1 & logs & E & Hdb).
  subst w'. unfold exec, outcome. rewrite E. simpl. rewrite Hdb. simpl.
  split; [reflexivity|]. split; [intros c; apply addAll_covers|]. repeat split.
Qed.

(** ** What every operation keeps *)

Section Keeps.
Context (Inv : Store -> Prop).

Lemma keeps_ret {A : Type} (a : A) : keeps Inv (ret a).
Proof. intros w H. exact H. Qed.

Lemma keeps_throw {A : Type} (e : DexieError) : keeps Inv (@throw A e).
Proof. intros w H. exact H. Qed.

Lemma keeps_bind {A B : Type} (m : Async A) (k : A -> Async B) :
  keeps Inv m -> (forall a, keeps Inv (k a)) -> keeps Inv (bind m k).
Proof.
  intros Hm Hk w Hw. unfold exec, bind. specialize (Hm w Hw). unfold exec in Hm.
  destruct (m w) as [[a|e] w']; simpl in *; [now apply Hk | exact Hm].
Qed.

Lemma keeps_read {A B : Type} (m : Async A) (k : A -> Async B) (Q : A -> Prop) :
  (forall w, Inv (db w) -> exists a, m w = (Resolved a, w) /\ Q a) ->
  (forall a, Q a -> keeps Inv (k a)) -> keeps Inv (bind m k).
Proof.
  intros Hm Hk w Hw. unfold exec, bind. destruct (Hm w Hw) as (a & -> & Ha).
  now apply Hk.
Qed.

Lemma keeps_draw {A : Type} (m : Async A) :
  (forall w, db (exec m w) = db w) -> keeps Inv m.
Proof. intros H w Hw. now rewrite H. Qed.

Lemma keeps_detached {A : Type} (m : Async A) : keeps Inv m -> keeps Inv (detached m).
Proof. intros Hm w Hw. exact (Hm w Hw). Qed.

Lemma keeps_catching (m : Async unit) : keeps Inv m -> keeps Inv (CategoryForm.catching m).
Proof. intros Hm w Hw. exact (Hm w Hw). Qed.

Lemma keeps_forEach {A : Type} (l : list A) (body : A -> Async unit) :
  (forall x, keeps Inv (body x)) -> keeps Inv (forEach l body).
Proof.
  intros Hb. induction l as [|x l IH]; simpl; [apply keeps_ret|].
  apply keeps_bind; [apply Hb | intros _; exact IH].
Qed.

Lemma keeps_randomUUID : keeps Inv randomUUID.
Proof. now apply keeps_draw. Qed.

Lemma keeps_newDate : keeps Inv newDate.
Proof. now apply keeps_draw. Qed.

Context {T P : Type} (tb : Dexie.Table T P) `{!InvTable Inv tb}.

Lemma keeps_rows {B : Type} (k : gmap string T -> Async B) :
  (forall m, keyed (Dexie.primaryKey tb) m -> keeps Inv (k m)) ->
  keeps Inv (bind (Dexie.readRows tb) k).
Proof.
  intros Hk. apply (keeps_read _ _ (keyed (Dexie.primaryKey tb))); [|exact Hk].
  intros w Hw. eexists. split; [reflexivity|]. now apply inv_rows_keyed.
Qed.

Lemma keeps_writeRows (m : gmap string T) :
  keyed (Dexie.primaryKey tb) m -> keeps Inv (Dexie.writeRows tb m).
Proof.
  intros Hm w Hw. unfold exec, Dexie.writeRows, getStore, putStore, bind. simpl.
  now apply inv_setRows.
Qed.

Lemma keeps_get {B : Type} (key : string) (k : option T -> Async B) :
  (forall o, keeps Inv (k o)) -> keeps Inv (bind (Dexie.get tb key) k).
Proof. intros Hk. apply keeps_bind; [|exact Hk]. now apply keeps_draw. Qed.

Lemma keeps_count {B : Type} (k : Z -> Async B) :
  (forall n, keeps Inv (k n)) -> keeps Inv (bind (Dexie.count tb) k).
Proof. intros Hk. apply keeps_bind; [|exact Hk]. now apply keeps_draw. Qed.

Lemma keeps_add (obj : T) : keeps Inv (Dexie.add tb obj).
Proof.
  unfold Dexie.add. apply keeps_bind; [apply inv_creating|]. intros _.
  apply keeps_rows. intros m Hm.
  destruct (m !! Dexie.primaryKey tb obj); [apply keeps_throw|].
  apply keeps_bind; [|intros _; apply keeps_ret].
  now apply keeps_writeRows, keyed_insert.
Qed.

Lemma keeps_bulkAddFrom (objs : list T) (failed : bool) :
  keeps Inv (Dexie.bulkAddFrom tb objs failed).
Proof.
  revert failed. induction objs as [|obj objs IH]; intros failed; simpl;
    [apply keeps_ret|].
  apply keeps_bind; [apply inv_creating|]. intros _.
  apply keeps_rows. intros m Hm.
  destruct (m !! Dexie.primaryKey tb obj); [apply IH|].
  apply keeps_bind; [|intros _; apply IH].
  now apply keeps_writeRows, keyed_insert.
Qed.

Lemma keeps_bulkAdd (objs : list T) : keeps Inv (Dexie.bulkAdd tb objs).
Proof.
  unfold Dexie.bulkAdd. apply keeps_bind; [apply keeps_bulkAddFrom|].
  intros []; [apply keeps_throw | apply keeps_ret].
Qed.

Lemma keeps_update (key : string) (changes : P) :
  keeps Inv (Dexie.update tb key changes).
Proof.
  unfold Dexie.update. apply keeps_rows. intros m _.
  destruct (m !! key) as [obj|]; [|apply keeps_ret].
  apply keeps_bind; [apply inv_updating|]. intros _.
  apply keeps_rows. intros m' Hm'.
  destruct (decide _) as [Hk|Hk].
  - apply keeps_bind; [|intros _; apply keeps_ret].
    apply keeps_writeRows. rewrite <- Hk. now apply keyed_insert.
  - destruct (m' !! _); [apply keeps_throw|].
    apply keeps_bind; [|intros _; apply keeps_ret].
    now apply keeps_writeRows, keyed_insert, keyed_delete.
Qed.

Lemma keeps_deleteRow (obj : T) : keeps Inv (Dexie.deleteRow tb obj).
Proof.
  unfold Dexie.deleteRow. apply keeps_bind; [apply inv_deleting|]. intros _.
  apply keeps_rows. intros m Hm. now apply keeps_writeRows, keyed_delete.
Qed.

Lemma keeps_deleteAll (query : gmap string T -> list T) :
  keeps Inv (Dexie.deleteAll tb query).
Proof.
  unfold Dexie.deleteAll. apply keeps_rows. intros m _.
  apply keeps_bind; [|intros _; apply keeps_ret].
  apply keeps_forEach, keeps_deleteRow.
Qed.

Lemma keeps_clear : keeps Inv (Dexie.clear tb).
Proof.
  unfold Dexie.clear. apply keeps_bind; [apply keeps_deleteAll|].
  intros _. apply keeps_ret.
Qed.

Lemma keeps_delete (key : string) : keeps Inv (Dexie.delete tb key).
Proof.
  unfold Dexie.delete. apply keeps_rows. intros m _.
  destruct (m !! key); [apply keeps_deleteRow | apply keeps_ret].
Qed.

Lemma keeps_modify (query : gmap string T -> list T) (changes : P) :
  keeps Inv (Dexie.modify tb query changes).
Proof.
  unfold Dexie.modify. apply keeps_rows. intros m _.
  apply keeps_bind; [|intros _; apply keeps_ret].
  apply keeps_forEach. intros obj.
  apply keeps_bind; [apply keeps_update | intros _; apply keeps_ret].
Qed.

End Keeps.

Lemma capped_logAction (action : Action) (entityType : EntityType)
    (entityId : string) (data : LogData) :
  keeps capped (logAction action entityType entityId data).
Proof.
  intros w [Hwf Hsize]. unfold exec.
  destruct (actionLogs (db w) !! uuids w 0%nat) as [old|] eqn:Hold.
  - rewrite logAction_taken by eauto. now split.
  - rewrite logAction_run; [|apply Hwf|exact Hold]. simpl.
    set (inserted := <[uuids w 0%nat := _]> (actionLogs (db w))).
    assert (Hk : keyed ActionLog.id inserted).
    { apply (keyed_insert ActionLog.id _ (nextLog w action entityType entityId data)).
      apply Hwf. }
    split.
    + destruct Hwf. split; try assumption. now apply keyed_lastLogs.
    + simpl. rewrite size_lastLogs by exact Hk. lia.
Qed.

Lemma capped_setRows {T P : Type} (tb : Dexie.Table T P) `{!KeyedTable tb}
    (m : gmap string T) (s : Store) :
  (forall m s, actionLogs (Dexie.setRows tb m s) = actionLogs s) ->
  capped s -> keyed (Dexie.primaryKey tb) m -> capped (Dexie.setRows tb m s).
Proof.
  intros Hlogs [Hwf Hsize] Hm. split; [now apply setRows_wf|]. now rewrite Hlogs.
Qed.

Global Instance transactionsTable_capped : InvTable capped transactionsTable.
Proof.
  split.
  - intros s [Hwf _]. apply Hwf.
  - intros m s. now apply (capped_setRows transactionsTable).
  - intros obj. apply keeps_detached, capped_logAction.
  - intros c obj. apply keeps_detached, capped_logAction.
  - intros obj. apply keeps_detached, capped_logAction.
Qed.

Global Instance categoriesTable_capped : InvTable capped categoriesTable.
Proof.
  split.
  - intros s [Hwf _]. apply Hwf.
  - intros m s. now apply (capped_setRows categoriesTable).
  - intros obj. apply keeps_detached, capped_logAction.
  - intros c obj. apply keeps_detached, capped_logAction.
  - intros obj. apply keeps_detached, capped_logAction.
Qed.

Global Instance settingsTable_capped : InvTable capped settingsTable.
Proof.
  split.
  - intros s [Hwf _]. apply Hwf.
  - intros m s. now apply (capped_setRows settingsTable).
  - intros obj. apply keeps_ret.
  - intros c obj. apply keeps_ret.
  - intros obj. apply keeps_ret.
Qed.

Global Instance budgetsTable_capped : InvTable capped budgetsTable.
Proof.
  split.
  - intros s [Hwf _]. apply Hwf.
  - intros m s. now apply (capped_setRows budgetsTable).
  - intros obj. apply keeps_ret.
  - intros c obj. apply keeps_ret.
  - intros obj. apply keeps_ret.
Qed.

Lemma capped_perform (op : Operation) : keeps capped (perform op).
Proof.
  assert (Hcreate : forall category, keeps capped (createCategory category)).
  { intros category. unfold createCategory.
    apply keeps_bind; [apply keeps_randomUUID|]. intros id.
    apply keeps_bind; [apply keeps_newDate|]. intros c.
    apply keeps_bind; [apply keeps_newDate|]. intros u.
    apply keeps_bind; [apply keeps_add; exact _|]. intros _. apply keeps_ret. }
  assert (Hupdate : forall id updates, keeps capped (updateCategoryPartial id updates)).
  { intros id updates. unfold updateCategoryPartial.
    apply keeps_bind; [apply keeps_newDate|]. intros u.
    apply keeps_bind; [apply keeps_update; exact _|]. intros _. apply keeps_ret. }
  assert (Hsoft : forall id, keeps capped (softDeleteTransaction id)).
  { intros id. unfold softDeleteTransaction. apply (keeps_get capped transactionsTable).
    intros [t|]; [|apply keeps_ret].
    apply keeps_bind; [apply keeps_newDate|]. intros d.
    apply keeps_bind; [apply keeps_newDate|]. intros u.
    apply keeps_bind; [apply keeps_update; exact _|]. intros _. apply keeps_ret. }
  assert (Hdelete : forall id mergeToId, keeps capped (deleteCategory id mergeToId)).
  { intros id mergeToId. unfold deleteCategory. apply keeps_bind.
    - destruct (Js.truthyStr mergeToId); [|apply keeps_ret].
      apply keeps_bind; [apply keeps_modify; exact _ | intros _; apply keeps_ret].
    - intros _. apply keeps_delete; exact _. }
  destruct op as [ | | id | id | | | file mode | transaction | id updates | id
                 | category | id updates | id mergeToId
                 | listed category formData | listed draggedCategory targetIndex
                 | selectedCategory mergeToId ]; simpl.
  - unfold initializeDefaultData. apply (keeps_count capped settingsTable). intros n.
    destruct (n =? 0); [|apply keeps_ret].
    apply keeps_bind; [apply keeps_newDate|]. intros c.
    apply keeps_bind; [apply keeps_newDate|]. intros u.
    apply keeps_bind; [apply keeps_add; exact _|]. intros _. apply keeps_ret.
  - unfold createSampleData. apply keeps_forEach. intros category. unfold createSample.
    apply keeps_bind; [apply keeps_randomUUID|]. intros id.
    apply keeps_bind; [apply keeps_newDate|]. intros c.
    apply keeps_bind; [apply keeps_newDate|]. intros u.
    apply keeps_bind; [apply keeps_add; exact _|]. intros _. apply keeps_ret.
  - apply Hsoft.
  - unfold restoreTransaction.
    apply keeps_bind; [apply keeps_newDate|]. intros u.
    apply keeps_bind; [apply keeps_update; exact _|]. intros _.
    apply keeps_detached, capped_logAction.
  - unfold permanentlyDeleteOldTrash.
    apply keeps_bind; [apply keeps_newDate|]. intros now.
    apply keeps_bind; [apply keeps_deleteAll; exact _|]. intros _. apply keeps_ret.
  - apply keeps_bind; [now apply keeps_draw | intros _; apply keeps_ret].
  - unfold importData. apply keeps_bind.
    { destruct mode; [|apply keeps_ret].
      apply keeps_bind; [apply keeps_clear; exact _|]. intros _.
      apply keeps_bind; [apply keeps_clear; exact _|]. intros _.
      apply keeps_clear; exact _. }
    intros _. apply keeps_bind.
    { destruct (data_categories _); [apply keeps_bulkAdd; exact _ | apply keeps_ret]. }
    intros _. apply keeps_bind.
    { destruct (data_transactions _); [apply keeps_bulkAdd; exact _ | apply keeps_ret]. }
    intros _. apply keeps_bind.
    { destruct (data_budgets _); [apply keeps_bulkAdd; exact _ | apply keeps_ret]. }
    intros _. destruct (data_settings _) as [[|st rest]|]; try apply keeps_ret.
    apply (keeps_get capped settingsTable). intros [ex|].
    + apply keeps_bind; [apply keeps_update; exact _|]. intros _. apply keeps_ret.
    + apply keeps_bind; [apply keeps_add; exact _|]. intros _. apply keeps_ret.
  - apply keeps_bind; [|intros _; apply keeps_ret]. unfold createTransaction.
    apply keeps_bind; [apply keeps_randomUUID|]. intros id.
    apply keeps_bind; [apply keeps_newDate|]. intros c.
    apply keeps_bind; [apply keeps_newDate|]. intros u.
    apply keeps_bind; [apply keeps_add; exact _|]. intros _. apply keeps_ret.
  - unfold updateTransaction.
    apply keeps_bind; [apply keeps_newDate|]. intros u.
    apply keeps_bind; [apply keeps_update; exact _|]. intros _. apply keeps_ret.
  - apply Hsoft.
  - apply keeps_bind; [apply Hcreate | intros _; apply keeps_ret].
  - apply Hupdate.
  - apply Hdelete.
  - apply keeps_bind; [|intros _; apply keeps_ret]. unfold CategoryForm.handleSubmit.
    destruct (negb _); [apply keeps_ret|].
    apply keeps_bind; [|intros _; apply keeps_ret]. apply keeps_catching.
    destruct category as [c|].
    + unfold updateCategory.
      apply keeps_bind; [apply keeps_newDate|]. intros u.
      apply keeps_bind; [apply keeps_update; exact _|]. intros _. apply keeps_ret.
    + apply keeps_bind; [apply Hcreate | intros _; apply keeps_ret].
  - unfold CategoryList.handleDrop.
    destruct draggedCategory as [dragged|]; [|apply keeps_ret].
    destruct listed as [listed|]; [|apply keeps_ret].
    destruct (_ =? _); [apply keeps_ret|]. apply keeps_catching.
    generalize 0. induction (CategoryList.moved listed dragged targetIndex)
      as [|c l IH]; intros i; simpl; [apply keeps_ret|].
    apply keeps_bind; [|intros _; apply IH].
    destruct (negb _); [apply Hupdate | apply keeps_ret].
  - unfold CategoryList.confirmDelete.
    destruct selectedCategory; [|apply keeps_ret]. apply keeps_catching, Hdelete.
Qed.

(** X19. Every write of the application keeps the log within its cap:
    from a database whose rows are stored under their ids and whose log
    holds at most 500 entries (the empty database is one), any sequence of
    operations, each run to its end, leaves such a database. *)
Theorem log_never_exceeds_500 (ops : list Operation) (w : World) :
  capped (db w) ->
  let w' := performAll ops w in
  wfStore (db w') /\ (size (actionLogs (db w')) <= 500)%nat.
Proof.
  revert w. induction ops as [|op ops IH]; intros w Hw; [exact Hw|].
  apply IH. now apply capped_perform.
Qed.

(** ** Submitting the category form *)

Lemma createCategory_fresh (w : World) (category : CategoryData) :
  categories (db w) !! uuids w 0%nat = None ->
  exists logs,
    createCategory category w =
    (Resolved (sampleRow w 0 category),
     advance 2 3
       (setActionLogs logs
          (setCategories (<[uuids w 0%nat := sampleRow w 0 category]> (categories (db w)))
             (db w)))
       w).
Proof.
  intros Hfree. unfold createCategory, bind, randomUUID, newDate. simpl.
  match goal with |- context [Dexie.add categoriesTable ?row ?w0] =>
    destruct (add_logged categoriesTable categories_creating_logs row w0)
      as [logs E] end.
  { exact Hfree. }
  rewrite E. now exists logs.
Qed.

Lemma find_is_Some {A : Type} (p : A -> bool) (l : list A) (x : A) :
  x ∈ l -> p x = true -> is_Some (List.find p l).
Proof.
  intros Hx Hp. destruct (List.find p l) eqn:E; [eauto|].
  apply list_elem_of_In in Hx. pose proof (List.find_none p l E x Hx). congruence.
Qed.

(** X20. A valid form submitted for a new category, with an id that is
    free: the category is created with the trimmed name, the fields of
    the form and the order one above the number of listed categories;
    [useCategories] lists it beside the categories it listed; and the
    same form, validated against that listing, has the duplicate-name
    error, so that submitting it again writes nothing. *)
Theorem submit_new_category (w : World) (formData : CategoryForm.FormData) :
  keyed Category.id (categories (db w)) ->
  let listing := useCategories None (db w) in
  CategoryForm.isValid (CategoryForm.validateForm (Some listing) None formData) = true ->
  categories (db w) !! uuids w 0%nat = None ->
  let w' := exec (CategoryForm.handleSubmit (Some listing) None formData) w in
  let listing' := useCategories None (db w') in
  let created := submittedCategory w (length listing) formData in
  categories (db w') = <[uuids w 0%nat := created]> (categories (db w)) /\
  created ∈ listing' /\
  (forall c, c ∈ listing -> c ∈ listing') /\
  CategoryForm.nameError (CategoryForm.validateForm (Some listing') None formData)
    = Some CategoryForm.NameDuplicate /\
  exec (CategoryForm.handleSubmit (Some listing') None formData) w' = w'.
Proof.
  intros Hkeyed listing Hvalid Hfree w' listing' created.
  assert (Horder : Js.orNum (Category.order <$> None)
             (Js.orNum (Z.of_nat <$> (length <$> Some listing)) 0 + 1)
           = Z.of_nat (length listing) + 1).
  { simpl. destruct (Z.eqb_spec (Z.of_nat (length listing)) 0) as [->|]; reflexivity. }
  assert (Hrun : exists logs,
    db w' = setActionLogs logs
              (setCategories (<[uuids w 0%nat := created]> (categories (db w))) (db w))).
  { subst w'. unfold exec, CategoryForm.handleSubmit. rewrite Hvalid. cbn [negb].
    unfold bind at 1, CategoryForm.catching at 1, bind at 1.
    match goal with |- context [createCategory ?d w] =>
      destruct (createCategory_fresh w d Hfree) as [logs ->] end.
    exists logs. cbn [snd fst ret db advance]. unfold sampleRow, newCategoryOf, created,
      submittedCategory. cbn [cd_name cd_icon cd_color cd_type cd_budget cd_order].
    rewrite Horder. reflexivity. }
  destruct Hrun as [logs Hdb].
  assert (Hcats : categories (db w') = <[uuids w 0%nat := created]> (categories (db w)))
    by now rewrite Hdb.
  assert (Hin : created ∈ listing').
  { apply elem_of_useCategories. exists (uuids w 0%nat). rewrite Hcats.
    apply lookup_insert_eq. }
  assert (Hname : CategoryForm.nameError
            (CategoryForm.validateForm (Some listing') None formData)
          = Some CategoryForm.NameDuplicate).
  { unfold CategoryForm.isValid, CategoryForm.validateForm in Hvalid.
    cbn [CategoryForm.nameError CategoryForm.budgetError] in Hvalid.
    unfold CategoryForm.validateForm. cbn [CategoryForm.nameError].
    destruct (bool_decide (Js.trim (CategoryForm.name formData) = EmptyString));
      [discriminate|].
    destruct (20 <? _); [discriminate|].
    match goal with |- context [List.find ?p ?l] =>
      destruct (find_is_Some p l created) as [c ->]; [exact Hin| |reflexivity] end.
    simpl. now rewrite bool_decide_eq_true_2. }
  split; [exact Hcats|]. split; [exact Hin|]. split; [|split; [exact Hname|]].
  - intros c Hc. apply elem_of_useCategories in Hc as [k Hk].
    apply elem_of_useCategories. exists k. rewrite Hcats.
    rewrite lookup_insert_ne; [exact Hk|]. intros <-. congruence.
  - unfold exec, CategoryForm.handleSubmit, CategoryForm.isValid. rewrite Hname.
    reflexivity.
Qed.

(** ** The purge, the export and the log *)




(** X22. [exportData] resolves, writes nothing, and its file has the
    version 1, the time it draws as [exportDate], and the four lists of
    all rows of the four tables: every transaction of the table is in
    the list once, the soft-deleted ones as well, in the order of the
    ids. *)
Theorem exportData_unfiltered (w : World) :
  keyed Transaction.id (transactions (db w)) ->
  exists file exported,
    outcome exportData w = Resolved file /\
    db (exec exportData w) = db w /\
    version file = 1 /\
    exportDate file = Js.toISOString (clock w 0%nat) /\
    data_transactions (data file) = Some exported /\
    (forall t, t ∈ exported <-> storedTransaction (db w) t) /\
    NoDup (Transaction.id <$> exported) /\
    length exported = size (transactions (db w)) /\
    StronglySorted
      (fun a b => Js.le (Transaction.id a) (Transaction.id b) = true) exported /\
    data_categories (data file) = Some (Dexie.sorted (categories (db w))) /\
    data_settings (data file) = Some (Dexie.sorted (settings (db w))) /\
    data_budgets (data file) = Some (Dexie.sorted (budgets (db w))).
Proof.
  intros Hkeyed. eexists _, (Dexie.sorted (transactions (db w))).
  unfold outcome, exec. rewrite exportData_run. simpl.
  split; [reflexivity|]. split; [reflexivity|]. split; [reflexivity|].
  split; [reflexivity|]. split; [reflexivity|].
  split; [intros t; apply elem_of_sorted|].
  split; [now apply sorted_keys_NoDup|].
  split; [apply sorted_length|].
  split; [now apply sorted_by_key|]. repeat split.
Qed.


(** ** The further theorems at the sample databases *)

Section MoreSamples.
Local Open Scope string_scope.

Lemma sampleWorld_keyed : keyed Transaction.id (transactions (db sampleWorld)).
Proof. apply (bool_decide_unpack _); vm_compute; exact I. Qed.

Lemma shopStore_wf : wfStore shopStore.
Proof. split; apply (bool_decide_unpack _); vm_compute; exact I. Qed.

Lemma sample_ids_distinct (i j : nat) :
  (i < 7)%nat -> (j < 7)%nat ->
  uuids sampleWorld (2 * i)%nat = uuids sampleWorld (2 * j)%nat -> i = j.
Proof.
  intros Hi Hj H.
  do 7 (destruct i as [|i];
        [do 7 (destruct j as [|j];
               [first [reflexivity | vm_compute in H; discriminate]|]); lia|]).
  lia.
Qed.

Lemma sample_ids_free (i : nat) :
  (i < 7)%nat -> categories (db sampleWorld) !! uuids sampleWorld (2 * i)%nat = None.
Proof.
  intros Hi. do 7 (destruct i as [|i]; [vm_compute; reflexivity|]). lia.
Qed.

Lemma createSampleData_adds_seven_witness :
  size (categories (db (exec createSampleData sampleWorld))) =
  (size (categories (db sampleWorld)) + 7)%nat.
Proof.
  exact (proj1 (proj2 (proj2 (proj2
    (createSampleData_adds_seven sampleWorld sample_ids_distinct sample_ids_free))))).
Defined.


Lemma updateTransaction_patches_witness :
  keyed Transaction.id (transactions (db sampleWorld)) /\
  outcome (updateTransaction "no-such-id" Transaction.noPatch) sampleWorld = Resolved tt.
Proof.
  assert (H1 : keyed Transaction.id (transactions (db sampleWorld)))
    by (apply (bool_decide_unpack _); vm_compute; exact I).
  split; [exact H1|].
  exact (proj1 (updateTransaction_patches sampleWorld "no-such-id" Transaction.noPatch H1)).
Defined.





Lemma useCategories_listing_witness :
  keyed Category.id (categories shopStore) /\
  NoDup (Category.id <$> useCategories (Some Expense) shopStore).
Proof.
  assert (H1 : keyed Category.id (categories shopStore))
    by (apply (bool_decide_unpack _); vm_compute; exact I).
  split; [exact H1|].
  exact (proj1 (proj2 (useCategories_listing (Some Expense) shopStore H1))).
Defined.


Lemma handleDrop_reorders_witness :
  keyed Category.id (categories (db shopWorld)) /\
  pay ∈ useCategories None (db shopWorld) /\
  (0 < length (useCategories None (db shopWorld)))%nat /\
  CategoryList.moved (useCategories None (db shopWorld)) pay (Z.of_nat 0) !! 0%nat
  = Some pay.
Proof.
  assert (H1 : keyed Category.id (categories (db shopWorld)))
    by (apply (bool_decide_unpack _); vm_compute; exact I).
  assert (H2 : pay ∈ useCategories None (db shopWorld))
    by (vm_compute; repeat constructor).
  assert (H3 : (0 < length (useCategories None (db shopWorld)))%nat)
    by (vm_compute; lia).
  split; [exact H1|]. split; [exact H2|]. split; [exact H3|].
  exact (proj1 (proj2 (proj2 (handleDrop_reorders shopWorld pay 0 H1 H2 H3)))).
Defined.

Lemma importData_merge_collision_witness :
  data_categories (data sampleFile) = Some [food] /\
  food ∈ [food] /\
  is_Some (categories (db sampleWorld) !! Category.id food) /\
  outcome (importData sampleFile Merge) sampleWorld = Rejected BulkError.
Proof.
  assert (H1 : data_categories (data sampleFile) = Some [food]) by reflexivity.
  assert (H2 : food ∈ [food]) by constructor.
  assert (H3 : is_Some (categories (db sampleWorld) !! Category.id food))
    by (exists food; reflexivity).
  split; [exact H1|]. split; [exact H2|]. split; [exact H3|].
  exact (proj1 (importData_merge_collision sampleWorld sampleFile [food] food H1 H2 H3)).
Defined.

Lemma export_import_merge_witness :
  wfStore (db sampleWorld) /\
  outcome exportData sampleWorld = Resolved sampleFile /\
  transactions (db (exec (importData sampleFile Merge) (exec exportData sampleWorld)))
  = transactions (db sampleWorld).
Proof.
  assert (H1 : wfStore (db sampleWorld)) by exact sampleStore_wf.
  assert (H2 : outcome exportData sampleWorld = Resolved sampleFile) by reflexivity.
  split; [exact H1|]. split; [exact H2|].
  exact (proj1 (export_import_merge sampleWorld sampleFile H1 H2)).
Defined.

Lemma importData_overwrite_replaces_witness :
  wfStore (db shopWorld) /\
  NoDup (Category.id <$> default [] (data_categories (data sampleFile))) /\
  NoDup (Transaction.id <$> default [] (data_transactions (data sampleFile))) /\
  NoDup (Budget.id <$> default [] (data_budgets (data sampleFile))) /\
  (forall k r,
     categories (db (exec (importData sampleFile Overwrite) shopWorld)) !! k = Some r <->
     r ∈ default [] (data_categories (data sampleFile)) /\ Category.id r = k).
Proof.
  assert (H1 : wfStore (db shopWorld)) by exact shopStore_wf.
  assert (H2 : NoDup (Category.id <$> default [] (data_categories (data sampleFile))))
    by (apply (bool_decide_unpack _); vm_compute; exact I).
  assert (H3 : NoDup (Transaction.id <$> default [] (data_transactions (data sampleFile))))
    by (apply (bool_decide_unpack _); vm_compute; exact I).
  assert (H4 : NoDup (Budget.id <$> default [] (data_budgets (data sampleFile))))
    by (apply (bool_decide_unpack _); vm_compute; exact I).
  split; [exact H1|]. split; [exact H2|]. split; [exact H3|]. split; [exact H4|].
  exact (proj1 (importData_overwrite_replaces shopWorld sampleFile H1 H2 H3 H4)).
Defined.

Lemma importData_overwrite_duplicate_witness :
  wfStore (db shopWorld) /\
  data_categories (data duplicateFile) = Some [food; food] /\
  ~ NoDup (Category.id <$> [food; food]) /\
  transactions (db (exec (importData duplicateFile Overwrite) shopWorld)) = ∅.
Proof.
  assert (H1 : wfStore (db shopWorld)) by exact shopStore_wf.
  assert (H2 : data_categories (data duplicateFile) = Some [food; food]) by reflexivity.
  assert (H3 : ~ NoDup (Category.id <$> [food; food]))
    by (apply (bool_decide_unpack _); vm_compute; exact I).
  split; [exact H1|]. split; [exact H2|]. split; [exact H3|].
  exact (proj1 (proj2 (proj2
    (importData_overwrite_duplicate shopWorld duplicateFile [food; food] H1 H2 H3)))).
Defined.

Lemma log_never_exceeds_500_witness :
  capped (db shopWorld) /\
  (size (actionLogs (db (performAll sampleOperations shopWorld))) <= 500)%nat.
Proof.
  assert (H1 : capped (db shopWorld)).
  { split; [exact shopStore_wf | vm_compute; lia]. }
  split; [exact H1|].
  exact (proj2 (log_never_exceeds_500 sampleOperations shopWorld H1)).
Defined.

Lemma submit_new_category_witness :
  keyed Category.id (categories (db shopWorld)) /\
  CategoryForm.isValid
    (CategoryForm.validateForm (Some (useCategories None (db shopWorld))) None newBooks)
  = true /\
  categories (db shopWorld) !! uuids shopWorld 0%nat = None /\
  CategoryForm.nameError
    (CategoryForm.validateForm
       (Some (useCategories None
          (db (exec (CategoryForm.handleSubmit
                       (Some (useCategories None (db shopWorld))) None newBooks)
                    shopWorld))))
       None newBooks)
  = Some CategoryForm.NameDuplicate.
Proof.
  assert (H1 : keyed Category.id (categories (db shopWorld)))
    by (apply (bool_decide_unpack _); vm_compute; exact I).
  assert (H2 : CategoryForm.isValid
    (CategoryForm.validateForm (Some (useCategories None (db shopWorld))) None newBooks)
    = true) by (vm_compute; reflexivity).
  assert (H3 : categories (db shopWorld) !! uuids shopWorld 0%nat = None)
    by (vm_compute; reflexivity).
  split; [exact H1|]. split; [exact H2|]. split; [exact H3|].
  exact (proj1 (proj2 (proj2 (proj2 (submit_new_category shopWorld newBooks H1 H2 H3))))).
Defined.


Lemma exportData_unfiltered_witness :
  keyed Transaction.id (transactions (db sampleWorld)) /\
  exists file exported,
    outcome exportData sampleWorld = Resolved file /\
    data_transactions (data file) = Some exported /\
    length exported = size (transactions (db sampleWorld)).
Proof.
  assert (H1 : keyed Transaction.id (transactions (db sampleWorld)))
    by (apply (bool_decide_unpack _); vm_compute; exact I).
  split; [exact H1|].
  destruct (exportData_unfiltered sampleWorld H1)
    as (file & exported & Ho & _ & _ & _ & Hd & _ & _ & Hl & _).
  exists file, exported. split; [exact Ho|]. split; [exact Hd | exact Hl].
Defined.


End MoreSamples.
